(** * pdf-table-extractor: marker store, grid assignment, line clustering
      and text-orientation correction

    A shallow embedding of the algorithmic core of the extractor:

    - [LineDetector]: [cluster_lines] of [image/line_detector.py];
    - [Markers]: the working marker lists and their history
      ([gui/main_area.py], [core/marker_manager.py],
      [image/area_processor.py]);
    - [TableExtractor]: grid assignment and the multi-page pass
      ([core/table_extractor.py]);
    - [Orientation]: the analyser and the three corrections
      ([core/text_orientation_corrector.py]);
    - [PageMarkers], [Selection], [PdfHandler]: saved page markers, the
      table label, the area selection and zoom ([core/marker_manager.py],
      [gui/app.py], [gui/main_area.py], [core/pdf_handler.py]);
    - [TableCommands]: forced correction and transposition
      ([core/table_extractor.py]);
    - [Exporters]: the CSV text ([utils/exporters.py]);
    - [OrientationCommands]: restoring the text
      ([core/text_orientation_corrector.py]);
    - [ManualInput]: the cell editor and its multi-page run
      ([core/manual_input.py]).

    Numbers.  Python's [int] is [Z].  Python's [float] is idealised as an
    exact rational [Q]: every comparison and every [int(...)] below is
    taken on the exact value.  Marker values, which the program keeps as a
    mixed list of ints and floats, are rationals.

    Text.  A Python [str] is a [string]; its characters are the code
    points below 256, classified as Python classifies them. *)

From Stdlib Require Import ZArith QArith Lqa String Ascii List Sorted
  Permutation Lia.
From stdpp Require Import base list sorting gmap strings.

Open Scope Z_scope.

(** ** Python primitives shared by the components *)

(** [int(q)] on a float: truncation toward zero. *)
Definition py_int (q : Q) : Z := Z.quot (Qnum q) (Zpos (Qden q)).

#[global] Instance Qle_decision (x y : Q) : Decision (x <= y)%Q.
Proof.
  destruct (Qlt_le_dec y x) as [H | H].
  - right. apply Qlt_not_le, H.
  - left. exact H.
Defined.

#[global] Instance Qlt_decision (x y : Q) : Decision (x < y)%Q.
Proof.
  destruct (Qlt_le_dec x y) as [H | H].
  - left. exact H.
  - right. apply Qle_not_lt, H.
Defined.

#[global] Instance Qeq_decision (x y : Q) : Decision (x == y)%Q := Qeq_dec x y.

#[global] Instance Qle_total : Total Qle.
Proof.
  intros x y. destruct (Qlt_le_dec x y) as [H | H].
  - left. apply Qlt_le_weak, H.
  - right. exact H.
Qed.

#[global] Instance Qle_transitive : Transitive Qle.
Proof. intros x y z. apply Qle_trans. Qed.

(** [x in l] and [l.remove(x)] compare numbers with [==]. *)
Definition py_in (x : Q) (l : list Q) : bool :=
  existsb (fun y => bool_decide (y == x)%Q) l.

Fixpoint py_remove (x : Q) (l : list Q) : option (list Q) :=
  match l with
  | [] => None
  | y :: l' =>
      if bool_decide (y == x)%Q then Some l'
      else option_map (cons y) (py_remove x l')
  end.

(** [sorted(l)] and [l.sort()] on numbers. *)
Definition sorted (l : list Q) : list Q := merge_sort Qle l.

Definition sortedZ (l : list Z) : list Z := merge_sort Z.le l.

(** ** Line clustering ([image/line_detector.py]) *)

Module LineDetector.

(** The loop of [cluster_lines] over [sorted_lines[1:]].  [cur] is the
    cluster under construction ([clusters[-1]]), [prev] its last member
    ([clusters[-1][-1]]); the clusters before it are already final and
    are emitted in order. *)
Fixpoint group (distance_threshold : Z) (cur : list Z) (prev : Z)
         (rest : list Z) : list (list Z) :=
  match rest with
  | [] => [cur]
  | line :: rest' =>
      if bool_decide (line - prev <= distance_threshold)
      then group distance_threshold (cur ++ [line]) line rest'
      else cur :: group distance_threshold [line] line rest'
  end.

Definition clusters_of (lines : list Z) (distance_threshold : Z)
  : list (list Z) :=
  match sortedZ lines with
  | [] => []
  | first :: rest => group distance_threshold [first] first rest
  end.

(** [cluster[len(cluster) // 2]] *)
Definition representative (cluster : list Z) : Z :=
  nth (length cluster / 2)%nat cluster 0.

Definition cluster_lines (lines : list Z) (distance_threshold : Z)
  : list Z :=
  map representative (clusters_of lines distance_threshold).

(** Neighbouring members of one cluster are at most the threshold
    apart. *)
Definition close_knit (t : Z) (c : list Z) : Prop :=
  forall (i : nat) (a b : Z),
    c !! i = Some a -> c !! S i = Some b -> b - a <= t.

(** Neighbouring clusters are more than the threshold apart. *)
Definition far_apart (t : Z) (cs : list (list Z)) : Prop :=
  forall (i : nat) (c1 c2 : list Z) (a b : Z),
    cs !! i = Some c1 -> cs !! S i = Some c2 ->
    last c1 = Some a -> head c2 = Some b -> t < b - a.

End LineDetector.

(** ** Application state ([gui/app.py]) *)

Inductive marker_type : Type := column | row.

(** An entry [{'type': ..., 'value': ...}] of [marker_history]. *)
Record history_entry : Type := {
  type : marker_type;
  value : Q
}.

Inductive selection_mode_t : Type := mode_column | mode_row | mode_area.

(** The texts written to [status_label]; numbers shown in a text are kept
    as arguments. *)
Inductive status_text : Type :=
| status_ready
| status_nothing_to_undo
| status_removed_column (v : Q)
| status_removed_row (v : Q)
| status_could_not_remove
| status_all_lines_cleared
| status_applied (v_lines h_lines : nat)
| status_extracted (n_rows n_cols : nat)
| status_extracted_corrected (n_rows n_cols : nat)
| status_extracted_pages (n_rows n_cols : nat) (pages : list nat)
| status_orientation_corrected.

(** A text span of [page.get_text("dict")]: its text and its [bbox]
    [(x0, y0, x1, y1)]; [dir] is the optional direction pair read by the
    geometry check. *)
Record span : Type := {
  text : string;
  bbox : Q * Q * Q * Q;
  dir : option (Q * Q)
}.

(** A block of the text dictionary: its [type] (0 is text) and its lines,
    each a list of spans. *)
Record block : Type := {
  block_type : Z;
  lines : list (list span)
}.

(** A page of the document: the width and height of [page.rect], and
    [get_text], the text dictionary of the page, or [None] when the PDF
    engine raises on it. *)
Record page : Type := {
  rect_width : Q;
  rect_height : Q;
  get_text : option (list block)
}.

(** A value of [page_markers]: [{'columns': [...], 'rows': [...]}]. *)
Record page_marker_data : Type := {
  columns : list Q;
  rows : list Q
}.

(** The fields of the application object that the core reads and
    writes.  [pdf_document] is [None] before a PDF is opened. *)
Record App : Type := {
  pdf_document : option (list page);
  current_page : nat;
  zoom_factor : Q;
  column_markers : list Q;
  row_markers : list Q;
  selection_mode : option selection_mode_t;
  table_data : list (list string);
  selection_start : option (Z * Z);
  selection_end : option (Z * Z);
  page_markers : gmap nat page_marker_data;
  marker_history : list history_entry;
  status_label : status_text
}.

(** [not app.pdf_document]: no document, or a document without pages. *)
Definition no_document (app : App) : bool :=
  match pdf_document app with
  | None => true
  | Some pages => bool_decide (pages = [])
  end.

Definition set_markers (cols rws : list Q) (hist : list history_entry)
           (app : App) : App :=
  {| pdf_document := pdf_document app;
     current_page := current_page app;
     zoom_factor := zoom_factor app;
     column_markers := cols;
     row_markers := rws;
     selection_mode := selection_mode app;
     table_data := table_data app;
     selection_start := selection_start app;
     selection_end := selection_end app;
     page_markers := page_markers app;
     marker_history := hist;
     status_label := status_label app |}.

Definition set_selection (s e : option (Z * Z)) (app : App) : App :=
  {| pdf_document := pdf_document app;
     current_page := current_page app;
     zoom_factor := zoom_factor app;
     column_markers := column_markers app;
     row_markers := row_markers app;
     selection_mode := selection_mode app;
     table_data := table_data app;
     selection_start := s;
     selection_end := e;
     page_markers := page_markers app;
     marker_history := marker_history app;
     status_label := status_label app |}.

Definition set_status (st : status_text) (app : App) : App :=
  {| pdf_document := pdf_document app;
     current_page := current_page app;
     zoom_factor := zoom_factor app;
     column_markers := column_markers app;
     row_markers := row_markers app;
     selection_mode := selection_mode app;
     table_data := table_data app;
     selection_start := selection_start app;
     selection_end := selection_end app;
     page_markers := page_markers app;
     marker_history := marker_history app;
     status_label := st |}.

Definition set_current_page (n : nat) (app : App) : App :=
  {| pdf_document := pdf_document app;
     current_page := n;
     zoom_factor := zoom_factor app;
     column_markers := column_markers app;
     row_markers := row_markers app;
     selection_mode := selection_mode app;
     table_data := table_data app;
     selection_start := selection_start app;
     selection_end := selection_end app;
     page_markers := page_markers app;
     marker_history := marker_history app;
     status_label := status_label app |}.

Definition set_table_data (t : list (list string)) (app : App) : App :=
  {| pdf_document := pdf_document app;
     current_page := current_page app;
     zoom_factor := zoom_factor app;
     column_markers := column_markers app;
     row_markers := row_markers app;
     selection_mode := selection_mode app;
     table_data := t;
     selection_start := selection_start app;
     selection_end := selection_end app;
     page_markers := page_markers app;
     marker_history := marker_history app;
     status_label := status_label app |}.

(** [pdf_document[i]]: [None] when it raises. *)
Definition load_page (app : App) (i : nat) : option page :=
  match pdf_document app with
  | Some pages => pages !! i
  | None => None
  end.

(** The spans of the text blocks of a text dictionary, in the order of
    the three nested loops over blocks, lines and spans. *)
Definition spans_of (blocks : list block) : list span :=
  concat (map (fun b =>
                 if bool_decide (block_type b = 0) then concat (lines b)
                 else [])
            blocks).

(** ** The working marker lists *)

Module Markers.

(** [_on_canvas_click(app, event)] of [gui/main_area.py].  [ex], [ey]
    are [canvas.canvasx(event.x)] and [canvas.canvasy(event.y)].  A zero
    [zoom_factor] makes the division raise before anything is written. *)
Definition _on_canvas_click (app : App) (ex ey : Q) : App :=
  match selection_mode app with
  | None => app
  | Some mode =>
      if no_document app then app
      else if bool_decide (zoom_factor app == 0)%Q then app
      else
        let x := py_int (ex / zoom_factor app) in
        let y := py_int (ey / zoom_factor app) in
        match mode with
        | mode_column =>
            if py_in (inject_Z x) (column_markers app) then app
            else
              set_markers
                (sorted (column_markers app ++ [inject_Z x]))
                (row_markers app)
                (marker_history app
                   ++ [{| type := column; value := inject_Z x |}])
                app
        | mode_row =>
            if py_in (inject_Z y) (row_markers app) then app
            else
              set_markers
                (column_markers app)
                (sorted (row_markers app ++ [inject_Z y]))
                (marker_history app
                   ++ [{| type := row; value := inject_Z y |}])
                app
        | mode_area => set_selection (Some (x, y)) (Some (x, y)) app
        end
  end.

(** [MarkerManager.undo_last_marker].  The entry is popped first; the
    removal is tried afterwards and a [ValueError] is caught. *)
Definition undo_last_marker (app : App) : App :=
  match last (marker_history app) with
  | None => set_status status_nothing_to_undo app
  | Some last_marker =>
      let popped := removelast (marker_history app) in
      match type last_marker with
      | column =>
          match py_remove (value last_marker) (column_markers app) with
          | Some cols =>
              set_status (status_removed_column (value last_marker))
                (set_markers cols (row_markers app) popped app)
          | None =>
              set_status status_could_not_remove
                (set_markers (column_markers app) (row_markers app)
                   popped app)
          end
      | row =>
          match py_remove (value last_marker) (row_markers app) with
          | Some rws =>
              set_status (status_removed_row (value last_marker))
                (set_markers (column_markers app) rws popped app)
          | None =>
              set_status status_could_not_remove
                (set_markers (column_markers app) (row_markers app)
                   popped app)
          end
      end
  end.

(** [MarkerManager.clear_lines] *)
Definition clear_lines (app : App) : App :=
  set_status status_all_lines_cleared
    (set_selection None None (set_markers [] [] [] app)).

End Markers.

(** ** Detected lines become markers ([image/area_processor.py]) *)

Module AreaProcessor.

(** The fields of an [AreaProcessor] once [process_selected_area] has
    stored its crop and zoom (lines 81 to 145 of the file).
    [processed_image] is the pixel width of the processed image, or
    [None] while no processed image is stored.  Before that point
    [image_scaling_factor] is still [None] and so is [processed_image]:
    [apply_detected_lines] then raises on [1.0 / None] before it writes
    anything, which is the [None] case of [self] further down. *)
Record t : Type := {
  processed_image : option Z;
  detected_vertical_lines : list Z;
  detected_horizontal_lines : list Z;
  original_selection : Z * Z * Z * Z;
  crop_x : Q;
  crop_y : Q;
  x1_cropped : Q;
  y1_cropped : Q;
  x2_cropped : Q;
  y2_cropped : Q;
  image_scaling_factor : Q
}.

(** Lines 215 to 229: document units per pixel.  [None] stands for the
    [ZeroDivisionError] of either division. *)
Definition scale_factor (self : t) : option Q :=
  match processed_image self with
  | Some img_width =>
      let doc_width := (x2_cropped self - x1_cropped self)%Q in
      if bool_decide (img_width = 0) then None
      else Some (doc_width / inject_Z img_width)%Q
  | None =>
      if bool_decide (image_scaling_factor self == 0)%Q then None
      else Some (1 / image_scaling_factor self)%Q
  end.

(** [int(origin + (rel * scale_factor))] *)
Definition to_pdf (origin : Q) (rel : Z) (scale : Q) : Z :=
  py_int (origin + inject_Z rel * scale)%Q.

(** [if v not in column_markers: append v, record it in the history] *)
Definition add_column (v : Q) (app : App) : App :=
  if py_in v (column_markers app) then app
  else set_markers (column_markers app ++ [v]) (row_markers app)
         (marker_history app ++ [{| type := column; value := v |}]) app.

Definition add_row (v : Q) (app : App) : App :=
  if py_in v (row_markers app) then app
  else set_markers (column_markers app) (row_markers app ++ [v])
         (marker_history app ++ [{| type := row; value := v |}]) app.

(** [apply_detected_lines].  [confirm_clear] is the answer to the
    "Clear existing markers" question.  Every exception of the body
    (unpacking an absent [selection_start], a division by zero) is
    raised before the first write and is caught at the end, so the
    application object is returned as it was. *)
Definition apply_detected_lines (self : option t) (confirm_clear : bool)
           (app : App) : App :=
  match self with
  | None => app
  | Some self =>
      match selection_start app with
      | None => app
      | Some _ =>
          match scale_factor self with
          | None => app
          | Some scale =>
              let app1 :=
                if confirm_clear then set_markers [] [] [] app else app in
              let '(x1, y1, x2, y2) := original_selection self in
              let app2 :=
                add_row (inject_Z y2)
                  (add_row (inject_Z y1)
                     (add_column (inject_Z x2)
                        (add_column (inject_Z x1) app1))) in
              let app3 :=
                fold_left
                  (fun a x_rel =>
                     add_column
                       (inject_Z (to_pdf (x1_cropped self) x_rel scale)) a)
                  (detected_vertical_lines self) app2 in
              let app4 :=
                fold_left
                  (fun a y_rel =>
                     add_row
                       (inject_Z (to_pdf (y1_cropped self) y_rel scale)) a)
                  (detected_horizontal_lines self) app3 in
              set_status
                (status_applied (length (detected_vertical_lines self))
                   (length (detected_horizontal_lines self)))
                (set_markers (sorted (column_markers app4))
                   (sorted (row_markers app4)) (marker_history app4) app4)
          end
      end
  end.

End AreaProcessor.

(** ** Python string operations used by the extractor and the corrector *)

Module PyStr.

Definition nl : ascii := ascii_of_nat 10.
Definition sp : ascii := ascii_of_nat 32.
Definition backslash : ascii := ascii_of_nat 92.

Definition code (c : ascii) : nat := nat_of_ascii c.

Definition between (lo hi : nat) (c : ascii) : bool :=
  Nat.leb lo (code c) && Nat.leb (code c) hi.

(** [c.isspace()], which is also the class [\s] of [re] on a [str]. *)
Definition isspace (c : ascii) : bool :=
  between 9 13 c || between 28 32 c
  || Nat.eqb (code c) 133 || Nat.eqb (code c) 160.

(** [c.isdigit()]: the decimal digits and the superscripts 1, 2, 3. *)
Definition isdigit_char (c : ascii) : bool :=
  between 48 57 c || Nat.eqb (code c) 178 || Nat.eqb (code c) 179
  || Nat.eqb (code c) 185.

(** The class [[a-zA-Z]] of [re]. *)
Definition is_letter (c : ascii) : bool :=
  between 65 90 c || between 97 122 c.

Fixpoint all_chars (p : ascii -> bool) (s : string) : bool :=
  match s with
  | EmptyString => true
  | String c s' => p c && all_chars p s'
  end.

(** [s.isdigit()]: every character is a digit and there is at least
    one. *)
Definition isdigit (s : string) : bool :=
  match s with
  | EmptyString => false
  | String _ _ => all_chars isdigit_char s
  end.

(** The truth value of a [str]: non-empty. *)
Definition truthy (s : string) : bool :=
  match s with
  | EmptyString => false
  | String _ _ => true
  end.

Fixpoint reverse_onto (s acc : string) : string :=
  match s with
  | EmptyString => acc
  | String c s' => reverse_onto s' (String c acc)
  end.

(** [s[::-1]] *)
Definition reverse (s : string) : string := reverse_onto s EmptyString.

Fixpoint lstrip (s : string) : string :=
  match s with
  | EmptyString => EmptyString
  | String c s' => if isspace c then lstrip s' else s
  end.

(** [s.strip()] *)
Definition strip (s : string) : string :=
  reverse (lstrip (reverse (lstrip s))).

(** ['\n' in s] *)
Fixpoint has_newline (s : string) : bool :=
  match s with
  | EmptyString => false
  | String c s' => Ascii.eqb c nl || has_newline s'
  end.

(** [s.split('\n')]: never empty. *)
Fixpoint split_lines (s : string) : list string :=
  match s with
  | EmptyString => [EmptyString]
  | String c s' =>
      if Ascii.eqb c nl then EmptyString :: split_lines s'
      else
        match split_lines s' with
        | first :: others => String c first :: others
        | [] => [String c EmptyString]
        end
  end.

(** [''.join(parts)] and [sep.join(parts)] *)
Definition join (parts : list string) : string :=
  String.concat EmptyString parts.

Definition join_with (sep : string) (parts : list string) : string :=
  String.concat sep parts.

(** [s.replace(' ', '')] *)
Fixpoint remove_spaces (s : string) : string :=
  match s with
  | EmptyString => EmptyString
  | String c s' =>
      if Ascii.eqb c sp then remove_spaces s' else String c (remove_spaces s')
  end.

(** [s.replace('\\n', '')]: every backslash followed by the letter n is
    dropped, scanning from the left. *)
Fixpoint remove_backslash_n (s : string) : string :=
  match s with
  | EmptyString => EmptyString
  | String c s' =>
      match s' with
      | String d s'' =>
          if Ascii.eqb c backslash && Ascii.eqb d (ascii_of_nat 110)
          then remove_backslash_n s''
          else String c (remove_backslash_n s')
      | EmptyString => String c EmptyString
      end
  end.

End PyStr.

(** ** Grid assignment and the multi-page pass ([core/table_extractor.py]) *)

Module TableExtractor.

(** The two values of [self.extraction_mode]. *)
Inductive extraction_mode_t : Type := space | newline.

(** The two values of [options['merge_mode']]. *)
Inductive merge_mode_t : Type := vertical | horizontal.

(** [min(l)] and [max(l)]; [None] on an empty list. *)
Definition py_min (l : list Q) : option Q :=
  match l with
  | [] => None
  | x :: l' =>
      Some (fold_left (fun m y => if bool_decide (y < m)%Q then y else m) l' x)
  end.

Definition py_max (l : list Q) : option Q :=
  match l with
  | [] => None
  | x :: l' =>
      Some (fold_left (fun m y => if bool_decide (m < y)%Q then y else m) l' x)
  end.

(** [len(bounds) - 1 if len(bounds) > 1 else 1] *)
Definition cell_count (bounds : list Q) : nat :=
  if Nat.ltb 1 (length bounds) then (length bounds - 1)%nat else 1%nat.

(** [[['' for _ in range(cols)] for _ in range(rows)]] *)
Definition empty_table (n_rows n_cols : nat) : list (list string) :=
  replicate n_rows (replicate n_cols EmptyString).

(** The search loops of lines 91 to 102: the first [i] with
    [bounds[i] <= c < bounds[i + 1]], counted from [i]; [None] is the
    index [-1] left when no interval matches. *)
Fixpoint find_index (bounds : list Q) (c : Q) (i : nat) : option nat :=
  match bounds with
  | lo :: rest =>
      match rest with
      | hi :: _ =>
          if bool_decide (lo <= c)%Q && bool_decide (c < hi)%Q then Some i
          else find_index rest c (S i)
      | [] => None
      end
  | [] => None
  end.

Definition center (s : span) : Q * Q :=
  let '(x0, y0, x1, y1) := bbox s in
  (x0 + (x1 - x0) / 2, y0 + (y1 - y0) / 2)%Q.

(** The cell after a fragment lands in it: appended behind the
    separator when the cell has content, stored as it is otherwise. *)
Definition add_text (sep txt cell : string) : string :=
  if PyStr.truthy cell then cell +:+ sep +:+ txt else txt.

Definition newline_sep : string := String PyStr.nl EmptyString.
Definition space_sep : string := String PyStr.sp EmptyString.

(** Lines 526 to 529 of [_extract_table_data]. *)
Definition separator (mode : extraction_mode_t) : string :=
  match mode with
  | space => space_sep
  | newline => newline_sep
  end.

(** The body of the span loop, lines 78 to 109 and again 497 to 531:
    the two copies differ in the separator only.  The guard on
    [col_idx] and [row_idx] keeps both indices inside the table, so the
    update never raises. *)
Section Assign.
Variables (min_x max_x min_y max_y : Q).
Variables (col_bounds row_bounds : list Q).
Variables (n_cols n_rows : nat).
Variable (sep : string).

Definition inside_table (cx cy : Q) : bool :=
  bool_decide (min_x <= cx)%Q && bool_decide (cx <= max_x)%Q
  && bool_decide (min_y <= cy)%Q && bool_decide (cy <= max_y)%Q.

Definition assign_span (table : list (list string)) (s : span)
  : list (list string) :=
  let '(center_x, center_y) := center s in
  if negb (inside_table center_x center_y) then table
  else
    match find_index col_bounds center_x 0,
          find_index row_bounds center_y 0 with
    | Some col_idx, Some row_idx =>
        if Nat.ltb col_idx n_cols && Nat.ltb row_idx n_rows
        then alter (alter (add_text sep (text s)) col_idx) row_idx table
        else table
    | _, _ => table
    end.
End Assign.


(** The span loop body under the frame that lines 46 to 62 (and 469 to
    484) derive from the working markers and the page. *)
Definition assign_fragment (sep : string) (cols_m rows_m : list Q)
           (pg : page) (table : list (list string)) (s : span)
  : list (list string) :=
  let min_x := default 0%Q (py_min cols_m) in
  let max_x := default (rect_width pg) (py_max cols_m) in
  let min_y := default 0%Q (py_min rows_m) in
  let max_y := default (rect_height pg) (py_max rows_m) in
  let col_bounds := sorted cols_m in
  let row_bounds := sorted rows_m in
  assign_span min_x max_x min_y max_y col_bounds row_bounds
    (cell_count col_bounds) (cell_count row_bounds) sep table s.

(** Lines 46 to 109 and 469 to 531: the grid of one page from the
    working markers. *)
Definition build_table (sep : string) (cols_m rows_m : list Q) (pg : page)
           (blocks : list block) : list (list string) :=
  fold_left (assign_fragment sep cols_m rows_m pg) (spans_of blocks)
    (empty_table (cell_count (sorted rows_m)) (cell_count (sorted cols_m))).

(** A line that strips to one or two characters. *)
Definition short_line (line : string) : bool :=
  let n := String.length (PyStr.strip line) in
  Nat.leb n 2 && Nat.ltb 0 n.

(** [_detect_orientation_issues(table)].  The two float tests are
    [len(short_lines) > len(lines) * 0.5] and
    [vertical_text_count / len(all_text) >= 0.2]. *)
Definition _detect_orientation_issues (table : list (list string)) : bool :=
  let all_text := filter (fun cell => PyStr.truthy cell = true) (concat table) in
  match all_text with
  | [] => false
  | _ :: _ =>
      let stacked cell :=
        PyStr.has_newline cell
        && (let lines := PyStr.split_lines cell in
            let short_lines := filter (fun l => short_line l = true) lines in
            Nat.leb 3 (length lines)
            && Nat.ltb (length lines) (2 * length short_lines)) in
      let vertical_text_count :=
        length (filter (fun cell => stacked cell = true) all_text) in
      Nat.ltb 0 vertical_text_count
      && Nat.leb (length all_text) (5 * vertical_text_count)
  end.

(** One cell of [_correct_text_orientation]. *)
Definition correct_cell (cell : string) : string :=
  if negb (PyStr.truthy cell) || Nat.ltb (String.length (PyStr.strip cell)) 3
  then cell
  else if PyStr.has_newline cell then
    let lines :=
      filter (fun l => PyStr.truthy l = true)
        (map PyStr.strip (PyStr.split_lines cell)) in
    if Nat.ltb (length lines) 2 then cell
    else PyStr.remove_backslash_n (PyStr.join (map PyStr.reverse (rev lines)))
  else cell.

(** [_correct_text_orientation(table)], called on the list that is also
    [app.table_data]: each cell is rewritten in place. *)
Definition _correct_text_orientation (app : App) : App :=
  set_table_data (map (map correct_cell) (table_data app)) app.

(** [extract_table].  [mode] is the choice made in the extraction-mode
    dialog and [answer_yes] the answer to the orientation question.  The
    first guard and both exceptions (a page that cannot be loaded, a
    text dictionary that cannot be read) leave the application as it
    was. *)
Definition extract_table (mode : extraction_mode_t) (answer_yes : bool)
           (app : App) : App :=
  if no_document app
     || bool_decide (column_markers app = [])
     || bool_decide (row_markers app = [])
  then app
  else
    match load_page app (current_page app) with
    | None => app
    | Some pg =>
        match get_text pg with
        | None => app
        | Some blocks =>
            let table :=
              build_table newline_sep (column_markers app)
                (row_markers app) pg blocks in
            let n_cols := cell_count (sorted (column_markers app)) in
            let n_rows := cell_count (sorted (row_markers app)) in
            let app1 :=
              set_status (status_extracted n_rows n_cols)
                (set_table_data table app) in
            if _detect_orientation_issues table && answer_yes
            then set_status (status_extracted_corrected n_rows n_cols)
                   (_correct_text_orientation app1)
            else app1
        end
    end.

(** [_extract_table_data(page_index)] under the mode stored by the
    dialog; [None] is the [None] returned from the [except] branch. *)
Definition _extract_table_data (mode : extraction_mode_t) (app : App)
           (page_index : nat) : option (list (list string)) :=
  match load_page app page_index with
  | None => None
  | Some pg =>
      match get_text pg with
      | None => None
      | Some blocks =>
          Some (build_table (separator mode) (column_markers app)
                  (row_markers app) pg blocks)
      end
  end.

(** The part of [PdfHandler.update_page_display] that touches the
    application state: the page is loaded (which raises when it is not
    in the document, [None] here) and the working markers are replaced
    by the ones saved for the page, or emptied. *)
Definition update_page_display (app : App) : option App :=
  if no_document app then Some app
  else
    match load_page app (current_page app) with
    | None => None
    | Some _ =>
        match page_markers app !! current_page app with
        | Some d =>
            Some (set_markers (columns d) (rows d) (marker_history app) app)
        | None => Some (set_markers [] [] (marker_history app) app)
        end
    end.

(** [merge_tables_vertically] *)
Definition merge_tables_vertically (tables : list (list (list string)))
  : list (list string) := concat tables.

(** [max(len(x) for x in l)], with 0 for the empty list where the
    source guards it. *)
Definition max_len {A : Type} (l : list (list A)) : nat :=
  foldr Nat.max 0%nat (map length l).

(** [row + [''] * (cols - len(row))] *)
Definition pad_row (n_cols : nat) (r : list string) : list string :=
  r ++ replicate (n_cols - length r) EmptyString.

Definition pad_table (max_rows : nat) (table : list (list string))
  : list (list string) :=
  let n_cols := max_len table in
  map (pad_row n_cols) table
  ++ replicate (max_rows - length table) (replicate n_cols EmptyString).

(** [merge_tables_horizontally] *)
Definition merge_tables_horizontally (tables : list (list (list string)))
  : list (list string) :=
  match tables with
  | [] => []
  | _ :: _ =>
      let max_rows := max_len tables in
      let padded_tables := map (pad_table max_rows) tables in
      map (fun row_idx =>
             concat (omap (fun table => table !! row_idx) padded_tables))
        (seq 0 max_rows)
  end.

(** Lines 423 to 425: the rows are padded to [max_cols] and zipped
    together, which yields one row per column index. *)
Definition transpose (merged_table : list (list string))
  : list (list string) :=
  let max_cols := max_len merged_table in
  let padded_table := map (pad_row max_cols) merged_table in
  map (fun j => omap (fun r => r !! j) padded_table) (seq 0 max_cols).

(** [sorted(self.app.page_markers.keys())] *)
Definition marked_pages (app : App) : list nat :=
  merge_sort Nat.le (elements (dom (page_markers app))).

(** The loop of lines 383 to 405.  [None]: an exception left the
    loop. *)
Fixpoint extract_pages (mode : extraction_mode_t) (pages : list nat)
         (app : App) (all_tables : list (list (list string)))
  : option (App * list (list (list string))) :=
  match pages with
  | [] => Some (app, all_tables)
  | page_idx :: rest =>
      match page_markers app !! page_idx with
      | None => None
      | Some page_marker_data =>
          let app1 :=
            set_current_page page_idx
              (set_markers (columns page_marker_data)
                 (rows page_marker_data) (marker_history app) app) in
          match update_page_display app1 with
          | None => None
          | Some app2 =>
              let page_table := _extract_table_data mode app2 page_idx in
              let all_tables' :=
                match page_table with
                | Some (r :: t) => all_tables ++ [r :: t]
                | _ => all_tables
                end in
              extract_pages mode rest app2 all_tables'
          end
      end
  end.

(** How a run of [extract_from_marked_pages] ends.  [run_extracted]
    carries the list handed to the merge step and the merged table. *)
Inductive run_outcome : Type :=
| run_no_pdf
| run_no_marked_pages
| run_cancelled
| run_failed
| run_no_tables
| run_extracted (all_tables : list (list (list string)))
                (merged_table : list (list string)).

(** The [finally] block: page and working markers are put back and the
    page is displayed again. *)
Definition restore (original : App) (app : App) : App :=
  let app1 :=
    set_current_page (current_page original)
      (set_markers (column_markers original) (row_markers original)
         (marker_history app) app) in
  default app1 (update_page_display app1).

(** [extract_from_marked_pages].  [mode] is the choice of the
    extraction-mode dialog; [options] is the result of the options
    dialog ([None] when cancelled). *)
Definition extract_from_marked_pages (mode : extraction_mode_t)
           (options : option (merge_mode_t * bool)) (app : App)
  : App * run_outcome :=
  if no_document app then (app, run_no_pdf)
  else if bool_decide (page_markers app = ∅) then (app, run_no_marked_pages)
  else
    match options with
    | None => (app, run_cancelled)
    | Some (merge_mode, do_transpose) =>
        match extract_pages mode (marked_pages app) app [] with
        | None => (restore app app, run_failed)
        | Some (app', all_tables) =>
            match all_tables with
            | [] => (restore app app', run_no_tables)
            | _ :: _ =>
                let merged_table :=
                  match merge_mode with
                  | vertical => merge_tables_vertically all_tables
                  | horizontal => merge_tables_horizontally all_tables
                  end in
                match merged_table with
                | [] =>
                    if do_transpose then (restore app app', run_failed)
                    else
                      (restore app
                         (set_status
                            (status_extracted_pages 0 0 (marked_pages app))
                            (set_table_data [] app')),
                       run_extracted all_tables [])
                | _ :: _ =>
                    let final :=
                      if do_transpose then transpose merged_table
                      else merged_table in
                    (restore app
                       (set_status
                          (status_extracted_pages (length final)
                             (max_len final) (marked_pages app))
                          (set_table_data final app')),
                     run_extracted all_tables final)
                end
            end
        end
    end.

End TableExtractor.

(** ** Orientation analysis and correction
       ([core/text_orientation_corrector.py]) *)

Module Orientation.

(** The values of [correction_type]. *)
Inductive correction_type_t : Type := vertical | rtl | flipped.

(** The fields of a [TextOrientationCorrector]. *)
Record t : Type := {
  original_table_data : option (list (list string));
  corrected_table_data : option (list (list string))
}.

(** [' '.join([''.join([cell for cell in row if cell]) for row in
    table_data])] *)
Definition all_text_of (table : list (list string)) : string :=
  PyStr.join_with (String PyStr.sp EmptyString)
    (map (fun r => PyStr.join (filter (fun cell => PyStr.truthy cell = true) r))
       table).

(** How many groups [\s[a-zA-Z]\s] stand one after the other at the
    start of [s]. *)
Fixpoint leading_groups (s : string) : nat :=
  match s with
  | String a (String b (String c rest)) =>
      if PyStr.isspace a && PyStr.is_letter b && PyStr.isspace c
      then S (leading_groups rest)
      else 0%nat
  | _ => 0%nat
  end.

(** [len(re.findall(r'(?:\s[a-zA-Z]\s){3,}', s))]: the matches are
    taken left to right without overlap, each as long as possible;
    [skip] characters of the last match are still to be passed. *)
Fixpoint count_single_char_runs (skip : nat) (s : string) : nat :=
  match s with
  | EmptyString => 0%nat
  | String _ s' =>
      match skip with
      | S k => count_single_char_runs k s'
      | O =>
          let k := leading_groups s in
          if Nat.leb 3 k then S (count_single_char_runs (3 * k - 1) s')
          else count_single_char_runs 0 s'
      end
  end.

(** [s.count(word)] for a non-empty [word]. *)
Fixpoint count_word (word : string) (skip : nat) (s : string) : nat :=
  match s with
  | EmptyString => 0%nat
  | String _ s' =>
      match skip with
      | S k => count_word word k s'
      | O =>
          if String.prefix word s
          then S (count_word word (String.length word - 1) s')
          else count_word word 0 s'
      end
  end.

Definition common_reversed : list string :=
  ["eht"; "dna"; "rof"; "era"; "elbaT"; "egaP"; "txeT"; "ataD"]%string.

(** [len(re.findall(r'[a-zA-Z]\n[a-zA-Z]', s))] *)
Fixpoint count_newline_in_word (skip : nat) (s : string) : nat :=
  match s with
  | EmptyString => 0%nat
  | String a s' =>
      match skip with
      | S k => count_newline_in_word k s'
      | O =>
          match s' with
          | String b (String c _) =>
              if PyStr.is_letter a && Ascii.eqb b PyStr.nl && PyStr.is_letter c
              then S (count_newline_in_word 2 s')
              else count_newline_in_word 0 s'
          | _ => count_newline_in_word 0 s'
          end
      end
  end.

(** [char_count.get(letter, 0)] over [all_text.lower()]: among the code
    points below 256 only the letter and its capital lower to it. *)
Fixpoint char_count (lower upper : nat) (s : string) : nat :=
  match s with
  | EmptyString => 0%nat
  | String c s' =>
      (if Nat.eqb (PyStr.code c) lower || Nat.eqb (PyStr.code c) upper
       then 1 else 0)%nat + char_count lower upper s'
  end.

(** [detect_text_orientation_from_pdf].  A span without [dir] counts
    with the default [(0, 0)].  The two float tests are
    [vertical_spans / total_spans > 0.3] and
    [rtl_spans / total_spans > 0.3]. *)
Definition detect_text_orientation_from_pdf (app : App)
  : bool * option correction_type_t :=
  if no_document app then (false, None)
  else
    match load_page app (current_page app) with
    | None => (false, None)
    | Some pg =>
        match get_text pg with
        | None => (false, None)
        | Some blocks =>
            let spans := spans_of blocks in
            let total_spans := length spans in
            let dir_of s := default (0%Q, 0%Q) (dir s) in
            let rtl_spans :=
              length (filter (fun s => (fst (dir_of s) < 0)%Q) spans) in
            let tall s :=
              let '(x0, y0, x1, y1) := bbox s in
              bool_decide ((x1 - x0) * 3 < y1 - y0)%Q
              && bool_decide (20 < y1 - y0)%Q in
            let vertical_spans :=
              (length (filter (fun s => (snd (dir_of s) < 0)%Q) spans)
               + length (filter (fun s => tall s = true) spans))%nat in
            if Nat.ltb 0 total_spans then
              if Nat.ltb (3 * total_spans) (10 * vertical_spans)
              then (true, Some vertical)
              else if Nat.ltb (3 * total_spans) (10 * rtl_spans)
                   then (true, Some rtl)
                   else (false, None)
            else (false, None)
        end
    end.

(** The score [vertical_indicators] of lines 92 to 125, for the text
    [all_text] and the verdict [pdf] of the geometry check. *)
Definition vertical_indicators (all_text : string)
           (pdf : bool * option correction_type_t) : nat :=
  (count_single_char_runs 0 all_text * 2
   + foldr (fun word acc => count_word word 0 all_text * 3 + acc) 0
       common_reversed
   + (if Nat.ltb (3 * char_count 101 69 all_text)
                 (2 * char_count 110 78 all_text)
      then 5 else 0)
   + count_newline_in_word 0 all_text
   + match pdf with
     | (true, Some vertical) => 10
     | _ => 0
     end)%nat.

(** [_analyze_text_orientation] *)
Definition _analyze_text_orientation (app : App)
  : bool * option correction_type_t :=
  let all_text := all_text_of (table_data app) in
  if Nat.ltb (String.length all_text) 20 then (false, None)
  else if Nat.leb 5
            (vertical_indicators all_text
               (detect_text_orientation_from_pdf app))
       then (true, Some vertical)
       else (false, None).

(** A line that strips to one or two characters. *)
Definition short_line (line : string) : bool :=
  let n := String.length (PyStr.strip line) in
  Nat.leb n 2 && Nat.ltb 0 n.

(** [re.match(r'([a-zA-Z] ){2,}[a-zA-Z]', cell)]: the pattern is
    anchored at the start, and it matches exactly when the cell starts
    with letter, space, letter, space, letter. *)
Definition spaced_letters (cell : string) : bool :=
  match cell with
  | String a (String b (String c (String d (String e _)))) =>
      PyStr.is_letter a && Ascii.eqb b PyStr.sp && PyStr.is_letter c
      && Ascii.eqb d PyStr.sp && PyStr.is_letter e
  | _ => false
  end.

(** One cell of [_correct_vertical_text], lines 141 to 173.  The float
    test is [len(short_lines) > len(lines) * 0.6]. *)
Definition correct_vertical_cell (cell : string) : string :=
  if negb (PyStr.truthy cell) then cell
  else if Nat.ltb (String.length cell) 3 || PyStr.isdigit cell then cell
  else
    let lines := PyStr.split_lines cell in
    let short_lines := filter (fun l => short_line l = true) lines in
    if Nat.leb 3 (length lines)
       && Nat.ltb (3 * length lines) (5 * length short_lines)
    then
      let corrected_text :=
        PyStr.join
          (filter (fun l => PyStr.truthy l = true)
             (map PyStr.strip (rev lines))) in
      if Nat.leb 3 (String.length corrected_text) then corrected_text
      else cell
    else if negb (PyStr.has_newline cell) && Nat.leb 3 (String.length cell)
    then
      if spaced_letters cell then PyStr.reverse (PyStr.remove_spaces cell)
      else cell
    else cell.

(** One cell of [_correct_rtl_text]. *)
Definition correct_rtl_cell (cell : string) : string :=
  if negb (PyStr.truthy cell) || Nat.ltb (String.length cell) 2 then cell
  else PyStr.reverse cell.

(** One cell of [_correct_flipped_text]. *)
Definition correct_flipped_cell (cell : string) : string :=
  if negb (PyStr.truthy cell) || Nat.ltb (String.length cell) 2 then cell
  else
    PyStr.join_with (String PyStr.nl EmptyString)
      (map PyStr.reverse (rev (PyStr.split_lines cell))).

(** The three corrections walk the table with [enumerate] and write
    each corrected cell back at its own position. *)
Definition correct_with (f : string -> string) (self : t) (app : App)
  : t * App :=
  let table := map (map f) (table_data app) in
  ({| original_table_data := original_table_data self;
      corrected_table_data := Some table |},
   set_table_data table app).

Definition _correct_vertical_text : t -> App -> t * App :=
  correct_with correct_vertical_cell.

Definition _correct_rtl_text : t -> App -> t * App :=
  correct_with correct_rtl_cell.

Definition _correct_flipped_text : t -> App -> t * App :=
  correct_with correct_flipped_cell.

(** The states of the orientation state machine, as
    [correct_text_orientation] passes through them. *)
Inductive outcome : Type :=
| no_table_data
| no_issue
| corrected (kind : option correction_type_t).

(** [correct_text_orientation] *)
Definition correct_text_orientation (self : t) (app : App)
  : t * App * outcome :=
  match table_data app with
  | [] => (self, app, no_table_data)
  | _ :: _ =>
      let self1 :=
        {| original_table_data := Some (table_data app);
           corrected_table_data := corrected_table_data self |} in
      match _analyze_text_orientation app with
      | (true, Some kind) =>
          let '(self2, app2) :=
            match kind with
            | vertical => _correct_vertical_text self1 app
            | rtl => _correct_rtl_text self1 app
            | flipped => _correct_flipped_text self1 app
            end in
          (self2, set_status status_orientation_corrected app2,
           corrected (Some kind))
      | (true, None) =>
          (self1, set_status status_orientation_corrected app,
           corrected None)
      | (false, _) => (self1, app, no_issue)
      end
  end.

End Orientation.

(** ** States of the application used in the statements *)

(** The application object as [PDFTableExtractorApp.__init__] leaves
    it. *)
Definition initial_app : App :=
  {| pdf_document := None;
     current_page := 0;
     zoom_factor := 1;
     column_markers := [];
     row_markers := [];
     selection_mode := None;
     table_data := [];
     selection_start := None;
     selection_end := None;
     page_markers := ∅;
     marker_history := [];
     status_label := status_ready |}.

(** The states reached from empty marker lists by the four marker
    operations.  [reach_other] stands for everything else the user does
    in between (opening a document, choosing a tool, zooming, dragging a
    selection): it may change any field except the two marker lists. *)
Inductive reachable : App -> Prop :=
| reach_start (app : App) :
    column_markers app = [] -> row_markers app = [] -> reachable app
| reach_click (app : App) (ex ey : Q) :
    reachable app -> reachable (Markers._on_canvas_click app ex ey)
| reach_apply (app : App) (self : option AreaProcessor.t) (confirm : bool) :
    reachable app ->
    reachable (AreaProcessor.apply_detected_lines self confirm app)
| reach_undo (app : App) :
    reachable app -> reachable (Markers.undo_last_marker app)
| reach_clear (app : App) :
    reachable app -> reachable (Markers.clear_lines app)
| reach_other (app app' : App) :
    reachable app ->
    column_markers app' = column_markers app ->
    row_markers app' = row_markers app ->
    reachable app'.

(** The marker list that belongs to a history entry. *)
Definition markers_of (ty : marker_type) (app : App) : list Q :=
  match ty with
  | column => column_markers app
  | row => row_markers app
  end.

(** A document is open and the column tool is selected. *)
Definition column_tool_app : App :=
  {| pdf_document := Some [{| rect_width := 612; rect_height := 792;
                              get_text := Some [] |}];
     current_page := 0;
     zoom_factor := 1;
     column_markers := [];
     row_markers := [];
     selection_mode := Some mode_column;
     table_data := [];
     selection_start := None;
     selection_end := None;
     page_markers := ∅;
     marker_history := [];
     status_label := status_ready |}.

(** A column marker was set at 5 and the working lists were emptied
    afterwards by a page change, which keeps the history. *)
Definition stale_history_app : App :=
  set_markers [] [] [{| type := column; value := 5 |}] column_tool_app.

(** A selection from (10, 20) to (110, 220) processed at zoom 8: the
    crop is 3 on each side, the cropped region starts at (13, 23) and is
    94 wide, and the processed image is 752 pixels wide, so one pixel is
    1/8 of a document unit.  Two vertical lines were detected, at pixels
    1 and 400, and one horizontal line, at pixel 100. *)
Definition sample_processor : AreaProcessor.t :=
  {| AreaProcessor.processed_image := Some 752;
     AreaProcessor.detected_vertical_lines := [1; 400];
     AreaProcessor.detected_horizontal_lines := [100];
     AreaProcessor.original_selection := (10, 20, 110, 220);
     AreaProcessor.crop_x := 3;
     AreaProcessor.crop_y := 3;
     AreaProcessor.x1_cropped := 13;
     AreaProcessor.y1_cropped := 23;
     AreaProcessor.x2_cropped := 107;
     AreaProcessor.y2_cropped := 217;
     AreaProcessor.image_scaling_factor := 8 |}.

Definition selection_app : App :=
  set_selection (Some (10, 20)) (Some (110, 220)) column_tool_app.

(** The grid of a marked page under the markers saved for it: what
    [_extract_table_data] returns once the loop of
    [extract_from_marked_pages] has loaded the page's markers. *)
Definition page_grid (mode : TableExtractor.extraction_mode_t) (app : App)
           (page_idx : nat) : option (list (list string)) :=
  match page_markers app !! page_idx with
  | Some d =>
      TableExtractor._extract_table_data mode
        (set_markers (columns d) (rows d) (marker_history app) app) page_idx
  | None => None
  end.

(** Two application states with the same document and the same saved
    page markers. *)
Definition same_document (app app' : App) : Prop :=
  pdf_document app' = pdf_document app
  /\ page_markers app' = page_markers app.

(** A span with a given text and bounding box and no [dir]. *)
Definition plain_span (txt : string) (x0 y0 x1 y1 : Q) : span :=
  {| text := txt; bbox := (x0, y0, x1, y1); dir := None |}.

(** A page with two fragments, "a" centred at (15, 15) and "b" centred at
    (35, 35). *)
Definition two_fragment_page : page :=
  {| rect_width := 612; rect_height := 792;
     get_text :=
       Some [{| block_type := 0;
                lines := [[plain_span "a" 10 10 20 20;
                           plain_span "b" 30 30 40 40]] |}] |}.

(** A page whose text dictionary cannot be read. *)
Definition unreadable_page : page :=
  {| rect_width := 612; rect_height := 792; get_text := None |}.

(** One page, one cell from 0 to 100 on both axes. *)
Definition two_fragment_app : App :=
  {| pdf_document := Some [two_fragment_page];
     current_page := 0;
     zoom_factor := 1;
     column_markers := [0%Q; 100%Q];
     row_markers := [0%Q; 100%Q];
     selection_mode := None;
     table_data := [];
     selection_start := None;
     selection_end := None;
     page_markers := ∅;
     marker_history := [];
     status_label := status_ready |}.

(** Two pages, both marked with the same single cell; the second page
    cannot be read. *)
Definition two_marked_pages_app : App :=
  {| pdf_document := Some [two_fragment_page; unreadable_page];
     current_page := 0;
     zoom_factor := 1;
     column_markers := [0%Q; 100%Q];
     row_markers := [0%Q; 100%Q];
     selection_mode := None;
     table_data := [];
     selection_start := None;
     selection_end := None;
     page_markers :=
       <[0%nat := {| columns := [0%Q; 100%Q]; rows := [0%Q; 100%Q] |}]>
         (<[1%nat := {| columns := [0%Q; 100%Q]; rows := [0%Q; 100%Q] |}]> ∅);
     marker_history := [];
     status_label := status_ready |}.

(** The letters of "Table" stacked bottom to top, one per line:
    ["e\nl\nb\na\nT"]. *)
Definition stacked_table_cell : string :=
  PyStr.join_with (String PyStr.nl EmptyString) ["e"; "l"; "b"; "a"; "T"]%string.

(** A corrector before its first run. *)
Definition fresh_corrector : Orientation.t :=
  {| Orientation.original_table_data := None;
     Orientation.corrected_table_data := None |}.

(** A page whose four spans all run right to left, under a grid that
    holds reversed text. *)
Definition rtl_span (txt : string) (y : Q) : span :=
  {| text := txt; bbox := (10, y, 200, y + 12)%Q; dir := Some ((-1)%Q, 0%Q) |}.

Definition rtl_app : App :=
  {| pdf_document :=
       Some [{| rect_width := 612; rect_height := 792;
                get_text :=
                  Some [{| block_type := 0;
                           lines := [[rtl_span "dlrow olleh" 10;
                                      rtl_span "txet desrever si siht" 30];
                                     [rtl_span "enil driht" 50;
                                      rtl_span "enil htruof" 70]] |}] |}];
     current_page := 0;
     zoom_factor := 1;
     column_markers := [0%Q; 300%Q];
     row_markers := [0%Q; 25%Q; 45%Q; 65%Q; 100%Q];
     selection_mode := None;
     table_data := [["dlrow olleh"]; ["txet desrever si siht"];
                    ["enil driht"]; ["enil htruof"]]%string;
     selection_start := None;
     selection_end := None;
     page_markers := ∅;
     marker_history := [];
     status_label := status_ready |}.

(** The cell at row [r], column [c] of a table. *)
Definition cell_at (table : list (list string)) (r c : nat) : option string :=
  match table !! r with
  | Some cells => cells !! c
  | None => None
  end.

(** * Further parts of the program *)

(** ** Notions used by the further properties *)

(** How many members of [l] are equal to [x] under [==]. *)
Definition occurrences (x : Q) (l : list Q) : nat :=
  length (filter (fun y => (y == x)%Q) l).

(** Two states with the same marker lists and the same history. *)
Definition same_markers (a b : App) : Prop :=
  column_markers a = column_markers b
  /\ row_markers a = row_markers b
  /\ marker_history a = marker_history b.

(** The values of the column entries and of the row entries of a
    piece of history, oldest first. *)
Definition column_values (hs : list history_entry) : list Q :=
  omap (fun e => match type e with
                 | column => Some (value e)
                 | row => None
                 end) hs.

Definition row_values (hs : list history_entry) : list Q :=
  omap (fun e => match type e with
                 | row => Some (value e)
                 | column => None
                 end) hs.

(** [tracked b x hs]: since [b], the history has grown by [hs] and the
    two marker lists by the values that [hs] records, in that order; this
    is how [add_column] and [add_row] keep lists and history together. *)
Definition tracked (b x : App) (hs : list history_entry) : Prop :=
  marker_history x = marker_history b ++ hs
  /\ column_markers x = column_markers b ++ column_values hs
  /\ row_markers x = row_markers b ++ row_values hs.

(** [added_from a b n]: [b] is reached from [a] by canvas clicks and by
    applying detected lines without clearing, which together have
    recorded [n] history entries.  [added_other] stands for what the user
    does in between that leaves markers and history alone. *)
Inductive added_from (a : App) : App -> nat -> Prop :=
| added_start (b : App) : same_markers a b -> added_from a b 0
| added_click (b : App) (ex ey : Q) (n : nat) :
    added_from a b n ->
    added_from a (Markers._on_canvas_click b ex ey)
      (n + (length (marker_history (Markers._on_canvas_click b ex ey))
            - length (marker_history b)))
| added_detected (b : App) (self : option AreaProcessor.t) (n : nat) :
    added_from a b n ->
    added_from a (AreaProcessor.apply_detected_lines self false b)
      (n + (length (marker_history
                      (AreaProcessor.apply_detected_lines self false b))
            - length (marker_history b)))
| added_other (b b' : App) (n : nat) :
    added_from a b n -> same_markers b b' -> added_from a b' n.


(** ** Further operations of the application *)

(** The texts that the operations below show to the user, in the status
    bar or in a message box.  These operations return the text next to
    the new state; the [status_label] field of the state they return is
    left as it was. *)
Inductive message : Type :=
| msg_none
| msg_load_pdf_first
| msg_set_markers_first
| msg_markers_saved (page_number total : nat)
| msg_markers_updated (page_number total : nat)
| msg_no_page_markers
| msg_page_markers_cleared
| msg_mode_column
| msg_mode_row
| msg_mode_area
| msg_area_selected (width height : Z)
| msg_no_table_to_transpose
| msg_cannot_transpose_empty
| msg_transposed (n_cols n_rows : nat)
| msg_no_table_to_correct
| msg_forced_correction
| msg_no_original
| msg_restored
| msg_manual_deactivated_stored.

Definition set_page_markers (pm : gmap nat page_marker_data) (app : App)
  : App :=
  {| pdf_document := pdf_document app;
     current_page := current_page app;
     zoom_factor := zoom_factor app;
     column_markers := column_markers app;
     row_markers := row_markers app;
     selection_mode := selection_mode app;
     table_data := table_data app;
     selection_start := selection_start app;
     selection_end := selection_end app;
     page_markers := pm;
     marker_history := marker_history app;
     status_label := status_label app |}.

Definition set_zoom_factor (z : Q) (app : App) : App :=
  {| pdf_document := pdf_document app;
     current_page := current_page app;
     zoom_factor := z;
     column_markers := column_markers app;
     row_markers := row_markers app;
     selection_mode := selection_mode app;
     table_data := table_data app;
     selection_start := selection_start app;
     selection_end := selection_end app;
     page_markers := page_markers app;
     marker_history := marker_history app;
     status_label := status_label app |}.

Definition set_selection_mode_field (m : option selection_mode_t) (app : App)
  : App :=
  {| pdf_document := pdf_document app;
     current_page := current_page app;
     zoom_factor := zoom_factor app;
     column_markers := column_markers app;
     row_markers := row_markers app;
     selection_mode := m;
     table_data := table_data app;
     selection_start := selection_start app;
     selection_end := selection_end app;
     page_markers := page_markers app;
     marker_history := marker_history app;
     status_label := status_label app |}.

(** ** Saved page markers ([core/marker_manager.py]) *)

Module PageMarkers.

(** [MarkerManager.save_page_markers]: the record holds copies of the
    two working lists. *)
Definition save_page_markers (app : App) : App * message :=
  if no_document app then (app, msg_load_pdf_first)
  else if bool_decide (column_markers app = [])
          || bool_decide (row_markers app = [])
  then (app, msg_set_markers_first)
  else
    let updating := bool_decide (is_Some (page_markers app !! current_page app)) in
    let pm :=
      <[current_page app :=
          {| columns := column_markers app; rows := row_markers app |}]>
        (page_markers app) in
    (set_page_markers pm app,
     if updating then msg_markers_updated (current_page app + 1) (size pm)
     else msg_markers_saved (current_page app + 1) (size pm)).

(** [MarkerManager.clear_page_markers]; [confirm] is the answer to the
    question. *)
Definition clear_page_markers (confirm : bool) (app : App) : App * message :=
  if bool_decide (page_markers app = ∅) then (app, msg_no_page_markers)
  else if confirm then (set_page_markers ∅ app, msg_page_markers_cleared)
  else (app, msg_none).

(** [MarkerManager.load_markers_for_current_page] *)
Definition load_markers_for_current_page (app : App) : App :=
  match page_markers app !! current_page app with
  | Some d => set_markers (columns d) (rows d) (marker_history app) app
  | None => set_markers [] [] (marker_history app) app
  end.

(** [MarkerManager.reset_markers] *)
Definition reset_markers (app : App) : App :=
  set_page_markers ∅ (set_selection None None (set_markers [] [] [] app)).

(** [MarkerManager.highlight_table_area]: the pair (rows, columns) shown
    in the green "Table: RxC" text; [None] when nothing is drawn because
    no document is open. *)
Definition highlight_table_area (min_x min_y max_x max_y : Q) (app : App)
  : option (nat * nat) :=
  if no_document app then None
  else
    let col_count :=
      (length (filter (fun m => (min_x < m)%Q /\ (m < max_x)%Q)
                 (column_markers app)) + 1)%nat in
    let row_count :=
      (length (filter (fun m => (min_y < m)%Q /\ (m < max_y)%Q)
                 (row_markers app)) + 1)%nat in
    Some (row_count, col_count).

(** The table text drawn by [MarkerManager.redraw_markers], lines 70 to
    76: it is drawn when both lists hold at least two markers. *)
Definition redraw_markers (app : App) : option (nat * nat) :=
  if no_document app then None
  else if Nat.leb 2 (length (column_markers app))
          && Nat.leb 2 (length (row_markers app))
  then
    highlight_table_area
      (default 0%Q (TableExtractor.py_min (column_markers app)))
      (default 0%Q (TableExtractor.py_min (row_markers app)))
      (default 0%Q (TableExtractor.py_max (column_markers app)))
      (default 0%Q (TableExtractor.py_max (row_markers app))) app
  else None.

End PageMarkers.

(** ** Tool choice and area selection ([gui/app.py], [gui/main_area.py]) *)

Module Selection.

(** [PDFTableExtractorApp.set_selection_mode] for the three tools of the
    toolbar. *)
Definition set_selection_mode (mode : selection_mode_t) (app : App)
  : App * message :=
  let app1 := set_selection_mode_field (Some mode) app in
  match mode with
  | mode_column => (app1, msg_mode_column)
  | mode_row => (app1, msg_mode_row)
  | mode_area => (set_selection None None app1, msg_mode_area)
  end.

(** [_on_canvas_drag]; [ex], [ey] are the canvas coordinates of the
    pointer.  A zero [zoom_factor] raises before anything is written. *)
Definition _on_canvas_drag (app : App) (ex ey : Q) : App :=
  match selection_mode app, selection_start app with
  | Some mode_area, Some _ =>
      if bool_decide (zoom_factor app == 0)%Q then app
      else
        set_selection (selection_start app)
          (Some (py_int (ex / zoom_factor app), py_int (ey / zoom_factor app)))
          app
  | _, _ => app
  end.

(** [_on_canvas_release]: the selection is put in order, top left
    first. *)
Definition _on_canvas_release (app : App) (ex ey : Q) : App * message :=
  match selection_mode app, selection_start app with
  | Some mode_area, Some (sx, sy) =>
      if bool_decide (zoom_factor app == 0)%Q then (app, msg_none)
      else
        let x := py_int (ex / zoom_factor app) in
        let y := py_int (ey / zoom_factor app) in
        let '(x1, x2) := if bool_decide (sx > x) then (x, sx) else (sx, x) in
        let '(y1, y2) := if bool_decide (sy > y) then (y, sy) else (sy, y) in
        (set_selection (Some (x1, y1)) (Some (x2, y2)) app,
         msg_area_selected (x2 - x1) (y2 - y1))
  | _, _ => (app, msg_none)
  end.

End Selection.

(** ** Zoom ([core/pdf_handler.py]) *)

Module PdfHandler.

(** The common body of [zoom_in], [zoom_out] and [reset_zoom] once the
    new zoom factor is known: the working markers are copied, the page is
    displayed again, which replaces the working markers, and the copies
    are put back.  When the display raises, the markers have not been
    touched yet. *)
Definition zoom_to (z : Q) (app : App) : App :=
  let app1 := set_zoom_factor z app in
  match TableExtractor.update_page_display app1 with
  | Some app2 =>
      set_markers (column_markers app) (row_markers app)
        (marker_history app2) app2
  | None => app1
  end.

(** [zoom_in]: [zoom_factor *= 1.2] *)
Definition zoom_in (app : App) : App :=
  zoom_to (zoom_factor app * (12 # 10))%Q app.

(** [zoom_out]: [zoom_factor /= 1.2], and not below [0.1] *)
Definition zoom_out (app : App) : App :=
  let z := (zoom_factor app / (12 # 10))%Q in
  zoom_to (if bool_decide (z < 1 # 10)%Q then (1 # 10)%Q else z) app.

(** [reset_zoom] *)
Definition reset_zoom (app : App) : App := zoom_to 1%Q app.

End PdfHandler.


(** ** The table commands ([core/table_extractor.py], continued) *)

Module TableCommands.

(** The cell that the span loop of lines 78 to 109 (and 497 to 531)
    adds a span to, as (row, column); [None] when the span is passed
    over.  This is the test part of [TableExtractor.assign_fragment],
    written down on its own to state where a span goes. *)
Definition landing_cell (cols_m rows_m : list Q) (pg : page) (s : span)
  : option (nat * nat) :=
  let min_x := default 0%Q (TableExtractor.py_min cols_m) in
  let max_x := default (rect_width pg) (TableExtractor.py_max cols_m) in
  let min_y := default 0%Q (TableExtractor.py_min rows_m) in
  let max_y := default (rect_height pg) (TableExtractor.py_max rows_m) in
  let col_bounds := sorted cols_m in
  let row_bounds := sorted rows_m in
  let '(center_x, center_y) := TableExtractor.center s in
  if negb (TableExtractor.inside_table min_x max_x min_y max_y
             center_x center_y)
  then None
  else
    match TableExtractor.find_index col_bounds center_x 0,
          TableExtractor.find_index row_bounds center_y 0 with
    | Some col_idx, Some row_idx =>
        if Nat.ltb col_idx (TableExtractor.cell_count col_bounds)
           && Nat.ltb row_idx (TableExtractor.cell_count row_bounds)
        then Some (row_idx, col_idx)
        else None
    | _, _ => None
    end.

(** The text of the spans in [spans], joined in their order as the span
    loop joins the texts that land in one cell. *)
Definition joined (sep : string) (spans : list span) : string :=
  fold_left (fun cell s => TableExtractor.add_text sep (text s) cell)
    spans EmptyString.

(** [table[row_idx]] for a table of [padded_tables], line 669. *)
Definition row_of (max_rows row_idx : nat) (table : list (list string))
  : list string :=
  nth row_idx (TableExtractor.pad_table max_rows table) [].

(** A line with a character that is not white space. *)
Definition nonblank (l : string) : bool :=
  negb (PyStr.all_chars PyStr.isspace l).

(** [force_text_orientation_correction] *)
Definition force_text_orientation_correction (app : App) : App * message :=
  match table_data app with
  | [] => (app, msg_no_table_to_correct)
  | _ :: _ =>
      (TableExtractor._correct_text_orientation app, msg_forced_correction)
  end.


End TableCommands.


(** ** CSV export ([utils/exporters.py]) *)

Module Exporters.

Definition quote : ascii := ascii_of_nat 34.
Definition comma : ascii := ascii_of_nat 44.

(** [c in s] for a character [c]. *)
Fixpoint contains (c : ascii) (s : string) : bool :=
  match s with
  | EmptyString => false
  | String d s' => Ascii.eqb d c || contains c s'
  end.

(** [s.replace(quote, quote + quote)] *)
Fixpoint double_quotes (s : string) : string :=
  match s with
  | EmptyString => EmptyString
  | String d s' =>
      if Ascii.eqb d quote then String quote (String quote (double_quotes s'))
      else String d (double_quotes s')
  end.

(** Lines 49 to 54: a cell with a comma or a quote is wrapped in quotes
    with its quotes doubled, an empty cell is written as two quotes, any
    other cell as it is. *)
Definition format_cell (cell : string) : string :=
  if contains comma cell || contains quote cell
  then String quote (double_quotes cell +:+ String quote EmptyString)
  else if bool_decide (cell = EmptyString)
       then String quote (String quote EmptyString)
       else cell.

(** One line of the file, line 58. *)
Definition format_row (row : list string) : string :=
  PyStr.join_with (String comma EmptyString) (map format_cell row)
  +:+ String PyStr.nl EmptyString.

(** [export_to_csv(table_data)]: the text written to the file, or
    [None] when nothing is written (no table data; [file_path] is the
    answer of the file dialog, [None] when it is cancelled).  The
    failure of the file system is not modelled. *)
Definition export_to_csv (table_data : list (list string))
           (file_path : option string) : option string :=
  match table_data with
  | [] => None
  | _ :: _ =>
      match file_path with
      | None => None
      | Some EmptyString => None
      | Some (String _ _) => Some (PyStr.join (map format_row table_data))
      end
  end.

End Exporters.


(** ** Restoring the text ([core/text_orientation_corrector.py],
       continued) *)

Module OrientationCommands.


End OrientationCommands.


(** ** Manual input ([core/manual_input.py]) *)

Module ManualInput.

(** The fields of a [ManualInputManager].  The tables it holds are
    Python lists that several fields can refer to at once
    ([manual_table_data] and entries of [all_pages_manual_data]), and
    cells are written in place; so the fields hold references and
    [objects] maps each reference to its list.  A reference in use
    always has its object; where the functions below meet one without,
    the [None] they return only keeps them total.
    [cell_text_entry] is the text in the entry widget, [None] while the
    input interface does not exist (then [cell_info_label] is [None]
    too). *)
Record t : Type := {
  manual_mode_active : bool;
  current_cell : Z * Z;
  manual_table_data : option nat;
  cell_coordinates : option (list (list (Q * Q * Q * Q)));
  cell_text_entry : option string;
  all_pages_manual_data : gmap nat nat;
  objects : gmap nat (list (list string))
}.

(** The manager as [__init__] leaves it. *)
Definition initial : t :=
  {| manual_mode_active := false;
     current_cell := (0, 0);
     manual_table_data := None;
     cell_coordinates := None;
     cell_text_entry := None;
     all_pages_manual_data := ∅;
     objects := ∅ |}.

Definition set_active (b : bool) (self : t) : t :=
  {| manual_mode_active := b;
     current_cell := current_cell self;
     manual_table_data := manual_table_data self;
     cell_coordinates := cell_coordinates self;
     cell_text_entry := cell_text_entry self;
     all_pages_manual_data := all_pages_manual_data self;
     objects := objects self |}.

Definition set_current_cell (c : Z * Z) (self : t) : t :=
  {| manual_mode_active := manual_mode_active self;
     current_cell := c;
     manual_table_data := manual_table_data self;
     cell_coordinates := cell_coordinates self;
     cell_text_entry := cell_text_entry self;
     all_pages_manual_data := all_pages_manual_data self;
     objects := objects self |}.

Definition set_entry (e : option string) (self : t) : t :=
  {| manual_mode_active := manual_mode_active self;
     current_cell := current_cell self;
     manual_table_data := manual_table_data self;
     cell_coordinates := cell_coordinates self;
     cell_text_entry := e;
     all_pages_manual_data := all_pages_manual_data self;
     objects := objects self |}.

Definition set_objects (o : gmap nat (list (list string))) (self : t) : t :=
  {| manual_mode_active := manual_mode_active self;
     current_cell := current_cell self;
     manual_table_data := manual_table_data self;
     cell_coordinates := cell_coordinates self;
     cell_text_entry := cell_text_entry self;
     all_pages_manual_data := all_pages_manual_data self;
     objects := o |}.

Definition set_table (l : option nat)
           (cc : option (list (list (Q * Q * Q * Q)))) (self : t) : t :=
  {| manual_mode_active := manual_mode_active self;
     current_cell := current_cell self;
     manual_table_data := l;
     cell_coordinates := cc;
     cell_text_entry := cell_text_entry self;
     all_pages_manual_data := all_pages_manual_data self;
     objects := objects self |}.

Definition set_page_data (d : gmap nat nat) (self : t) : t :=
  {| manual_mode_active := manual_mode_active self;
     current_cell := current_cell self;
     manual_table_data := manual_table_data self;
     cell_coordinates := cell_coordinates self;
     cell_text_entry := cell_text_entry self;
     all_pages_manual_data := d;
     objects := objects self |}.

(** The list that [manual_table_data] refers to. *)
Definition table_of (self : t) : option (list (list string)) :=
  match manual_table_data self with
  | Some l => objects self !! l
  | None => None
  end.

(** The list stored for a page. *)
Definition stored_table (self : t) (page_idx : nat)
  : option (list (list string)) :=
  match all_pages_manual_data self !! page_idx with
  | Some l => objects self !! l
  | None => None
  end.

(** A new list object holding [table]: the reference and the store. *)
Definition allocate (table : list (list string)) (self : t) : nat * t :=
  let l := fresh (dom (objects self)) in
  (l, set_objects (<[l := table]> (objects self)) self).

(** [all_pages_manual_data[page] = [r[:] for r in table]] *)
Definition store_copy (page_idx : nat) (table : list (list string))
           (self : t) : t :=
  let '(l, self1) := allocate table self in
  set_page_data (<[page_idx := l]> (all_pages_manual_data self1)) self1.

(** [0 <= row < len(m) and 0 <= col < len(m[0])] *)
Definition inside {A : Type} (cell : Z * Z) (m : list (list A)) : bool :=
  let '(row_idx, col_idx) := cell in
  (0 <=? row_idx) && (row_idx <? Z.of_nat (length m))
  && match m with
     | r0 :: _ => (0 <=? col_idx) && (col_idx <? Z.of_nat (length r0))
     | [] => false
     end.

(** [_save_current_cell_content]; [None] when it raises ([len] of
    [None], or a row shorter than the first one). *)
Definition _save_current_cell_content (self : t) : option t :=
  if negb (manual_mode_active self) then Some self
  else
    match cell_text_entry self with
    | None => Some self
    | Some content =>
        match manual_table_data self with
        | None => None
        | Some l =>
            match objects self !! l with
            | None => None
            | Some m =>
                if inside (current_cell self) m then
                  let '(row_idx, col_idx) := current_cell self in
                  match m !! Z.to_nat row_idx with
                  | Some r =>
                      if Nat.ltb (Z.to_nat col_idx) (length r) then
                        Some (set_objects
                                (<[l := <[Z.to_nat row_idx :=
                                            <[Z.to_nat col_idx := content]> r]> m]>
                                   (objects self)) self)
                      else None
                  | None => None
                  end
                else Some self
            end
        end
    end.

(** What [_highlight_current_cell] does to the manager: the content of
    the current cell is loaded into the entry.  [None] when it raises. *)
Definition _highlight_current_cell (self : t) : option t :=
  if negb (manual_mode_active self) then Some self
  else
    match cell_coordinates self with
    | None => Some self
    | Some [] => Some self
    | Some (c0 :: cs) =>
        if inside (current_cell self) (c0 :: cs) then
          let '(row_idx, col_idx) := current_cell self in
          match (c0 :: cs) !! Z.to_nat row_idx with
          | None => None
          | Some r =>
              match r !! Z.to_nat col_idx with
              | None => None
              | Some _ =>
                  match cell_text_entry self with
                  | None => None
                  | Some _ =>
                      match table_of self with
                      | None => None
                      | Some m =>
                          if inside (current_cell self) m then
                            match m !! Z.to_nat row_idx with
                            | None => None
                            | Some mr =>
                                match mr !! Z.to_nat col_idx with
                                | None => None
                                | Some content =>
                                    Some (set_entry (Some content) self)
                                end
                            end
                          else Some self
                      end
                  end
              end
          end
        else Some self
    end.

(** [len(m) if m else 0] and [len(m[0]) if m else 0] for
    [m = self.manual_table_data]. *)
Definition table_dims (self : t) : Z * Z :=
  match table_of self with
  | Some (r0 :: m) => (Z.of_nat (length (r0 :: m)), Z.of_nat (length r0))
  | _ => (0, 0)
  end.

(** [_go_to_next_cell] *)
Definition _go_to_next_cell (self : t) : option t :=
  if negb (manual_mode_active self) then Some self
  else
    match _save_current_cell_content self with
    | None => None
    | Some self1 =>
        let '(row_idx, col_idx) := current_cell self1 in
        let '(rows, cols) := table_dims self1 in
        let col1 := col_idx + 1 in
        let '(row2, col2) :=
          if col1 >=? cols then (row_idx + 1, 0) else (row_idx, col1) in
        let row3 := if row2 >=? rows then 0 else row2 in
        _highlight_current_cell (set_current_cell (row3, col2) self1)
    end.

(** [_go_to_previous_cell] *)
Definition _go_to_previous_cell (self : t) : option t :=
  if negb (manual_mode_active self) then Some self
  else
    match _save_current_cell_content self with
    | None => None
    | Some self1 =>
        let '(row_idx, col_idx) := current_cell self1 in
        let '(rows, cols) := table_dims self1 in
        let col1 := col_idx - 1 in
        let '(row2, col2) :=
          if col1 <? 0 then (row_idx - 1, cols - 1) else (row_idx, col1) in
        let row3 := if row2 <? 0 then rows - 1 else row2 in
        _highlight_current_cell (set_current_cell (row3, col2) self1)
    end.

(** [_go_to_cell(row, col)] *)
Definition _go_to_cell (to_row to_col : Z) (self : t) : option t :=
  if negb (manual_mode_active self) then Some self
  else
    match _save_current_cell_content self with
    | None => None
    | Some self1 =>
        match table_of self1 with
        | None => None
        | Some m =>
            let rows := Z.of_nat (length m) in
            let cols :=
              match m with
              | r0 :: _ => Z.of_nat (length r0)
              | [] => 0
              end in
            let row' := Z.max 0 (Z.min to_row (rows - 1)) in
            let col' := Z.max 0 (Z.min to_col (cols - 1)) in
            _highlight_current_cell (set_current_cell (row', col') self1)
        end
    end.

(** What [_cleanup_manual_input] does to the manager. *)
Definition _cleanup_manual_input (self : t) : t := set_entry None self.

(** [_store_current_page_values] *)
Definition _store_current_page_values (self : t) (app : App) : option t :=
  if negb (manual_mode_active self) then Some self
  else
    match _save_current_cell_content self with
    | None => None
    | Some self1 =>
        match table_of self1 with
        | None => None
        | Some m => Some (store_copy (current_page app) m self1)
        end
    end.

(** [exit_manual_mode_and_store_data] *)
Definition exit_manual_mode_and_store_data (self : t) (app : App)
  : option (t * message) :=
  if negb (manual_mode_active self) then Some (self, msg_none)
  else
    match _save_current_cell_content self with
    | None => None
    | Some self1 =>
        let self2 :=
          match table_of self1 with
          | Some (r0 :: m) => store_copy (current_page app) (r0 :: m) self1
          | _ => self1
          end in
        Some (_cleanup_manual_input (set_active false self2),
              msg_manual_deactivated_stored)
    end.

(** The bounding boxes of lines 138 to 149, for markers in ascending
    order. *)
Definition cell_boxes (col_markers row_markers : list Q)
  : list (list (Q * Q * Q * Q)) :=
  map (fun r =>
         map (fun c =>
                (nth c col_markers 0%Q, nth r row_markers 0%Q,
                 nth (S c) col_markers 0%Q, nth (S r) row_markers 0%Q))
           (seq 0 (length col_markers - 1)))
    (seq 0 (length row_markers - 1)).

(** [_initialize_manual_input], called with [manual_mode_active] set. *)
Definition _initialize_manual_input (self : t) (app : App) : option t :=
  let sorted_col_markers := sorted (column_markers app) in
  let sorted_row_markers := sorted (row_markers app) in
  if Nat.ltb (length sorted_col_markers) 2
     || Nat.ltb (length sorted_row_markers) 2
  then Some (set_active false self)
  else
    let n_rows := (length sorted_row_markers - 1)%nat in
    let n_cols := (length sorted_col_markers - 1)%nat in
    let reuse :=
      match stored_table self (current_page app) with
      | Some (r0 :: m) =>
          Nat.eqb (length (r0 :: m)) n_rows && Nat.eqb (length r0) n_cols
      | _ => false
      end in
    let '(l, self1) :=
      match all_pages_manual_data self !! current_page app with
      | Some l0 =>
          if reuse then (l0, self)
          else allocate (TableExtractor.empty_table n_rows n_cols) self
      | None => allocate (TableExtractor.empty_table n_rows n_cols) self
      end in
    let self2 :=
      set_current_cell (0, 0)
        (set_table (Some l)
           (Some (cell_boxes sorted_col_markers sorted_row_markers)) self1) in
    let self3 :=
      match cell_text_entry self2 with
      | None => set_entry (Some EmptyString) self2
      | Some _ => self2
      end in
    _highlight_current_cell self3.

(** [toggle_manual_mode] *)
Definition toggle_manual_mode (self : t) (app : App) : option t :=
  if no_document app then Some self
  else if bool_decide (column_markers app = [])
          || bool_decide (row_markers app = [])
  then Some self
  else
    let self1 := set_active (negb (manual_mode_active self)) self in
    if manual_mode_active self1 then _initialize_manual_input self1 app
    else
      match table_of self1 with
      | Some (r0 :: m) =>
          match _save_current_cell_content self1 with
          | None => None
          | Some self2 =>
              match table_of self2 with
              | None => None
              | Some m2 =>
                  Some (_cleanup_manual_input
                          (store_copy (current_page app) m2 self2))
              end
          end
      | _ => Some (_cleanup_manual_input self1)
      end.

(** The table that [extract_all_marked_pages] takes for a marked page:
    the stored one, or an empty one of the size that the page's markers
    give (lines 597 to 614). *)
Definition page_table (self : t) (app : App) (page_idx : nat)
  : option (list (list string)) :=
  match all_pages_manual_data self !! page_idx with
  | Some l => objects self !! l
  | None =>
      match page_markers app !! page_idx with
      | Some d =>
          Some (TableExtractor.empty_table
                  (TableExtractor.cell_count (sorted (rows d)))
                  (TableExtractor.cell_count (sorted (columns d))))
      | None => None
      end
  end.

(** [extract_all_marked_pages].  [options] is the result of the options
    dialog.  The outer [None] is the exception of
    [_save_current_cell_content], which is raised before the [try]. *)
Definition extract_all_marked_pages
           (options : option (TableExtractor.merge_mode_t * bool))
           (self : t) (app : App)
  : option (t * App * TableExtractor.run_outcome) :=
  if no_document app then Some (self, app, TableExtractor.run_no_pdf)
  else if bool_decide (page_markers app = ∅)
  then Some (self, app, TableExtractor.run_no_marked_pages)
  else
    match _save_current_cell_content self with
    | None => None
    | Some self1 =>
        let self2 :=
          match manual_table_data self1, table_of self1 with
          | Some l, Some (_ :: _) =>
              set_page_data
                (<[current_page app := l]> (all_pages_manual_data self1)) self1
          | _, _ => self1
          end in
        match options with
        | None => Some (self2, app, TableExtractor.run_cancelled)
        | Some (merge_mode, do_transpose) =>
            match mapM (page_table self2 app) (TableExtractor.marked_pages app)
            with
            | None => Some (self2, app, TableExtractor.run_failed)
            | Some [] => Some (self2, app, TableExtractor.run_no_tables)
            | Some (g :: gs) =>
                let all_tables := g :: gs in
                let merged_table :=
                  match merge_mode with
                  | TableExtractor.vertical =>
                      TableExtractor.merge_tables_vertically all_tables
                  | TableExtractor.horizontal =>
                      TableExtractor.merge_tables_horizontally all_tables
                  end in
                let done final :=
                  Some (_cleanup_manual_input (set_active false self2),
                        set_table_data final app,
                        TableExtractor.run_extracted all_tables final) in
                match merged_table with
                | [] =>
                    if do_transpose
                    then Some (self2, app, TableExtractor.run_failed)
                    else done []
                | _ :: _ =>
                    done (if do_transpose
                          then TableExtractor.transpose merged_table
                          else merged_table)
                end
            end
        end
    end.

(** A table of [n_rows] rows that all have [n_cols] entries. *)
Definition rectangular {A : Type} (n_rows n_cols : nat) (m : list (list A))
  : Prop :=
  length m = n_rows /\ Forall (fun r => length r = n_cols) m.

(** The manager while a table of [n_rows] by [n_cols] cells is being
    edited: the mode is active, the input interface exists, table and
    cell boxes have that size, and the current cell is one of the
    cells. *)
Definition editing (n_rows n_cols : nat) (self : t) : Prop :=
  manual_mode_active self = true
  /\ is_Some (cell_text_entry self)
  /\ (1 <= n_rows)%nat /\ (1 <= n_cols)%nat
  /\ (exists m, table_of self = Some m /\ rectangular n_rows n_cols m)
  /\ (exists cc, cell_coordinates self = Some cc
                 /\ rectangular n_rows n_cols cc)
  /\ 0 <= fst (current_cell self) < Z.of_nat n_rows
  /\ 0 <= snd (current_cell self) < Z.of_nat n_cols.

(** The user types [txt] into the entry. *)
Definition type_text (txt : string) (self : t) : t :=
  match cell_text_entry self with
  | Some _ => set_entry (Some txt) self
  | None => self
  end.

End ManualInput.

(** A manager in the middle of editing a table of one row and two
    columns: the first cell holds "a", the entry holds "ab", not saved
    yet. *)
Definition sample_manager : ManualInput.t :=
  {| ManualInput.manual_mode_active := true;
     ManualInput.current_cell := (0, 0);
     ManualInput.manual_table_data := Some 0%nat;
     ManualInput.cell_coordinates :=
       Some (ManualInput.cell_boxes [0%Q; 50%Q; 100%Q] [0%Q; 100%Q]);
     ManualInput.cell_text_entry := Some "ab"%string;
     ManualInput.all_pages_manual_data := ∅;
     ManualInput.objects := {[ 0%nat := [["a"%string; EmptyString]] ]} |}.

(** * Properties *)

(** ** Line clustering *)

Section ClusterLines.
Import LineDetector.
Variable t : Z.

Lemma group_concat (rest cur : list Z) (prev : Z) :
  concat (group t cur prev rest) = cur ++ rest.
Proof.
  revert cur prev. induction rest as [| line rest IH]; intros cur prev; simpl.
  - by rewrite app_nil_r.
  - case_bool_decide; simpl.
    + rewrite IH. by rewrite <- app_assoc.
    + by rewrite IH.
Qed.

Lemma group_head (rest cur : list Z) (prev : Z) :
  exists ext tl, group t cur prev rest = (cur ++ ext) :: tl.
Proof.
  revert cur prev. induction rest as [| line rest IH]; intros cur prev; simpl.
  - exists [], []. by rewrite app_nil_r.
  - case_bool_decide.
    + destruct (IH (cur ++ [line]) line) as (ext & tl & ->).
      exists (line :: ext), tl. by rewrite <- app_assoc.
    + exists [], (group t [line] line rest). by rewrite app_nil_r.
Qed.

Lemma group_nonempty (rest cur : list Z) (prev : Z) :
  cur <> [] -> Forall (fun c => c <> []) (group t cur prev rest).
Proof.
  revert cur prev. induction rest as [| line rest IH]; intros cur prev Hne; simpl.
  - by constructor.
  - case_bool_decide.
    + apply IH. by destruct cur.
    + constructor; [done |]. by apply IH.
Qed.

Lemma close_knit_snoc (cur : list Z) (prev line : Z) :
  close_knit t cur -> last cur = Some prev -> line - prev <= t ->
  close_knit t (cur ++ [line]).
Proof.
  intros Hck Hlast Hle i a b Ha Hb.
  destruct (decide (S i < length cur)%nat) as [Hlt | Hge].
  - rewrite lookup_app_l in Ha by lia. rewrite lookup_app_l in Hb by lia.
    by eapply Hck.
  - assert (S i = length cur) as Hi.
    { apply lookup_lt_Some in Hb. rewrite length_app in Hb. simpl in Hb. lia. }
    rewrite lookup_app_l in Ha by lia.
    rewrite lookup_app_r in Hb by lia.
    rewrite Hi, Nat.sub_diag in Hb. simpl in Hb. injection Hb as <-.
    rewrite last_lookup in Hlast.
    replace (Nat.pred (length cur)) with i in Hlast by lia.
    rewrite Ha in Hlast. injection Hlast as ->. done.
Qed.

Lemma group_close_knit (rest cur : list Z) (prev : Z) :
  close_knit t cur -> last cur = Some prev ->
  Forall (close_knit t) (group t cur prev rest).
Proof.
  revert cur prev. induction rest as [| line rest IH]; intros cur prev Hck Hlast; simpl.
  - by constructor.
  - case_bool_decide as Hle.
    + apply IH.
      * by eapply close_knit_snoc.
      * by rewrite last_snoc.
    + constructor; [done |]. apply IH; [| done].
      intros i a b Ha Hb. destruct i; simpl in Hb; discriminate.
Qed.

Lemma group_far_apart (rest cur : list Z) (prev : Z) :
  last cur = Some prev -> far_apart t (group t cur prev rest).
Proof.
  revert cur prev. induction rest as [| line rest IH]; intros cur prev Hlast; simpl.
  - intros i c1 c2 a b H1 H2. destruct i; simpl in H2; discriminate.
  - case_bool_decide as Hle.
    + apply IH. by rewrite last_snoc.
    + intros i c1 c2 a b H1 H2 Ha Hb. destruct i as [| i]; simpl in H1, H2.
      * injection H1 as <-.
        destruct (group_head rest [line] line) as (ext & tl & Heq).
        rewrite Heq in H2. simpl in H2. injection H2 as <-.
        simpl in Hb. injection Hb as <-.
        rewrite Hlast in Ha. injection Ha as <-. lia.
      * exact (IH [line] line eq_refl i c1 c2 a b H1 H2 Ha Hb).
Qed.

Lemma representative_lookup (c : list Z) :
  c <> [] -> c !! (length c / 2)%nat = Some (representative c).
Proof.
  intros Hne. unfold representative.
  assert (length c / 2 < length c)%nat as Hlt.
  { destruct c; [done |]. apply Nat.div_lt; simpl; lia. }
  destruct (lookup_lt_is_Some_2 c _ Hlt) as [x Hx].
  rewrite Hx. f_equal. symmetry. by apply nth_lookup_Some with (d := 0).
Qed.

End ClusterLines.

(** C8.  [cluster_lines] sorts the candidates and cuts the sorted list
    into clusters: the clusters, laid end to end, are the sorted
    candidates; inside a cluster each member is within the threshold of
    the one before it; the first member of a cluster is more than the
    threshold away from the last member of the cluster before it; and the
    result holds, for each cluster, its element at index [len // 2].
    The candidates 50, 52, 53, 120 with threshold 5 give 52 and 120. *)
Theorem cluster_lines_spec (lines : list Z) (t : Z) :
  let cs := LineDetector.clusters_of lines t in
  concat cs = sortedZ lines
  /\ Sorted Z.le (sortedZ lines)
  /\ Permutation (sortedZ lines) lines
  /\ Forall (fun c => c <> [] /\ LineDetector.close_knit t c) cs
  /\ LineDetector.far_apart t cs
  /\ Forall2 (fun rep c => c !! (length c / 2)%nat = Some rep)
       (LineDetector.cluster_lines lines t) cs
  /\ LineDetector.cluster_lines [50; 52; 53; 120] 5 = [52; 120].
Proof.
  intros cs. subst cs. unfold LineDetector.cluster_lines, LineDetector.clusters_of.
  split; [| split; [| split; [| split; [| split; [| split]]]]].
  - destruct (sortedZ lines) as [| x rest]; [done |]. apply group_concat.
  - apply Sorted_merge_sort. apply _.
  - apply merge_sort_Permutation.
  - destruct (sortedZ lines) as [| x rest]; [constructor |].
    apply Forall_and. split.
    + by apply group_nonempty.
    + apply group_close_knit; [| done].
      intros i a b Ha Hb. destruct i; simpl in Hb; discriminate.
  - destruct (sortedZ lines) as [| x rest].
    + intros i c1 c2 a b H1. destruct i; discriminate.
    + by apply group_far_apart.
  - destruct (sortedZ lines) as [| x rest]; [constructor |].
    apply Forall2_fmap_l, Forall_Forall2_diag.
    eapply Forall_impl; [apply (group_nonempty t rest [x] x); done |].
    intros c Hc. by apply representative_lookup.
  - vm_compute. reflexivity.
Qed.

(** ** The marker lists *)

Section MarkerLists.

Lemma py_in_true (x : Q) (l : list Q) :
  py_in x l = true <-> exists y, In y l /\ (y == x)%Q.
Proof.
  unfold py_in. rewrite existsb_exists. split.
  - intros (y & Hy & Hb). exists y. split; [done |].
    by apply bool_decide_eq_true in Hb.
  - intros (y & Hy & Hq). exists y. split; [done |].
    by apply bool_decide_eq_true.
Qed.

Lemma py_remove_none (x : Q) (l : list Q) :
  py_in x l = false -> py_remove x l = None.
Proof.
  induction l as [| y l IH]; simpl; [done |].
  intros H. apply orb_false_iff in H as [Hy Hl].
  rewrite Hy. by rewrite (IH Hl).
Qed.

Lemma py_remove_strongly_sorted (x : Q) (l l' : list Q) :
  StronglySorted Qle l -> py_remove x l = Some l' -> StronglySorted Qle l'.
Proof.
  revert l'. induction l as [| y l IH]; simpl; intros l' Hs Hr; [done |].
  apply StronglySorted_inv in Hs as [Hs Hall].
  case_bool_decide.
  - by injection Hr as <-.
  - destruct (py_remove x l) as [r |] eqn:Er; simpl in Hr; [| done].
    injection Hr as <-. constructor; [by apply IH |].
    clear IH Hs. revert r Er.
    induction l as [| z l IHl]; simpl; intros r Er; [done |].
    apply Forall_cons in Hall as [Hz Hall].
    case_bool_decide.
    + by injection Er as <-.
    + destruct (py_remove x l) as [r' |] eqn:Er'; simpl in Er; [| done].
      injection Er as <-. constructor; [done |]. by apply IHl.
Qed.

Lemma py_remove_sorted (x : Q) (l l' : list Q) :
  Sorted Qle l -> py_remove x l = Some l' -> Sorted Qle l'.
Proof.
  intros Hs Hr. apply StronglySorted_Sorted.
  eapply py_remove_strongly_sorted; [| exact Hr].
  by apply Sorted_StronglySorted; [apply _ |].
Qed.

Lemma last_removelast {A : Type} (l : list A) (e : A) :
  last l = Some e -> l = removelast l ++ [e].
Proof.
  induction l as [| a l IH]; [discriminate |].
  destruct l as [| b l].
  - simpl. by intros [= ->].
  - intros H. change (a :: b :: l = a :: (removelast (b :: l) ++ [e])).
    f_equal. by apply IH.
Qed.

Lemma sorted_is_sorted (l : list Q) : Sorted Qle (sorted l).
Proof. apply Sorted_merge_sort. apply _. Qed.

Lemma click_sorted (app : App) (ex ey : Q) :
  Sorted Qle (column_markers app) -> Sorted Qle (row_markers app) ->
  Sorted Qle (column_markers (Markers._on_canvas_click app ex ey))
  /\ Sorted Qle (row_markers (Markers._on_canvas_click app ex ey)).
Proof.
  intros Hc Hr. unfold Markers._on_canvas_click.
  destruct (selection_mode app) as [mode |]; [| done].
  destruct (no_document app); [done |].
  case_bool_decide; [done |].
  destruct mode.
  - destruct (py_in _ _); [done |]. simpl. split; [apply sorted_is_sorted | done].
  - destruct (py_in _ _); [done |]. simpl. split; [done | apply sorted_is_sorted].
  - done.
Qed.

Lemma apply_sorted (self : option AreaProcessor.t) (confirm : bool) (app : App) :
  Sorted Qle (column_markers app) -> Sorted Qle (row_markers app) ->
  Sorted Qle (column_markers (AreaProcessor.apply_detected_lines self confirm app))
  /\ Sorted Qle (row_markers (AreaProcessor.apply_detected_lines self confirm app)).
Proof.
  intros Hc Hr. unfold AreaProcessor.apply_detected_lines.
  destruct self as [self |]; [| done].
  destruct (selection_start app); [| done].
  destruct (AreaProcessor.scale_factor self); [| done].
  destruct (AreaProcessor.original_selection self) as [[[x1 y1] x2] y2].
  simpl. split; apply sorted_is_sorted.
Qed.

Lemma undo_sorted (app : App) :
  Sorted Qle (column_markers app) -> Sorted Qle (row_markers app) ->
  Sorted Qle (column_markers (Markers.undo_last_marker app))
  /\ Sorted Qle (row_markers (Markers.undo_last_marker app)).
Proof.
  intros Hc Hr. unfold Markers.undo_last_marker.
  destruct (last (marker_history app)) as [e |]; [| done].
  destruct (type e).
  - destruct (py_remove _ _) as [cols |] eqn:E; simpl; [| done].
    split; [| done]. eapply py_remove_sorted; [| exact E]. done.
  - destruct (py_remove _ _) as [rws |] eqn:E; simpl; [| done].
    split; [done |]. eapply py_remove_sorted; [| exact E]. done.
Qed.

End MarkerLists.

(** C10.  In every state reached from empty marker lists by canvas
    clicks, by applying detected lines, by undoing and by clearing, both
    [column_markers] and [row_markers] are in ascending order. *)
Theorem marker_lists_sorted (app : App) :
  reachable app ->
  Sorted Qle (column_markers app) /\ Sorted Qle (row_markers app).
Proof.
  induction 1 as [app Hc Hr | app ex ey _ [IHc IHr] | app self confirm _ [IHc IHr]
                  | app _ [IHc IHr] | app _ _ | app app' _ [IHc IHr] Hc Hr].
  - rewrite Hc, Hr. split; constructor.
  - by apply click_sorted.
  - by apply apply_sorted.
  - by apply undo_sorted.
  - split; constructor.
  - by rewrite Hc, Hr.
Qed.

(** Two clicks with the column tool, at 7 and then at 3, followed by an
    undo: a reachable state, with its lists in order. *)
Lemma marker_lists_sorted_witness :
  let app :=
    Markers.undo_last_marker
      (Markers._on_canvas_click
         (Markers._on_canvas_click column_tool_app 7 0) 3 0) in
  column_markers app = [7%Q]
  /\ Sorted Qle (column_markers app) /\ Sorted Qle (row_markers app).
Proof.
  cbv zeta. split; [vm_compute; reflexivity |].
  apply (marker_lists_sorted
           (Markers.undo_last_marker
              (Markers._on_canvas_click
                 (Markers._on_canvas_click column_tool_app 7 0) 3 0))).
  apply reach_undo, reach_click, reach_click, reach_start; reflexivity.
Defined.

(** ** Undo of an entry whose value is gone *)

(** C5, as stated, fails on [stale_history_app].  The most recent entry,
    a column marker at 5, is absent from [column_markers]; the undo
    reports the failure and leaves both marker lists alone, but the
    history has lost the entry. *)
Lemma undo_absent_value_changes_history :
  last (marker_history stale_history_app)
  = Some {| type := column; value := 5 |}
  /\ py_in 5 (column_markers stale_history_app) = false
  /\ status_label (Markers.undo_last_marker stale_history_app)
     = status_could_not_remove
  /\ marker_history (Markers.undo_last_marker stale_history_app) = []
  /\ marker_history (Markers.undo_last_marker stale_history_app)
     <> marker_history stale_history_app.
Proof.
  repeat split; try (vm_compute; reflexivity).
  vm_compute. discriminate.
Qed.

(** C5, amended.  When the value of the most recent history entry is
    absent from the marker list of its type, the undo reports "Could not
    remove marker (not found)", leaves [column_markers] and [row_markers]
    unchanged, and removes that entry from the history: the history
    before is the history after followed by the entry. *)
Theorem undo_absent_value (app : App) (e : history_entry) :
  last (marker_history app) = Some e ->
  py_in (value e) (markers_of (type e) app) = false ->
  status_label (Markers.undo_last_marker app) = status_could_not_remove
  /\ column_markers (Markers.undo_last_marker app) = column_markers app
  /\ row_markers (Markers.undo_last_marker app) = row_markers app
  /\ marker_history (Markers.undo_last_marker app)
     = removelast (marker_history app)
  /\ marker_history app
     = marker_history (Markers.undo_last_marker app) ++ [e].
Proof.
  intros Hlast Habsent. unfold Markers.undo_last_marker. rewrite Hlast.
  pose proof (last_removelast _ _ Hlast) as Hsplit.
  unfold markers_of in Habsent.
  destruct (type e); rewrite (py_remove_none _ _ Habsent); simpl; by repeat split.
Qed.

(** The stale state above meets both hypotheses. *)
Lemma undo_absent_value_witness :
  status_label (Markers.undo_last_marker stale_history_app)
  = status_could_not_remove
  /\ column_markers (Markers.undo_last_marker stale_history_app)
     = column_markers stale_history_app
  /\ row_markers (Markers.undo_last_marker stale_history_app)
     = row_markers stale_history_app
  /\ marker_history (Markers.undo_last_marker stale_history_app)
     = removelast (marker_history stale_history_app)
  /\ marker_history stale_history_app
     = marker_history (Markers.undo_last_marker stale_history_app)
       ++ [{| type := column; value := 5 |}].
Proof.
  apply (undo_absent_value stale_history_app {| type := column; value := 5 |}).
  - reflexivity.
  - vm_compute. reflexivity.
Defined.

(** ** Detected lines mapped to markers *)

Section ApplyDetectedLines.
Import AreaProcessor.

Lemma py_in_refl (v : Q) (l : list Q) : py_in v (l ++ [v]) = true.
Proof.
  unfold py_in. rewrite existsb_app. simpl.
  rewrite (bool_decide_eq_true_2 _ (Qeq_refl v)). by rewrite orb_true_r.
Qed.

Lemma py_in_app_l (u v : Q) (l : list Q) :
  py_in u l = true -> py_in u (l ++ [v]) = true.
Proof. unfold py_in. rewrite existsb_app. by intros ->. Qed.

Lemma py_in_perm (u : Q) (l l' : list Q) :
  Permutation l l' -> py_in u l = true -> py_in u l' = true.
Proof.
  intros Hp. rewrite !py_in_true. intros (y & Hy & Hq).
  exists y. split; [| done]. by eapply Permutation_in.
Qed.

Lemma add_column_rows (v : Q) (app : App) :
  row_markers (add_column v app) = row_markers app.
Proof. unfold add_column. by destruct (py_in _ _). Qed.

Lemma add_row_columns (v : Q) (app : App) :
  column_markers (add_row v app) = column_markers app.
Proof. unfold add_row. by destruct (py_in _ _). Qed.

Lemma add_column_has (v : Q) (app : App) :
  py_in v (column_markers (add_column v app)) = true.
Proof.
  unfold add_column. destruct (py_in v (column_markers app)) eqn:E; [done |].
  simpl. apply py_in_refl.
Qed.

Lemma add_row_has (v : Q) (app : App) :
  py_in v (row_markers (add_row v app)) = true.
Proof.
  unfold add_row. destruct (py_in v (row_markers app)) eqn:E; [done |].
  simpl. apply py_in_refl.
Qed.

Lemma add_column_keeps (u v : Q) (app : App) :
  py_in u (column_markers app) = true ->
  py_in u (column_markers (add_column v app)) = true.
Proof.
  unfold add_column. destruct (py_in v (column_markers app)); [done |].
  simpl. apply py_in_app_l.
Qed.

Lemma add_row_keeps (u v : Q) (app : App) :
  py_in u (row_markers app) = true ->
  py_in u (row_markers (add_row v app)) = true.
Proof.
  unfold add_row. destruct (py_in v (row_markers app)); [done |].
  simpl. apply py_in_app_l.
Qed.

Lemma add_column_from (u v : Q) (app : App) :
  In u (column_markers (add_column v app)) ->
  In u (column_markers app) \/ u = v.
Proof.
  unfold add_column. destruct (py_in v (column_markers app)); [by left |]. simpl.
  rewrite in_app_iff. simpl. intros [H | [H | []]]; [by left | by right].
Qed.

Lemma add_row_from (u v : Q) (app : App) :
  In u (row_markers (add_row v app)) ->
  In u (row_markers app) \/ u = v.
Proof.
  unfold add_row. destruct (py_in v (row_markers app)); [by left |]. simpl.
  rewrite in_app_iff. simpl. intros [H | [H | []]]; [by left | by right].
Qed.

Variable f : Z -> Q.

Lemma fold_columns_rows (ps : list Z) (app : App) :
  row_markers (fold_left (fun a p => add_column (f p) a) ps app)
  = row_markers app.
Proof.
  revert app. induction ps as [| p ps IH]; intros app; simpl; [done |].
  rewrite IH. apply add_column_rows.
Qed.

Lemma fold_rows_columns (ps : list Z) (app : App) :
  column_markers (fold_left (fun a p => add_row (f p) a) ps app)
  = column_markers app.
Proof.
  revert app. induction ps as [| p ps IH]; intros app; simpl; [done |].
  rewrite IH. apply add_row_columns.
Qed.

Lemma fold_columns_keeps (u : Q) (ps : list Z) (app : App) :
  py_in u (column_markers app) = true ->
  py_in u (column_markers (fold_left (fun a p => add_column (f p) a) ps app))
  = true.
Proof.
  revert app. induction ps as [| p ps IH]; intros app H; simpl; [done |].
  apply IH. by apply add_column_keeps.
Qed.

Lemma fold_rows_keeps (u : Q) (ps : list Z) (app : App) :
  py_in u (row_markers app) = true ->
  py_in u (row_markers (fold_left (fun a p => add_row (f p) a) ps app))
  = true.
Proof.
  revert app. induction ps as [| p ps IH]; intros app H; simpl; [done |].
  apply IH. by apply add_row_keeps.
Qed.

Lemma fold_columns_has (p : Z) (ps : list Z) (app : App) :
  In p ps ->
  py_in (f p) (column_markers (fold_left (fun a p => add_column (f p) a) ps app))
  = true.
Proof.
  revert app. induction ps as [| q ps IH]; intros app; simpl; [done |].
  intros [-> | Hin].
  - apply fold_columns_keeps, add_column_has.
  - by apply IH.
Qed.

Lemma fold_rows_has (p : Z) (ps : list Z) (app : App) :
  In p ps ->
  py_in (f p) (row_markers (fold_left (fun a p => add_row (f p) a) ps app))
  = true.
Proof.
  revert app. induction ps as [| q ps IH]; intros app; simpl; [done |].
  intros [-> | Hin].
  - apply fold_rows_keeps, add_row_has.
  - by apply IH.
Qed.

Lemma fold_columns_from (u : Q) (ps : list Z) (app : App) :
  In u (column_markers (fold_left (fun a p => add_column (f p) a) ps app)) ->
  In u (column_markers app) \/ exists p, In p ps /\ u = f p.
Proof.
  revert app. induction ps as [| q ps IH]; intros app; simpl; [by left |].
  intros H. destruct (IH _ H) as [H' | (p & Hp & ->)].
  - destruct (add_column_from _ _ _ H') as [H'' | ->]; [by left |].
    right. exists q. by split; [left |].
  - right. exists p. by split; [right |].
Qed.

Lemma fold_rows_from (u : Q) (ps : list Z) (app : App) :
  In u (row_markers (fold_left (fun a p => add_row (f p) a) ps app)) ->
  In u (row_markers app) \/ exists p, In p ps /\ u = f p.
Proof.
  revert app. induction ps as [| q ps IH]; intros app; simpl; [by left |].
  intros H. destruct (IH _ H) as [H' | (p & Hp & ->)].
  - destruct (add_row_from _ _ _ H') as [H'' | ->]; [by left |].
    right. exists q. by split; [left |].
  - right. exists p. by split; [right |].
Qed.

End ApplyDetectedLines.

(** C2, as stated, fails on [sample_processor]: the scale factor is the
    measured 94/752 = 1/8, the line detected at pixel 1 maps to
    13 + 1/8, and the marker that is stored is its integer part 13; no
    marker has the value 13 + 1/8.  The same holds for the horizontal
    line at pixel 100, which maps to 35 + 1/2 and is stored as 35. *)
Lemma detected_line_marker_is_truncated :
  AreaProcessor.scale_factor sample_processor = Some (94 # 752)
  /\ column_markers
       (AreaProcessor.apply_detected_lines (Some sample_processor) true
          selection_app)
     = [10%Q; 13%Q; 63%Q; 110%Q]
  /\ py_in (13 + inject_Z 1 * (94 # 752))
       (column_markers
          (AreaProcessor.apply_detected_lines (Some sample_processor) true
             selection_app))
     = false
  /\ row_markers
       (AreaProcessor.apply_detected_lines (Some sample_processor) true
          selection_app)
     = [20%Q; 35%Q; 220%Q]
  /\ py_in (23 + inject_Z 100 * (94 # 752))
       (row_markers
          (AreaProcessor.apply_detected_lines (Some sample_processor) true
             selection_app))
     = false.
Proof. repeat split; vm_compute; reflexivity. Qed.

(** C2, amended.  When [apply_detected_lines] runs through, the scale
    factor is the document width of the cropped region divided by the
    pixel width of the processed image when there is a processed image,
    and [1 / image_scaling_factor] only when there is none; every
    detected pixel position [p] is mapped to
    [int(origin + p * scale_factor)], the value truncated toward zero,
    with the origin of the cropped region on its axis, and that integer
    is a marker afterwards; and every marker afterwards is one of the
    markers kept from before, a boundary of the selection, or the image
    of a detected position. *)
Theorem detected_lines_mapping (self : AreaProcessor.t) (confirm : bool)
        (app : App) (scale : Q) (x1 y1 x2 y2 : Z) :
  selection_start app <> None ->
  AreaProcessor.scale_factor self = Some scale ->
  AreaProcessor.original_selection self = (x1, y1, x2, y2) ->
  let app' := AreaProcessor.apply_detected_lines (Some self) confirm app in
  let to_x p := inject_Z (py_int (AreaProcessor.x1_cropped self + inject_Z p * scale)) in
  let to_y p := inject_Z (py_int (AreaProcessor.y1_cropped self + inject_Z p * scale)) in
  match AreaProcessor.processed_image self with
  | Some img_width =>
      scale = ((AreaProcessor.x2_cropped self - AreaProcessor.x1_cropped self)
               / inject_Z img_width)%Q
  | None => scale = (1 / AreaProcessor.image_scaling_factor self)%Q
  end
  /\ (forall p, In p (AreaProcessor.detected_vertical_lines self) ->
        py_in (to_x p) (column_markers app') = true)
  /\ (forall p, In p (AreaProcessor.detected_horizontal_lines self) ->
        py_in (to_y p) (row_markers app') = true)
  /\ (forall v, In v (column_markers app') ->
        In v (if confirm then [] else column_markers app)
        \/ v = inject_Z x1 \/ v = inject_Z x2
        \/ exists p, In p (AreaProcessor.detected_vertical_lines self)
                     /\ v = to_x p)
  /\ (forall v, In v (row_markers app') ->
        In v (if confirm then [] else row_markers app)
        \/ v = inject_Z y1 \/ v = inject_Z y2
        \/ exists p, In p (AreaProcessor.detected_horizontal_lines self)
                     /\ v = to_y p).
Proof.
  intros Hsel Hscale Hos app' to_x to_y. subst app'.
  unfold AreaProcessor.apply_detected_lines.
  destruct (selection_start app) as [s |]; [| done].
  rewrite Hscale, Hos.
  cbn [column_markers row_markers set_status set_markers].
  set (app1 := if confirm then set_markers [] [] [] app else app).
  assert (column_markers app1 = if confirm then [] else column_markers app) as Hc1
    by (subst app1; by destruct confirm).
  assert (row_markers app1 = if confirm then [] else row_markers app) as Hr1
    by (subst app1; by destruct confirm).
  rewrite <- Hc1, <- Hr1. clearbody app1.
  set (app2 := AreaProcessor.add_row _ (AreaProcessor.add_row _ _)).
  split; [| split; [| split; [| split]]].
  - unfold AreaProcessor.scale_factor in Hscale.
    destruct (AreaProcessor.processed_image self) as [w |];
      case_bool_decide; by simplify_eq.
  - intros p Hp. eapply py_in_perm.
    { symmetry. apply merge_sort_Permutation. }
    rewrite fold_rows_columns.
    by apply (fold_columns_has
                (fun p => inject_Z (AreaProcessor.to_pdf (AreaProcessor.x1_cropped self) p scale))).
  - intros p Hp. eapply py_in_perm.
    { symmetry. apply merge_sort_Permutation. }
    by apply (fold_rows_has
                (fun p => inject_Z (AreaProcessor.to_pdf (AreaProcessor.y1_cropped self) p scale))).
  - intros v Hv.
    apply (Permutation_in _ (merge_sort_Permutation _ _)) in Hv.
    rewrite fold_rows_columns in Hv.
    apply (fold_columns_from
             (fun p => inject_Z (AreaProcessor.to_pdf (AreaProcessor.x1_cropped self) p scale)))
      in Hv as [Hv | Hv]; [| by do 3 right].
    subst app2. rewrite !add_row_columns in Hv.
    apply add_column_from in Hv as [Hv | ->]; [| by right; right; left].
    apply add_column_from in Hv as [Hv | ->]; [by left | by right; left].
  - intros v Hv.
    apply (Permutation_in _ (merge_sort_Permutation _ _)) in Hv.
    apply (fold_rows_from
             (fun p => inject_Z (AreaProcessor.to_pdf (AreaProcessor.y1_cropped self) p scale)))
      in Hv as [Hv | Hv]; [| by do 3 right].
    rewrite fold_columns_rows in Hv. subst app2.
    apply add_row_from in Hv as [Hv | ->]; [| by right; right; left].
    apply add_row_from in Hv as [Hv | ->]; [| by right; left].
    rewrite !add_column_rows in Hv. by left.
Qed.

(** The sample selection, applied over cleared markers. *)
Lemma detected_lines_mapping_witness :
  AreaProcessor.scale_factor sample_processor = Some (94 # 752)
  /\ py_in (inject_Z (py_int (13 + inject_Z 1 * (94 # 752))))
       (column_markers
          (AreaProcessor.apply_detected_lines (Some sample_processor) true
             selection_app))
     = true.
Proof.
  split; [reflexivity |].
  refine (proj1 (proj2 (detected_lines_mapping sample_processor true
                          selection_app (94 # 752) 10 20 110 220 _ _ _)) 1 _).
  - discriminate.
  - reflexivity.
  - reflexivity.
  - simpl. by left.
Defined.

(** ** Grid assignment *)

Section GridAssignment.
Import TableExtractor.

Lemma Qeq_le (x y : Q) : (x == y)%Q -> (x <= y)%Q.
Proof. intros H. apply Qle_lteq. by right. Qed.

Lemma fold_min_le (l : list Q) (a : Q) :
  let m := fold_left (fun m y => if bool_decide (y < m)%Q then y else m) l a in
  (m <= a)%Q /\ forall x, In x l -> (m <= x)%Q.
Proof.
  revert a. induction l as [| y l IH]; intros a; simpl.
  - split; [apply Qle_refl | done].
  - case_bool_decide as Hlt.
    + destruct (IH y) as [H1 H2]. split.
      * eapply Qle_trans; [exact H1 | by apply Qlt_le_weak].
      * intros x [<- | Hx]; [done | by apply H2].
    + destruct (IH a) as [H1 H2]. split; [done |].
      intros x [<- | Hx]; [| by apply H2].
      eapply Qle_trans; [exact H1 |]. by apply Qnot_lt_le.
Qed.

Lemma fold_max_ge (l : list Q) (a : Q) :
  let m := fold_left (fun m y => if bool_decide (m < y)%Q then y else m) l a in
  (a <= m)%Q /\ forall x, In x l -> (x <= m)%Q.
Proof.
  revert a. induction l as [| y l IH]; intros a; simpl.
  - split; [apply Qle_refl | done].
  - case_bool_decide as Hlt.
    + destruct (IH y) as [H1 H2]. split.
      * eapply Qle_trans; [by apply Qlt_le_weak | exact H1].
      * intros x [<- | Hx]; [done | by apply H2].
    + destruct (IH a) as [H1 H2]. split; [done |].
      intros x [<- | Hx]; [| by apply H2].
      eapply Qle_trans; [| exact H1]. by apply Qnot_lt_le.
Qed.

Lemma py_min_le (l : list Q) (x : Q) (fallback : Q) :
  In x l -> (default fallback (py_min l) <= x)%Q.
Proof.
  destruct l as [| a l]; [done |]. simpl.
  destruct (fold_min_le l a) as [H1 H2].
  intros [<- | Hx]; [done | by apply H2].
Qed.

Lemma py_max_ge (l : list Q) (x : Q) (fallback : Q) :
  In x l -> (x <= default fallback (py_max l))%Q.
Proof.
  destruct l as [| a l]; [done |]. simpl.
  destruct (fold_max_ge l a) as [H1 H2].
  intros [<- | Hx]; [done | by apply H2].
Qed.

Lemma in_sorted (l : list Q) (x : Q) : In x (sorted l) -> In x l.
Proof. apply Permutation_in, merge_sort_Permutation. Qed.

Lemma lookup_In {A : Type} (l : list A) (i : nat) (x : A) :
  l !! i = Some x -> In x l.
Proof. intros H. apply list_elem_of_In. by eapply list_elem_of_lookup_2. Qed.

Lemma strictly_sorted_head_le (b : Q) (l : list Q) (i : nat) (x : Q) :
  StronglySorted Qlt (b :: l) -> (b :: l) !! i = Some x -> (b <= x)%Q.
Proof.
  intros Hs Hx. apply StronglySorted_inv in Hs as [_ Hall].
  destruct i as [| i]; simpl in Hx.
  - injection Hx as <-. apply Qle_refl.
  - apply Qlt_le_weak. rewrite List.Forall_forall in Hall.
    apply Hall. by eapply lookup_In.
Qed.

Lemma strictly_sorted_next (l : list Q) (i : nat) (x y : Q) :
  StronglySorted Qlt l -> l !! i = Some x -> l !! S i = Some y -> (x < y)%Q.
Proof.
  revert i. induction l as [| b l IH]; intros i Hs Hx Hy; [done |].
  pose proof Hs as Hs'. apply StronglySorted_inv in Hs' as [Hl Hall].
  destruct i as [| i]; simpl in Hx, Hy.
  - injection Hx as <-. rewrite List.Forall_forall in Hall.
    apply Hall. by eapply lookup_In.
  - by eapply IH.
Qed.

Lemma strictly_sorted_le_last (l : list Q) (x cl : Q) :
  StronglySorted Qlt l -> last l = Some cl -> In x l -> (x <= cl)%Q.
Proof.
  induction l as [| b l IH]; intros Hs Hl Hx; [done |].
  apply StronglySorted_inv in Hs as [Hs Hall].
  destruct l as [| b' l].
  - simpl in Hl. injection Hl as <-. destruct Hx as [<- | []]. apply Qle_refl.
  - change (last (b' :: l) = Some cl) in Hl.
    destruct Hx as [<- | Hx]; [| by apply IH].
    apply Qlt_le_weak. rewrite List.Forall_forall in Hall. apply Hall.
    rewrite last_lookup in Hl. by eapply lookup_In.
Qed.

(** A centre inside the interval [i] of strictly ascending bounds is
    found at index [i]. *)
Lemma find_index_some (bounds : list Q) (i k : nat) (lo hi c : Q) :
  StronglySorted Qlt bounds ->
  bounds !! i = Some lo -> bounds !! S i = Some hi ->
  (lo <= c)%Q -> (c < hi)%Q ->
  find_index bounds c k = Some (k + i)%nat.
Proof.
  revert i k. induction bounds as [| b0 rest IH]; intros i k Hs Hlo Hhi Hle Hlt;
    [done |].
  pose proof Hs as Hs'. apply StronglySorted_inv in Hs' as [Hrest _].
  destruct rest as [| b1 rest']; [by destruct i |].
  destruct i as [| i]; simpl in Hlo, Hhi.
  - injection Hlo as <-. injection Hhi as <-. simpl.
    rewrite (bool_decide_eq_true_2 _ Hle), (bool_decide_eq_true_2 _ Hlt).
    simpl. f_equal. lia.
  - assert (b1 <= lo)%Q as Hb1 by (by eapply strictly_sorted_head_le).
    assert (~ (c < b1)%Q) as Hn.
    { apply Qle_not_lt. by eapply Qle_trans. }
    change (find_index (b0 :: b1 :: rest') c k)
      with (if bool_decide (b0 <= c)%Q && bool_decide (c < b1)%Q then Some k
            else find_index (b1 :: rest') c (S k)).
    rewrite (bool_decide_eq_false_2 _ Hn), andb_false_r.
    rewrite (IH i (S k) Hrest Hlo Hhi Hle Hlt). f_equal. lia.
Qed.

(** A centre that no bound exceeds is found nowhere. *)
Lemma find_index_none (bounds : list Q) (k : nat) (c : Q) :
  (forall x, In x bounds -> (x <= c)%Q) -> find_index bounds c k = None.
Proof.
  revert k. induction bounds as [| b0 rest IH]; intros k Hall; [done |].
  destruct rest as [| b1 rest']; [done |].
  change (find_index (b0 :: b1 :: rest') c k)
    with (if bool_decide (b0 <= c)%Q && bool_decide (c < b1)%Q then Some k
          else find_index (b1 :: rest') c (S k)).
  assert (~ (c < b1)%Q) as Hn.
  { apply Qle_not_lt, Hall. right. by left. }
  rewrite (bool_decide_eq_false_2 _ Hn), andb_false_r.
  apply IH. intros x Hx. apply Hall. by right.
Qed.

(** A centre equal to the bound [i], which is not the last one, is
    found at index [i]: the lower bound is inclusive. *)
Lemma find_index_at_bound (bounds : list Q) (i : nat) (b c : Q) :
  StronglySorted Qlt bounds ->
  bounds !! i = Some b -> (i < length bounds - 1)%nat -> (c == b)%Q ->
  find_index bounds c 0 = Some i.
Proof.
  intros Hs Hb Hi Hc.
  destruct (lookup_lt_is_Some_2 bounds (S i)) as [hi Hhi]; [lia |].
  apply (find_index_some bounds i 0 b hi c Hs Hb Hhi).
  - apply Qeq_le. by symmetry.
  - eapply Qle_lt_trans; [by apply Qeq_le |].
    by eapply strictly_sorted_next.
Qed.

(** A centre equal to the last bound is found nowhere: the upper bound
    is exclusive. *)
Lemma find_index_at_last (bounds : list Q) (cl c : Q) :
  StronglySorted Qlt bounds -> last bounds = Some cl -> (c == cl)%Q ->
  find_index bounds c 0 = None.
Proof.
  intros Hs Hl Hc. apply find_index_none. intros x Hx.
  eapply Qle_trans; [by eapply strictly_sorted_le_last |].
  apply Qeq_le. by symmetry.
Qed.

End GridAssignment.

Section BoundaryPolicy.
Import TableExtractor.

Lemma strict_members_eq (l : list Q) (x y : Q) :
  StronglySorted Qlt l -> In x l -> In y l -> (x == y)%Q -> x = y.
Proof.
  induction l as [| b l IH]; intros Hs Hx Hy Hq; [done |].
  apply StronglySorted_inv in Hs as [Hs Hall].
  rewrite List.Forall_forall in Hall.
  destruct Hx as [<- | Hx], Hy as [<- | Hy]; [done | | | by apply IH].
  - exfalso. apply (Qlt_not_eq _ _ (Hall _ Hy)). done.
  - exfalso. apply (Qlt_not_eq _ _ (Hall _ Hx)). by symmetry.
Qed.

Lemma strict_weak (l : list Q) : StronglySorted Qlt l -> StronglySorted Qle l.
Proof.
  induction 1 as [| b l Hs IH Hall]; constructor; [done |].
  eapply List.Forall_impl; [| exact Hall]. intros a. apply Qlt_le_weak.
Qed.

(** Sorting markers that are already in strictly ascending order
    returns them as they are. *)
Lemma sorted_id (l : list Q) : StronglySorted Qlt l -> sorted l = l.
Proof.
  intros Hs. apply (StronglySorted_unique_strong Qle).
  - intros x1 x2 H1 H2 H12 H21.
    apply (strict_members_eq l); [done | | by apply list_elem_of_In |].
    + apply in_sorted. by apply list_elem_of_In.
    + by apply Qle_antisym.
  - apply StronglySorted_merge_sort; apply _.
  - by apply strict_weak.
  - apply merge_sort_Permutation.
Qed.

Lemma cell_count_bounds (l : list Q) :
  (2 <= length l)%nat -> cell_count l = (length l - 1)%nat.
Proof.
  intros H. unfold cell_count.
  destruct (Nat.ltb_spec 1 (length l)); [done | lia].
Qed.

Variables (sep : string) (C R : list Q) (pg : page).
Hypothesis HC : StronglySorted Qlt C.
Hypothesis HR : StronglySorted Qlt R.
Hypothesis HlenC : (2 <= length C)%nat.
Hypothesis HlenR : (2 <= length R)%nat.

(** A fragment whose centre is in column interval [i] and row interval
    [j] lands in the cell of row [j] and column [i]. *)
Lemma assign_fragment_lands (table : list (list string)) (s : span)
      (cx cy : Q) (i j : nat) (clo chi rlo rhi : Q) :
  center s = (cx, cy) ->
  C !! i = Some clo -> C !! S i = Some chi -> (clo <= cx)%Q -> (cx < chi)%Q ->
  R !! j = Some rlo -> R !! S j = Some rhi -> (rlo <= cy)%Q -> (cy < rhi)%Q ->
  assign_fragment sep C R pg table s
  = alter (alter (add_text sep (text s)) i) j table.
Proof.
  intros Hc Hclo Hchi Hx1 Hx2 Hrlo Hrhi Hy1 Hy2.
  unfold assign_fragment, assign_span. rewrite Hc.
  rewrite (sorted_id C HC), (sorted_id R HR).
  assert (inside_table (default 0%Q (py_min C))
            (default (rect_width pg) (py_max C))
            (default 0%Q (py_min R))
            (default (rect_height pg) (py_max R)) cx cy = true) as ->.
  { unfold inside_table. rewrite !andb_true_iff, !bool_decide_eq_true.
    repeat split.
    - eapply Qle_trans; [| exact Hx1]. apply py_min_le. by eapply lookup_In.
    - eapply Qle_trans; [by apply Qlt_le_weak |].
      apply py_max_ge. by eapply lookup_In.
    - eapply Qle_trans; [| exact Hy1]. apply py_min_le. by eapply lookup_In.
    - eapply Qle_trans; [by apply Qlt_le_weak |].
      apply py_max_ge. by eapply lookup_In. }
  simpl negb. cbv iota.
  rewrite (find_index_some C i 0 clo chi cx HC Hclo Hchi Hx1 Hx2).
  rewrite (find_index_some R j 0 rlo rhi cy HR Hrlo Hrhi Hy1 Hy2).
  simpl Nat.add. rewrite !cell_count_bounds by done.
  apply lookup_lt_Some in Hchi, Hrhi.
  assert (Nat.ltb i (length C - 1) = true) as -> by (apply Nat.ltb_lt; lia).
  assert (Nat.ltb j (length R - 1) = true) as -> by (apply Nat.ltb_lt; lia).
  done.
Qed.

(** A fragment for which one of the two searches finds no interval is
    discarded. *)
Lemma assign_fragment_discards (table : list (list string)) (s : span)
      (cx cy : Q) :
  center s = (cx, cy) ->
  find_index C cx 0 = None \/ find_index R cy 0 = None ->
  assign_fragment sep C R pg table s = table.
Proof.
  intros Hc Hnone. unfold assign_fragment, assign_span. rewrite Hc.
  rewrite (sorted_id C HC), (sorted_id R HR).
  destruct (negb _); [done |].
  destruct Hnone as [-> | H]; [done |].
  rewrite H. by destruct (find_index C cx 0).
Qed.

End BoundaryPolicy.

(** C6.  Let the column markers [C] and the row markers [R] be in
    strictly ascending order, each with at least two values, and let a
    fragment have its centre at [(cx, cy)].
    - If [cx] equals [C[i]] with [i < |C| - 1] and [cy] lies in the row
      interval [j], the text is added to the cell of row [j], column
      [i].
    - If [cx] equals the last column marker, no cell is changed.
    - If [cy] equals [R[j]] with [j < |R| - 1] and [cx] lies in the
      column interval [i], the text is added to the cell of row [j],
      column [i].
    - If [cy] equals the last row marker, no cell is changed. *)
Theorem boundary_policy (sep : string) (C R : list Q) (pg : page)
        (table : list (list string)) (s : span) (cx cy : Q) :
  StronglySorted Qlt C -> StronglySorted Qlt R ->
  (2 <= length C)%nat -> (2 <= length R)%nat ->
  TableExtractor.center s = (cx, cy) ->
  (forall (i j : nat) (b rlo rhi : Q),
      C !! i = Some b -> (i < length C - 1)%nat -> (cx == b)%Q ->
      R !! j = Some rlo -> R !! S j = Some rhi ->
      (rlo <= cy)%Q -> (cy < rhi)%Q ->
      TableExtractor.assign_fragment sep C R pg table s
      = alter (alter (TableExtractor.add_text sep (text s)) i) j table)
  /\ (forall cl : Q,
         last C = Some cl -> (cx == cl)%Q ->
         TableExtractor.assign_fragment sep C R pg table s = table)
  /\ (forall (i j : nat) (b clo chi : Q),
         R !! j = Some b -> (j < length R - 1)%nat -> (cy == b)%Q ->
         C !! i = Some clo -> C !! S i = Some chi ->
         (clo <= cx)%Q -> (cx < chi)%Q ->
         TableExtractor.assign_fragment sep C R pg table s
         = alter (alter (TableExtractor.add_text sep (text s)) i) j table)
  /\ (forall rl : Q,
         last R = Some rl -> (cy == rl)%Q ->
         TableExtractor.assign_fragment sep C R pg table s = table).
Proof.
  intros HC HR HlenC HlenR Hc. split; [| split; [| split]].
  - intros i j b rlo rhi Hb Hi Hq Hrlo Hrhi Hy1 Hy2.
    destruct (lookup_lt_is_Some_2 C (S i)) as [chi Hchi]; [lia |].
    apply (assign_fragment_lands sep C R pg HC HR HlenC HlenR table s cx cy
             i j b chi rlo rhi); try done.
    + apply Qeq_le. by symmetry.
    + apply (Qle_lt_trans _ b); [by apply Qeq_le |].
      exact (strictly_sorted_next C i b chi HC Hb Hchi).
  - intros cl Hl Hq.
    apply (assign_fragment_discards sep C R pg HC HR table s cx cy Hc).
    left. by eapply find_index_at_last.
  - intros i j b clo chi Hb Hj Hq Hclo Hchi Hx1 Hx2.
    destruct (lookup_lt_is_Some_2 R (S j)) as [rhi Hrhi]; [lia |].
    apply (assign_fragment_lands sep C R pg HC HR HlenC HlenR table s cx cy
             i j clo chi b rhi); try done.
    + apply Qeq_le. by symmetry.
    + apply (Qle_lt_trans _ b); [by apply Qeq_le |].
      exact (strictly_sorted_next R j b rhi HR Hb Hrhi).
  - intros rl Hl Hq.
    apply (assign_fragment_discards sep C R pg HC HR table s cx cy Hc).
    right. by eapply find_index_at_last.
Qed.

(** Columns 0, 50, 100 and rows 0, 100.  A fragment centred at (50, 20)
    sits on the middle column marker and lands in column 1; a fragment
    centred at (100, 20) sits on the last column marker and is
    discarded. *)
Lemma boundary_policy_witness :
  TableExtractor.assign_fragment TableExtractor.newline_sep
    [0%Q; 50%Q; 100%Q] [0%Q; 100%Q] two_fragment_page
    (TableExtractor.empty_table 1 2) (plain_span "x" 40 10 60 30)
  = [[EmptyString; "x"%string]]
  /\ TableExtractor.assign_fragment TableExtractor.newline_sep
       [0%Q; 50%Q; 100%Q] [0%Q; 100%Q] two_fragment_page
       (TableExtractor.empty_table 1 2) (plain_span "x" 90 10 110 30)
     = TableExtractor.empty_table 1 2.
Proof.
  split.
  - refine (proj1 (boundary_policy TableExtractor.newline_sep
                     [0%Q; 50%Q; 100%Q] [0%Q; 100%Q] two_fragment_page
                     (TableExtractor.empty_table 1 2)
                     (plain_span "x" 40 10 60 30) (100 # 2) (40 # 2)
                     _ _ _ _ _)
              1%nat 0%nat 50%Q 0%Q 100%Q _ _ _ _ _ _ _).
    + repeat constructor.
    + repeat constructor.
    + simpl. lia.
    + simpl. lia.
    + reflexivity.
    + reflexivity.
    + simpl. lia.
    + vm_compute. reflexivity.
    + reflexivity.
    + reflexivity.
    + vm_compute. discriminate.
    + vm_compute. reflexivity.
  - refine (proj1 (proj2 (boundary_policy TableExtractor.newline_sep
                            [0%Q; 50%Q; 100%Q] [0%Q; 100%Q] two_fragment_page
                            (TableExtractor.empty_table 1 2)
                            (plain_span "x" 90 10 110 30) (200 # 2) (40 # 2)
                            _ _ _ _ _))
              100%Q _ _).
    + repeat constructor.
    + repeat constructor.
    + simpl. lia.
    + simpl. lia.
    + reflexivity.
    + reflexivity.
    + vm_compute. reflexivity.
Defined.

(** ** Separator of the single-page extraction *)

(** C3 fails in [extract_table].  With two fragments "a" and "b" in one
    cell and the space mode chosen in the dialog, [extract_table] joins
    them with a newline, where [_extract_table_data] on the same page and
    markers joins them with a space; the grid of [extract_table] is the
    same whichever mode was chosen. *)
Theorem extract_table_ignores_mode :
  table_data
    (TableExtractor.extract_table TableExtractor.space false two_fragment_app)
  = [[String "a" (String PyStr.nl (String "b" EmptyString))]]
  /\ TableExtractor._extract_table_data TableExtractor.space two_fragment_app 0
     = Some [["a b"%string]]
  /\ TableExtractor._extract_table_data TableExtractor.newline
       two_fragment_app 0
     = Some [[String "a" (String PyStr.nl (String "b" EmptyString))]]
  /\ forall (answer_yes : bool) (app : App),
       TableExtractor.extract_table TableExtractor.space answer_yes app
       = TableExtractor.extract_table TableExtractor.newline answer_yes app.
Proof.
  split; [vm_compute; reflexivity |].
  split; [vm_compute; reflexivity |].
  split; [vm_compute; reflexivity |].
  reflexivity.
Qed.

(** In the per-page extraction a fragment that lands in a cell with
    content is appended behind the separator of the chosen mode: a space
    in space mode, a newline in newline mode. *)
Lemma add_text_appends (mode : TableExtractor.extraction_mode_t)
      (txt cell : string) :
  PyStr.truthy cell = true ->
  TableExtractor.add_text (TableExtractor.separator mode) txt cell
  = (cell +:+ TableExtractor.separator mode +:+ txt)%string
  /\ TableExtractor.separator TableExtractor.space = " "%string
  /\ TableExtractor.separator TableExtractor.newline
     = String PyStr.nl EmptyString.
Proof.
  intros H. unfold TableExtractor.add_text. rewrite H. by repeat split.
Qed.

(** ** The multi-page pass *)

Section MarkedPages.
Import TableExtractor.

Lemma assign_span_dims (min_x max_x min_y max_y : Q) (cb rb : list Q)
      (nc nr : nat) (sep : string) (n : nat) (table : list (list string))
      (s : span) :
  let table' := assign_span min_x max_x min_y max_y cb rb nc nr sep table s in
  length table' = length table
  /\ (Forall (fun r => length r = n) table ->
      Forall (fun r => length r = n) table').
Proof.
  unfold assign_span. destruct (center s) as [cx cy].
  destruct (negb _); [done |].
  destruct (find_index cb cx 0) as [ci |]; [| done].
  destruct (find_index rb cy 0) as [ri |]; [| done].
  destruct (_ && _); [| done]. split.
  - apply length_alter.
  - intros H. apply Forall_alter; [done |].
    intros r _ Hr. by rewrite length_alter.
Qed.

Lemma fold_assign_dims (sep : string) (cm rm : list Q) (pg : page)
      (n : nat) (spans : list span) (table : list (list string)) :
  let table' := fold_left (assign_fragment sep cm rm pg) spans table in
  length table' = length table
  /\ (Forall (fun r => length r = n) table ->
      Forall (fun r => length r = n) table').
Proof.
  revert table. induction spans as [| s spans IH]; intros table; simpl; [done |].
  destruct (IH (assign_fragment sep cm rm pg table s)) as [IH1 IH2].
  unfold assign_fragment in *.
  destruct (assign_span_dims (default 0%Q (py_min cm))
              (default (rect_width pg) (py_max cm)) (default 0%Q (py_min rm))
              (default (rect_height pg) (py_max rm)) (sorted cm) (sorted rm)
              (cell_count (sorted cm)) (cell_count (sorted rm)) sep n table s)
    as [H1 H2].
  split; [by rewrite IH1 | auto].
Qed.

Lemma build_table_dims (sep : string) (cm rm : list Q) (pg : page)
      (blocks : list block) :
  length (build_table sep cm rm pg blocks) = cell_count (sorted rm)
  /\ Forall (fun r => length r = cell_count (sorted cm))
       (build_table sep cm rm pg blocks).
Proof.
  unfold build_table.
  destruct (fold_assign_dims sep cm rm pg (cell_count (sorted cm))
              (spans_of blocks)
              (empty_table (cell_count (sorted rm)) (cell_count (sorted cm))))
    as [H1 H2].
  split.
  - rewrite H1. apply length_replicate.
  - apply H2. apply Forall_replicate. apply length_replicate.
Qed.

Lemma cell_count_pos (l : list Q) : (1 <= cell_count l)%nat.
Proof. unfold cell_count. destruct (Nat.ltb_spec 1 (length l)); lia. Qed.

Lemma extract_table_data_nonempty (mode : extraction_mode_t) (app : App)
      (i : nat) (g : list (list string)) :
  _extract_table_data mode app i = Some g -> g <> [].
Proof.
  unfold _extract_table_data.
  destruct (load_page app i) as [pg |]; [| done].
  destruct (get_text pg) as [blocks |]; [| done].
  intros [= <-] Hnil.
  pose proof (proj1 (build_table_dims (separator mode) (column_markers app)
                       (row_markers app) pg blocks)) as Hlen.
  rewrite Hnil in Hlen. simpl in Hlen.
  pose proof (cell_count_pos (sorted (row_markers app))). lia.
Qed.

Lemma update_page_display_spec (app1 app2 : App) (d : page_marker_data) :
  page_markers app1 !! current_page app1 = Some d ->
  column_markers app1 = columns d -> row_markers app1 = rows d ->
  update_page_display app1 = Some app2 ->
  same_document app1 app2
  /\ column_markers app2 = columns d /\ row_markers app2 = rows d
  /\ (no_document app1 = false -> is_Some (load_page app1 (current_page app1))).
Proof.
  intros Hd Hc Hr. unfold update_page_display.
  destruct (no_document app1).
  - intros [= <-]. by repeat split.
  - destruct (load_page app1 (current_page app1)) as [pg |]; [| done].
    rewrite Hd. intros [= <-]. by repeat split.
Qed.

Lemma extract_pages_spec (mode : extraction_mode_t) (app0 : App)
      (pages : list nat) (app app' : App)
      (acc tables : list (list (list string))) :
  same_document app0 app ->
  extract_pages mode pages app acc = Some (app', tables) ->
  tables = acc ++ omap (page_grid mode app0) pages
  /\ (no_document app0 = false ->
      Forall (fun i => is_Some (load_page app0 i)) pages).
Proof.
  revert app acc. induction pages as [| i pages IH]; intros app acc [Hdoc Hpm]; simpl.
  - intros [= _ <-]. split; [by rewrite app_nil_r | by constructor].
  - destruct (page_markers app !! i) as [d |] eqn:Hd; [| done].
    set (app1 := set_current_page i _).
    destruct (update_page_display app1) as [app2 |] eqn:Hupd; [| done].
    destruct (update_page_display_spec app1 app2 d) as ([Hdoc2 Hpm2] & Hc2 & Hr2 & Hload);
      [done | done | done | done |].
    intros Hrun. apply IH in Hrun as [Htab Hall].
    2:{ split; [by rewrite Hdoc2 | by rewrite Hpm2]. }
    assert (_extract_table_data mode app2 i = page_grid mode app0 i) as Hgrid.
    { unfold page_grid. rewrite <- Hpm, Hd.
      unfold _extract_table_data, load_page. simpl.
      rewrite Hdoc2, Hc2, Hr2. simpl. by rewrite Hdoc. }
    split.
    + rewrite Htab, Hgrid.
      destruct (page_grid mode app0 i) as [g |] eqn:Hg; [| done].
      apply extract_table_data_nonempty in Hgrid.
      destruct g as [| r g]; [done |]. by rewrite <- app_assoc.
    + intros Hnd. constructor; [| by apply Hall].
      assert (no_document app1 = false) as Hnd1.
      { unfold no_document in *. simpl. by rewrite Hdoc. }
      specialize (Hload Hnd1). unfold load_page in *. simpl in Hload.
      by rewrite Hdoc in Hload.
Qed.

Lemma marked_pages_spec (app : App) :
  Sorted Nat.le (marked_pages app)
  /\ NoDup (marked_pages app)
  /\ (forall i, In i (marked_pages app) <-> is_Some (page_markers app !! i))
  /\ length (marked_pages app) = size (page_markers app).
Proof.
  unfold marked_pages.
  pose proof (merge_sort_Permutation Nat.le (elements (dom (page_markers app))))
    as Hperm.
  split; [apply Sorted_merge_sort; apply _ |].
  split; [rewrite Hperm; apply NoDup_elements |].
  split.
  - intros i. rewrite <- list_elem_of_In, Hperm, elem_of_elements.
    apply elem_of_dom.
  - rewrite Hperm. rewrite <- size_dom. done.
Qed.

Lemma length_omap_le {A B : Type} (f : A -> option B) (l : list A) :
  (length (omap f l) <= length l)%nat.
Proof. induction l as [| a l IH]; [done |]. cbn. destruct (f a); cbn; lia. Qed.

Lemma length_omap_all {A B : Type} (f : A -> option B) (l : list A) :
  Forall (fun a => is_Some (f a)) l -> length (omap f l) = length l.
Proof.
  induction 1 as [| a l [b Hb] _ IH]; [done |]. cbn. rewrite Hb. cbn. lia.
Qed.

End MarkedPages.

(** C1, as stated, fails on [two_marked_pages_app]: two pages are marked,
    the text of the second cannot be read, [_extract_table_data] returns
    [None] for it, and the list handed to the merge step holds one grid
    only. *)
Lemma unreadable_marked_page_is_skipped :
  size (page_markers two_marked_pages_app) = 2%nat
  /\ TableExtractor.marked_pages two_marked_pages_app = [0%nat; 1%nat]
  /\ page_grid TableExtractor.space two_marked_pages_app 1 = None
  /\ snd (TableExtractor.extract_from_marked_pages TableExtractor.space
            (Some (TableExtractor.vertical, false)) two_marked_pages_app)
     = TableExtractor.run_extracted [[["a b"%string]]] [["a b"%string]].
Proof. repeat split; vm_compute; reflexivity. Qed.

(** C1, amended.  In every run of [extract_from_marked_pages] that
    reaches the merge step, the list handed to it holds, in ascending
    page order, the grid of each marked page whose extraction returned a
    grid; a marked page whose extraction failed is skipped.  The grid
    count is therefore at most the marked-page count, and equals it when
    the text of every marked page can be read.  The grid of a page has
    the dimensions implied by the page's own markers, and a page without
    text spans contributes the empty grid of those dimensions. *)
Theorem marked_pages_grids (mode : TableExtractor.extraction_mode_t)
        (options : option (TableExtractor.merge_mode_t * bool)) (app : App)
        (all_tables : list (list (list string)))
        (merged_table : list (list string)) :
  snd (TableExtractor.extract_from_marked_pages mode options app)
  = TableExtractor.run_extracted all_tables merged_table ->
  let pages := TableExtractor.marked_pages app in
  Sorted Nat.le pages
  /\ NoDup pages
  /\ (forall i, In i pages <-> is_Some (page_markers app !! i))
  /\ all_tables = omap (page_grid mode app) pages
  /\ (length all_tables <= size (page_markers app))%nat
  /\ ((forall i pg, In i pages -> load_page app i = Some pg ->
                    is_Some (get_text pg)) ->
      length all_tables = size (page_markers app))
  /\ (forall i d g,
         page_markers app !! i = Some d -> page_grid mode app i = Some g ->
         length g = TableExtractor.cell_count (sorted (rows d))
         /\ Forall (fun r => length r
                             = TableExtractor.cell_count (sorted (columns d))) g)
  /\ (forall i d pg blocks,
         page_markers app !! i = Some d -> load_page app i = Some pg ->
         get_text pg = Some blocks -> spans_of blocks = [] ->
         page_grid mode app i
         = Some (TableExtractor.empty_table
                   (TableExtractor.cell_count (sorted (rows d)))
                   (TableExtractor.cell_count (sorted (columns d))))).
Proof.
  intros Hrun pages.
  destruct (marked_pages_spec app) as (Hsorted & Hnodup & Hmem & Hlen).
  assert (no_document app = false
          /\ exists app',
              TableExtractor.extract_pages mode pages app [] = Some (app', all_tables))
    as [Hnd (app' & Hloop)].
  { unfold TableExtractor.extract_from_marked_pages in Hrun.
    destruct (no_document app); [done |]. split; [done |].
    case_bool_decide; [done |].
    destruct options as [[merge_mode do_transpose] |]; [| done].
    fold pages in Hrun.
    destruct (TableExtractor.extract_pages mode pages app [])
      as [[app' tabs] |]; [| done].
    exists app'. destruct tabs as [| tb tabs]; [done |].
    destruct (match merge_mode with
              | TableExtractor.vertical => _
              | TableExtractor.horizontal => _
              end) as [| r m]; [destruct do_transpose |];
      simpl in Hrun; by simplify_eq. }
  destruct (extract_pages_spec mode app pages app app' [] all_tables)
    as [Htab Hload]; [done | done |].
  simpl in Htab. specialize (Hload Hnd).
  split; [done |]. split; [done |]. split; [done |]. split; [done |].
  split; [| split; [| split]].
  - rewrite Htab, <- Hlen. apply length_omap_le.
  - intros Hread. rewrite Htab, <- Hlen. apply length_omap_all.
    rewrite List.Forall_forall in Hload. apply List.Forall_forall.
    intros i Hi. destruct (Hload i Hi) as [pg Hpg].
    destruct (Hread i pg Hi Hpg) as [blocks Hb].
    apply Hmem in Hi as [d Hd].
    unfold page_grid, TableExtractor._extract_table_data. rewrite Hd.
    unfold load_page in *. simpl. rewrite Hpg, Hb. by eexists.
  - intros i d g Hd. unfold page_grid, TableExtractor._extract_table_data.
    rewrite Hd. destruct (load_page _ i) as [pg |]; [| done].
    destruct (get_text pg) as [blocks |]; [| done].
    intros [= <-]. simpl. apply build_table_dims.
  - intros i d pg blocks Hd Hpg Hb Hsp.
    unfold page_grid, TableExtractor._extract_table_data. rewrite Hd.
    unfold load_page in *. simpl. rewrite Hpg, Hb.
    unfold TableExtractor.build_table. by rewrite Hsp.
Qed.

(** The run on [two_marked_pages_app] reaches the merge step. *)
Lemma marked_pages_grids_witness :
  [[["a b"%string]]]
  = omap (page_grid TableExtractor.space two_marked_pages_app)
      (TableExtractor.marked_pages two_marked_pages_app).
Proof.
  refine (proj1 (proj2 (proj2 (proj2
            (marked_pages_grids TableExtractor.space
               (Some (TableExtractor.vertical, false)) two_marked_pages_app
               [[["a b"%string]]] [["a b"%string]] _))))).
  vm_compute. reflexivity.
Defined.

(** ** Orientation analysis and correction *)

(** C4 fails in [_analyze_text_orientation]: whatever the grid and the
    document, it answers either [(False, None)] or [(True, "vertical")],
    so [correct_text_orientation] never reaches the right-to-left or the
    flipped correction.  On [rtl_app] the geometry check itself reports
    right-to-left text, and the analyser still reports no issue. *)
Theorem analyzer_reports_vertical_only :
  (forall app : App,
      Orientation._analyze_text_orientation app = (false, None)
      \/ Orientation._analyze_text_orientation app
         = (true, Some Orientation.vertical))
  /\ (forall (self : Orientation.t) (app : App),
         let out := snd (Orientation.correct_text_orientation self app) in
         out = Orientation.no_table_data \/ out = Orientation.no_issue
         \/ out = Orientation.corrected (Some Orientation.vertical))
  /\ Orientation.detect_text_orientation_from_pdf rtl_app
     = (true, Some Orientation.rtl)
  /\ Orientation._analyze_text_orientation rtl_app = (false, None)
  /\ snd (Orientation.correct_text_orientation fresh_corrector rtl_app)
     = Orientation.no_issue.
Proof.
  assert (forall app : App,
             Orientation._analyze_text_orientation app = (false, None)
             \/ Orientation._analyze_text_orientation app
                = (true, Some Orientation.vertical)) as Hana.
  { intros app. unfold Orientation._analyze_text_orientation.
    destruct (Nat.ltb _ 20); [by left |].
    destruct (Nat.leb 5 _); [by right | by left]. }
  split; [exact Hana |]. split.
  - intros self app. unfold Orientation.correct_text_orientation.
    destruct (table_data app) as [| r t]; [by left |].
    destruct (Hana app) as [-> | ->]; simpl; [by right; left | by right; right].
  - repeat split; vm_compute; reflexivity.
Qed.

(** C7.  Vertical correction turns the cell ["e\nl\nb\na\nT"] into
    ["Table"].  On the corrected grid the analyser reports no issue,
    whatever the document behind it: the text scores 0 on the textual
    indicators, and it is shorter than the 20 characters below which the
    analyser reports no issue without scoring.  A second run of
    [correct_text_orientation] therefore leaves the grid as it is. *)
Theorem vertical_correction_is_not_retriggered (self : Orientation.t)
        (app : App) :
  let stacked := set_table_data [[stacked_table_cell]] app in
  let fixed := snd (Orientation._correct_vertical_text self stacked) in
  table_data fixed = [["Table"%string]]
  /\ Orientation.vertical_indicators
       (Orientation.all_text_of (table_data fixed)) (false, None) = 0%nat
  /\ Orientation._analyze_text_orientation fixed = (false, None)
  /\ snd (Orientation.correct_text_orientation
            (fst (Orientation._correct_vertical_text self stacked)) fixed)
     = Orientation.no_issue
  /\ table_data
       (snd (fst (Orientation.correct_text_orientation
                    (fst (Orientation._correct_vertical_text self stacked))
                    fixed)))
     = [["Table"%string]].
Proof.
  intros stacked fixed.
  assert (table_data fixed = [["Table"%string]]) as Htab
    by (vm_compute; reflexivity).
  assert (Orientation._analyze_text_orientation fixed = (false, None)) as Hana.
  { unfold Orientation._analyze_text_orientation. rewrite Htab.
    vm_compute. reflexivity. }
  split; [exact Htab |]. split; [rewrite Htab; vm_compute; reflexivity |].
  split; [exact Hana |].
  unfold Orientation.correct_text_orientation. rewrite Htab, Hana. by split.
Qed.

Section VerticalFrame.

Lemma correct_vertical_cell_frame (cell : string) :
  cell = EmptyString \/ (String.length cell < 3)%nat
  \/ PyStr.isdigit cell = true ->
  Orientation.correct_vertical_cell cell = cell.
Proof.
  intros H. unfold Orientation.correct_vertical_cell.
  destruct (PyStr.truthy cell) eqn:Ht; [| done]. simpl.
  destruct H as [-> | [H | H]]; [done | |].
  - apply Nat.ltb_lt in H. by rewrite H.
  - by rewrite H, orb_true_r.
Qed.

Lemma lookup_map {A B : Type} (f : A -> B) (l : list A) (i : nat) :
  map f l !! i = option_map f (l !! i).
Proof.
  revert i. induction l as [| a l IH]; intros [| i]; simpl; auto.
Qed.

Lemma cell_at_map (f : string -> string) (table : list (list string))
      (r c : nat) :
  cell_at (map (map f) table) r c = option_map f (cell_at table r c).
Proof.
  unfold cell_at. rewrite lookup_map.
  destruct (table !! r) as [cells |]; [| done]. simpl. apply lookup_map.
Qed.

End VerticalFrame.

(** C9.  [_correct_vertical_text] keeps the shape of the grid and leaves
    a cell as it is when the cell is empty, has fewer than 3 characters
    or consists of digits only; a cell that it rewrites is non-empty, has
    at least 3 characters and is not all digits. *)
Theorem vertical_correction_frame (self : Orientation.t) (app : App)
        (r c : nat) (cell : string) :
  cell_at (table_data app) r c = Some cell ->
  let table' := table_data (snd (Orientation._correct_vertical_text self app)) in
  length table' = length (table_data app)
  /\ (cell = EmptyString \/ (String.length cell < 3)%nat
      \/ PyStr.isdigit cell = true ->
      cell_at table' r c = Some cell)
  /\ (cell_at table' r c <> Some cell ->
      cell <> EmptyString /\ (3 <= String.length cell)%nat
      /\ PyStr.isdigit cell = false).
Proof.
  intros Hcell table'. subst table'.
  unfold Orientation._correct_vertical_text, Orientation.correct_with.
  simpl. rewrite cell_at_map, Hcell. simpl.
  split; [apply length_map |]. split.
  - intros H. by rewrite correct_vertical_cell_frame.
  - intros Hne.
    destruct (decide (cell = EmptyString)) as [-> | Hn].
    { exfalso. apply Hne. by rewrite correct_vertical_cell_frame; [| left]. }
    destruct (le_lt_dec 3 (String.length cell)) as [Hl | Hl].
    2:{ exfalso. apply Hne.
        by rewrite correct_vertical_cell_frame; [| right; left]. }
    destruct (PyStr.isdigit cell) eqn:Hd; [| done].
    exfalso. apply Hne. by rewrite correct_vertical_cell_frame; [| right; right].
Qed.

(** A grid with a number, an empty cell, a two-letter cell and a stacked
    word: the first three stay, the fourth is rewritten. *)
Lemma vertical_correction_frame_witness :
  cell_at
    (table_data
       (snd (Orientation._correct_vertical_text fresh_corrector
               (set_table_data
                  [["2024"; ""; "ab"; stacked_table_cell]%string] rtl_app))))
    0 0
  = Some "2024"%string.
Proof.
  refine (proj1 (proj2 (vertical_correction_frame fresh_corrector
                          (set_table_data
                             [["2024"; ""; "ab"; stacked_table_cell]%string]
                             rtl_app)
                          0 0 "2024" _)) _).
  - reflexivity.
  - right. right. vm_compute. reflexivity.
Defined.

(** * Further properties *)

(** ** Line clustering: what the representatives look like *)

Section ClusterRepresentatives.
Import LineDetector.

Lemma strongly_sorted_sublist {A : Type} (R : relation A) (l1 l2 : list A) :
  l1 `sublist_of` l2 -> StronglySorted R l2 -> StronglySorted R l1.
Proof.
  induction 1 as [| x l1 l2 Hsub IH | x l1 l2 Hsub IH]; intros Hs; [done | |].
  - apply StronglySorted_inv in Hs as [Hs Hall]. constructor; [by apply IH |].
    rewrite List.Forall_forall in *. intros y Hy. apply Hall.
    apply list_elem_of_In. eapply elem_of_sublist; [| exact Hsub].
    by apply list_elem_of_In.
  - apply StronglySorted_inv in Hs as [Hs _]. by apply IH.
Qed.

Lemma representative_elem (c : list Z) : c <> [] -> representative c ∈ c.
Proof.
  intros Hne. eapply list_elem_of_lookup_2. by apply representative_lookup.
Qed.

Lemma representatives_sublist (cs : list (list Z)) :
  Forall (fun c => c <> []) cs ->
  map representative cs `sublist_of` concat cs.
Proof.
  induction 1 as [| c cs Hc _ IH]; simpl; [constructor |].
  change (representative c :: map representative cs)
    with ([representative c] ++ map representative cs).
  apply sublist_app; [| done].
  apply singleton_sublist_l. by apply representative_elem.
Qed.

Lemma clusters_nonempty (lines : list Z) (t : Z) :
  Forall (fun c => c <> []) (clusters_of lines t).
Proof.
  unfold clusters_of. destruct (sortedZ lines) as [| x rest]; [constructor |].
  by apply group_nonempty.
Qed.

Lemma clusters_concat (lines : list Z) (t : Z) :
  concat (clusters_of lines t) = sortedZ lines.
Proof.
  unfold clusters_of. destruct (sortedZ lines) as [| x rest]; [done |].
  apply group_concat.
Qed.

Lemma clusters_far_apart (lines : list Z) (t : Z) :
  far_apart t (clusters_of lines t).
Proof.
  unfold clusters_of. destruct (sortedZ lines) as [| x rest].
  - intros i c1 c2 a b H1. destruct i; discriminate.
  - by apply group_far_apart.
Qed.

Lemma sortedZ_strongly (l : list Z) : StronglySorted Z.le (sortedZ l).
Proof. apply StronglySorted_merge_sort; apply _. Qed.

Lemma sortedZ_id (l : list Z) : Sorted Z.le l -> sortedZ l = l.
Proof.
  intros Hs. apply (Sorted_unique Z.le); [| done | apply merge_sort_Permutation].
  apply Sorted_merge_sort. apply _.
Qed.

Lemma concat_parts_sorted (cs : list (list Z)) :
  StronglySorted Z.le (concat cs) -> Forall (StronglySorted Z.le) cs.
Proof.
  induction cs as [| c cs IH]; simpl; intros Hs; [constructor |].
  apply StronglySorted_app in Hs as (_ & Hc & Hcs). constructor; auto.
Qed.

Lemma sorted_le_last (c : list Z) (k : nat) (x l : Z) :
  StronglySorted Z.le c -> c !! k = Some x -> last c = Some l -> x <= l.
Proof.
  revert k. induction c as [| a c IH]; intros k Hs Hx Hl; [done |].
  apply StronglySorted_inv in Hs as [Hs Hall].
  destruct c as [| b c].
  - destruct k; simpl in *; [| done]. by simplify_eq.
  - change (last (b :: c) = Some l) in Hl. destruct k as [| k]; simpl in Hx.
    + injection Hx as <-. rewrite List.Forall_forall in Hall. apply Hall.
      apply list_elem_of_In. rewrite last_lookup in Hl.
      by eapply list_elem_of_lookup_2.
    + by eapply IH.
Qed.

Lemma sorted_head_le (c : list Z) (k : nat) (x h : Z) :
  StronglySorted Z.le c -> c !! k = Some x -> head c = Some h -> h <= x.
Proof.
  intros Hs Hx Hh. destruct c as [| a c]; [done |]. simpl in Hh.
  injection Hh as <-. apply StronglySorted_inv in Hs as [_ Hall].
  destruct k as [| k]; simpl in Hx; [by simplify_eq |].
  rewrite List.Forall_forall in Hall. apply Hall.
  apply list_elem_of_In. by eapply list_elem_of_lookup_2.
Qed.

Lemma nonempty_ends (c : list Z) :
  c <> [] -> exists h l, head c = Some h /\ last c = Some l.
Proof.
  intros Hne. destruct c as [| a c]; [done |]. exists a.
  destruct (last (a :: c)) as [l |] eqn:E; [by exists l |].
  by apply last_None in E.
Qed.

(** Lines that are pairwise more than the threshold apart form one
    cluster each. *)
Lemma group_singletons (t : Z) (rest : list Z) (a : Z) :
  (forall (i : nat) (x y : Z),
      (a :: rest) !! i = Some x -> (a :: rest) !! S i = Some y -> t < y - x) ->
  group t [a] a rest = map (fun x => [x]) (a :: rest).
Proof.
  revert a. induction rest as [| b rest IH]; intros a Hgap; [done |].
  simpl. rewrite bool_decide_eq_false_2.
  - f_equal. apply IH. intros i x y Hx Hy. by apply (Hgap (S i)).
  - specialize (Hgap 0%nat a b eq_refl eq_refl). lia.
Qed.

Lemma representatives_sublist_sorted (lines : list Z) (t : Z) :
  cluster_lines lines t `sublist_of` sortedZ lines.
Proof.
  rewrite <- clusters_concat with (t := t).
  apply representatives_sublist, clusters_nonempty.
Qed.

Lemma representatives_sorted (lines : list Z) (t : Z) :
  Sorted Z.le (cluster_lines lines t).
Proof.
  apply StronglySorted_Sorted.
  eapply strongly_sorted_sublist;
    [apply representatives_sublist_sorted | apply sortedZ_strongly].
Qed.

Lemma representatives_gaps (lines : list Z) (t : Z) (i : nat) (a b : Z) :
  cluster_lines lines t !! i = Some a ->
  cluster_lines lines t !! S i = Some b ->
  t < b - a.
Proof.
  intros Ha Hb. unfold cluster_lines in Ha, Hb.
  rewrite lookup_map in Ha, Hb.
  destruct (clusters_of lines t !! i) as [c1 |] eqn:E1; [| done].
  destruct (clusters_of lines t !! S i) as [c2 |] eqn:E2; [| done].
  simpl in Ha, Hb. injection Ha as <-. injection Hb as <-.
  pose proof (clusters_nonempty lines t) as Hne.
  assert (Forall (StronglySorted Z.le) (clusters_of lines t)) as Hparts.
  { apply concat_parts_sorted. rewrite clusters_concat. apply sortedZ_strongly. }
  rewrite List.Forall_forall in Hne, Hparts.
  assert (In c1 (clusters_of lines t)) as Hin1
    by (apply list_elem_of_In; by eapply list_elem_of_lookup_2).
  assert (In c2 (clusters_of lines t)) as Hin2
    by (apply list_elem_of_In; by eapply list_elem_of_lookup_2).
  destruct (nonempty_ends c1 (Hne _ Hin1)) as (h1 & l1 & _ & Hl1).
  destruct (nonempty_ends c2 (Hne _ Hin2)) as (h2 & l2 & Hh2 & _).
  pose proof (sorted_le_last c1 _ _ l1 (Hparts _ Hin1)
                (representative_lookup c1 (Hne _ Hin1)) Hl1).
  pose proof (sorted_head_le c2 _ _ h2 (Hparts _ Hin2)
                (representative_lookup c2 (Hne _ Hin2)) Hh2).
  pose proof (clusters_far_apart lines t i c1 c2 l1 h2 E1 E2 Hl1 Hh2). lia.
Qed.

Lemma singleton_representatives (l : list Z) :
  map representative (map (fun x => [x]) l) = l.
Proof. induction l as [| x l IH]; [done |]. simpl. by f_equal. Qed.

End ClusterRepresentatives.

(** X1.  Every line reported by [cluster_lines] is one of the
    candidates, there are at most as many reported lines as candidates,
    the reported lines are in ascending order, and two neighbouring
    reported lines are more than the threshold apart. *)
Theorem cluster_lines_separated (lines : list Z) (t : Z) :
  (forall r, In r (LineDetector.cluster_lines lines t) -> In r lines)
  /\ (length (LineDetector.cluster_lines lines t) <= length lines)%nat
  /\ Sorted Z.le (LineDetector.cluster_lines lines t)
  /\ (forall (i : nat) (a b : Z),
         LineDetector.cluster_lines lines t !! i = Some a ->
         LineDetector.cluster_lines lines t !! S i = Some b ->
         t < b - a).
Proof.
  pose proof (representatives_sublist_sorted lines t) as Hsub.
  split; [| split; [| split]].
  - intros r Hr. apply (Permutation_in _ (merge_sort_Permutation Z.le lines)).
    apply list_elem_of_In. eapply elem_of_sublist; [| exact Hsub].
    by apply list_elem_of_In.
  - apply sublist_length in Hsub. unfold sortedZ in Hsub.
    by rewrite (Permutation_length (merge_sort_Permutation Z.le lines)) in Hsub.
  - apply representatives_sorted.
  - apply representatives_gaps.
Qed.

(** X2.  Clustering is idempotent: clustering the reported lines again
    with the same threshold reports the same lines. *)
Theorem cluster_lines_idempotent (lines : list Z) (t : Z) :
  LineDetector.cluster_lines (LineDetector.cluster_lines lines t) t
  = LineDetector.cluster_lines lines t.
Proof.
  pose proof (representatives_sorted lines t) as Hsorted.
  pose proof (representatives_gaps lines t) as Hgap.
  set (out := LineDetector.cluster_lines lines t) in *.
  unfold LineDetector.cluster_lines at 1, LineDetector.clusters_of.
  rewrite (sortedZ_id out Hsorted).
  destruct out as [| a rest]; [done |].
  rewrite (group_singletons t rest a Hgap).
  apply singleton_representatives.
Qed.

(** ** The marker lists hold no value twice *)

Section MarkerUniqueness.

Lemma occurrences_cons (x y : Q) (l : list Q) :
  occurrences x (y :: l)
  = ((if bool_decide (y == x)%Q then 1 else 0) + occurrences x l)%nat.
Proof.
  unfold occurrences. rewrite filter_cons.
  case_bool_decide as H; destruct (decide (y == x)%Q); simpl; done.
Qed.

Lemma occurrences_app (x : Q) (l1 l2 : list Q) :
  occurrences x (l1 ++ l2) = (occurrences x l1 + occurrences x l2)%nat.
Proof. unfold occurrences. by rewrite filter_app, length_app. Qed.

Lemma occurrences_perm (x : Q) (l l' : list Q) :
  Permutation l l' -> occurrences x l = occurrences x l'.
Proof.
  induction 1 as [| y l l' _ IH | y z l | l l' l'' _ IH1 _ IH2].
  - done.
  - rewrite !occurrences_cons. by rewrite IH.
  - rewrite !occurrences_cons. lia.
  - by rewrite IH1.
Qed.

Lemma occurrences_eq (x x' : Q) (l : list Q) :
  (x == x')%Q -> occurrences x l = occurrences x' l.
Proof.
  intros Hq. induction l as [| y l IH]; [done |].
  rewrite !occurrences_cons, IH. f_equal.
  do 2 case_bool_decide; try done.
  - exfalso. apply H0. by rewrite <- Hq.
  - exfalso. apply H. by rewrite Hq.
Qed.

Lemma py_in_occurrences (x : Q) (l : list Q) :
  py_in x l = false <-> occurrences x l = 0%nat.
Proof.
  induction l as [| y l IH]; [done |].
  rewrite occurrences_cons. unfold py_in in *. simpl.
  case_bool_decide; simpl; [split; [done | lia] | exact IH].
Qed.

Lemma strict_occurrences (l : list Q) (x : Q) :
  StronglySorted Qlt l -> (occurrences x l <= 1)%nat.
Proof.
  induction 1 as [| a l Hs IH Hall]; [cbv; lia |].
  rewrite occurrences_cons. case_bool_decide as Hq; [| lia].
  assert (occurrences x l = 0%nat) as ->; [| lia].
  clear IH Hs. induction Hall as [| b l Hb _ IH]; [done |].
  rewrite occurrences_cons, IH. rewrite bool_decide_eq_false_2; [done |].
  intros Hbx. apply (Qlt_not_eq _ _ Hb). by rewrite Hq, Hbx.
Qed.

Lemma occurrences_strict (l : list Q) :
  StronglySorted Qle l -> (forall x, (occurrences x l <= 1)%nat) ->
  StronglySorted Qlt l.
Proof.
  induction 1 as [| a l Hs IH Hall]; intros Hocc; [constructor |].
  constructor.
  - apply IH. intros x. specialize (Hocc x). rewrite occurrences_cons in Hocc. lia.
  - specialize (Hocc a). rewrite occurrences_cons in Hocc.
    rewrite (bool_decide_eq_true_2 _ (Qeq_refl a)) in Hocc.
    assert (occurrences a l = 0%nat) as H0 by lia. clear Hocc IH Hs.
    induction Hall as [| b l Hb _ IH]; [constructor |].
    rewrite occurrences_cons in H0. constructor.
    + apply Qle_lteq in Hb as [Hlt | Heq]; [done |].
      rewrite bool_decide_eq_true_2 in H0; [lia | by symmetry].
    + apply IH. lia.
Qed.

(** Appending a value that is not in the list keeps the values apart. *)
Lemma occurrences_push (v : Q) (l : list Q) :
  (forall x, (occurrences x l <= 1)%nat) -> py_in v l = false ->
  forall x, (occurrences x (l ++ [v]) <= 1)%nat.
Proof.
  intros Hocc Hv x. rewrite occurrences_app, occurrences_cons.
  case_bool_decide as Hq; simpl.
  - apply py_in_occurrences in Hv. rewrite (occurrences_eq _ _ _ Hq) in Hv.
    rewrite Hv. simpl. unfold occurrences. simpl. lia.
  - specialize (Hocc x). unfold occurrences at 2. simpl. lia.
Qed.

Lemma sorted_strict (l : list Q) :
  (forall x, (occurrences x l <= 1)%nat) -> StronglySorted Qlt (sorted l).
Proof.
  intros Hocc. apply occurrences_strict.
  - apply StronglySorted_merge_sort; apply _.
  - intros x. unfold sorted.
    by rewrite (occurrences_perm x _ _ (merge_sort_Permutation Qle l)).
Qed.

Lemma py_remove_strict (x : Q) (l l' : list Q) :
  StronglySorted Qlt l -> py_remove x l = Some l' -> StronglySorted Qlt l'.
Proof.
  revert l'. induction l as [| y l IH]; simpl; intros l' Hs Hr; [done |].
  apply StronglySorted_inv in Hs as [Hs Hall].
  case_bool_decide.
  - by injection Hr as <-.
  - destruct (py_remove x l) as [r |] eqn:Er; simpl in Hr; [| done].
    injection Hr as <-. constructor; [by apply IH |].
    clear IH Hs. revert r Er.
    induction l as [| z l IHl]; simpl; intros r Er; [done |].
    apply Forall_cons in Hall as [Hz Hall].
    case_bool_decide.
    + by injection Er as <-.
    + destruct (py_remove x l) as [r' |] eqn:Er'; simpl in Er; [| done].
      injection Er as <-. constructor; [done |]. by apply IHl.
Qed.

Lemma click_strict (app : App) (ex ey : Q) :
  StronglySorted Qlt (column_markers app) ->
  StronglySorted Qlt (row_markers app) ->
  StronglySorted Qlt (column_markers (Markers._on_canvas_click app ex ey))
  /\ StronglySorted Qlt (row_markers (Markers._on_canvas_click app ex ey)).
Proof.
  intros Hc Hr. unfold Markers._on_canvas_click.
  destruct (selection_mode app) as [mode |]; [| done].
  destruct (no_document app); [done |].
  case_bool_decide; [done |].
  destruct mode.
  - destruct (py_in _ (column_markers app)) eqn:E; [done |]. simpl.
    split; [| done]. apply sorted_strict, occurrences_push; [| done].
    intros x. by apply strict_occurrences.
  - destruct (py_in _ (row_markers app)) eqn:E; [done |]. simpl.
    split; [done |]. apply sorted_strict, occurrences_push; [| done].
    intros x. by apply strict_occurrences.
  - done.
Qed.

Lemma undo_strict (app : App) :
  StronglySorted Qlt (column_markers app) ->
  StronglySorted Qlt (row_markers app) ->
  StronglySorted Qlt (column_markers (Markers.undo_last_marker app))
  /\ StronglySorted Qlt (row_markers (Markers.undo_last_marker app)).
Proof.
  intros Hc Hr. unfold Markers.undo_last_marker.
  destruct (last (marker_history app)) as [e |]; [| done].
  destruct (type e).
  - destruct (py_remove _ _) as [cols |] eqn:E; simpl; [| done].
    split; [| done]. eapply py_remove_strict; [| exact E]. done.
  - destruct (py_remove _ _) as [rws |] eqn:E; simpl; [| done].
    split; [done |]. eapply py_remove_strict; [| exact E]. done.
Qed.

Lemma add_column_occurrences (v : Q) (app : App) :
  (forall x, (occurrences x (column_markers app) <= 1)%nat) ->
  forall x, (occurrences x (column_markers (AreaProcessor.add_column v app)) <= 1)%nat.
Proof.
  intros H. unfold AreaProcessor.add_column.
  destruct (py_in v (column_markers app)) eqn:E; [done |]. simpl.
  by apply occurrences_push.
Qed.

Lemma add_row_occurrences (v : Q) (app : App) :
  (forall x, (occurrences x (row_markers app) <= 1)%nat) ->
  forall x, (occurrences x (row_markers (AreaProcessor.add_row v app)) <= 1)%nat.
Proof.
  intros H. unfold AreaProcessor.add_row.
  destruct (py_in v (row_markers app)) eqn:E; [done |]. simpl.
  by apply occurrences_push.
Qed.

Lemma fold_columns_occurrences (f : Z -> Q) (ps : list Z) (app : App) :
  (forall x, (occurrences x (column_markers app) <= 1)%nat) ->
  forall x,
    (occurrences x
       (column_markers
          (fold_left (fun a p => AreaProcessor.add_column (f p) a) ps app))
     <= 1)%nat.
Proof.
  revert app. induction ps as [| p ps IH]; intros app H; simpl; [done |].
  apply IH. by apply add_column_occurrences.
Qed.

Lemma fold_rows_occurrences (f : Z -> Q) (ps : list Z) (app : App) :
  (forall x, (occurrences x (row_markers app) <= 1)%nat) ->
  forall x,
    (occurrences x
       (row_markers
          (fold_left (fun a p => AreaProcessor.add_row (f p) a) ps app))
     <= 1)%nat.
Proof.
  revert app. induction ps as [| p ps IH]; intros app H; simpl; [done |].
  apply IH. by apply add_row_occurrences.
Qed.

Lemma apply_strict (self : option AreaProcessor.t) (confirm : bool) (app : App) :
  StronglySorted Qlt (column_markers app) ->
  StronglySorted Qlt (row_markers app) ->
  StronglySorted Qlt
    (column_markers (AreaProcessor.apply_detected_lines self confirm app))
  /\ StronglySorted Qlt
       (row_markers (AreaProcessor.apply_detected_lines self confirm app)).
Proof.
  intros Hc Hr. unfold AreaProcessor.apply_detected_lines.
  destruct self as [self |]; [| done].
  destruct (selection_start app); [| done].
  destruct (AreaProcessor.scale_factor self) as [scale |]; [| done].
  destruct (AreaProcessor.original_selection self) as [[[x1 y1] x2] y2].
  cbn [column_markers row_markers set_status set_markers].
  set (app1 := if confirm then set_markers [] [] [] app else app).
  assert (forall x, (occurrences x (column_markers app1) <= 1)%nat) as Hc1.
  { subst app1. destruct confirm; [intros x; simpl; unfold occurrences; simpl; lia |].
    intros x. by apply strict_occurrences. }
  assert (forall x, (occurrences x (row_markers app1) <= 1)%nat) as Hr1.
  { subst app1. destruct confirm; [intros x; simpl; unfold occurrences; simpl; lia |].
    intros x. by apply strict_occurrences. }
  clearbody app1. split; apply sorted_strict.
  - rewrite fold_rows_columns. apply fold_columns_occurrences.
    rewrite !add_row_columns. by do 2 apply add_column_occurrences.
  - apply fold_rows_occurrences. rewrite fold_columns_rows.
    do 2 apply add_row_occurrences. by rewrite !add_column_rows.
Qed.

End MarkerUniqueness.

(** X3.  In every state reached from empty marker lists by canvas
    clicks, by applying detected lines, by undoing and by clearing, both
    marker lists are in strictly ascending order: no value occurs
    twice. *)
Theorem marker_lists_strict (app : App) :
  reachable app ->
  StronglySorted Qlt (column_markers app)
  /\ StronglySorted Qlt (row_markers app).
Proof.
  induction 1 as [app Hc Hr | app ex ey _ [IHc IHr] | app self confirm _ [IHc IHr]
                  | app _ [IHc IHr] | app _ _ | app app' _ [IHc IHr] Hc Hr].
  - rewrite Hc, Hr. split; constructor.
  - by apply click_strict.
  - by apply apply_strict.
  - by apply undo_strict.
  - split; constructor.
  - by rewrite Hc, Hr.
Qed.

(** Two clicks at the same place with the column tool: the second one
    adds nothing. *)
Lemma marker_lists_strict_witness :
  let app :=
    Markers._on_canvas_click
      (Markers._on_canvas_click
         (Markers._on_canvas_click column_tool_app 7 0) 3 0) 7 0 in
  column_markers app = [3%Q; 7%Q]
  /\ StronglySorted Qlt (column_markers app)
  /\ StronglySorted Qlt (row_markers app).
Proof.
  cbv zeta. split; [vm_compute; reflexivity |].
  apply (marker_lists_strict
           (Markers._on_canvas_click
              (Markers._on_canvas_click
                 (Markers._on_canvas_click column_tool_app 7 0) 3 0) 7 0)).
  apply reach_click, reach_click, reach_click, reach_start; reflexivity.
Defined.

(** ** Undo is the inverse of adding *)

Section UndoInverse.

Lemma py_remove_perm (x : Q) (s r : list Q) :
  py_remove x s = Some r ->
  exists y, (y == x)%Q /\ In y s /\ Permutation s (y :: r).
Proof.
  revert r. induction s as [| z s IH]; simpl; intros r Hr; [done |].
  case_bool_decide as Hz.
  - injection Hr as <-. exists z. by repeat split; [| left |].
  - destruct (py_remove x s) as [r' |] eqn:E; simpl in Hr; [| done].
    injection Hr as <-. destruct (IH r' eq_refl) as (y & Hy & Hin & Hp).
    exists y. repeat split; [done | by right |].
    rewrite Hp. apply perm_swap.
Qed.

Lemma py_remove_some (x : Q) (s : list Q) :
  py_in x s = true -> is_Some (py_remove x s).
Proof.
  induction s as [| z s IH]; simpl; [done |].
  case_bool_decide; simpl; [by eexists |].
  intros H'. destruct (IH H') as [r ->]. by eexists.
Qed.

(** Removing a value that was inserted into a duplicate-free sorted list
    gives the list back. *)
Lemma remove_after_insert (x : Q) (l : list Q) :
  StronglySorted Qlt l -> py_in x l = false ->
  py_remove x (sorted (l ++ [x])) = Some l.
Proof.
  intros Hs Hx.
  assert (Permutation (sorted (l ++ [x])) (x :: l)) as Hperm.
  { unfold sorted. rewrite merge_sort_Permutation.
    symmetry. apply Permutation_cons_append. }
  assert (StronglySorted Qlt (sorted (l ++ [x]))) as Hstrict.
  { apply sorted_strict, occurrences_push; [| done].
    intros y. by apply strict_occurrences. }
  destruct (py_remove_some x (sorted (l ++ [x]))) as [r Hr].
  { apply py_in_true. exists x. split; [| done].
    apply (Permutation_in _ (Permutation_sym Hperm)). by left. }
  rewrite Hr. f_equal.
  destruct (py_remove_perm _ _ _ Hr) as (y & Hy & Hin & Hp).
  assert (y = x) as ->.
  { apply (Permutation_in _ Hperm) in Hin as [<- | Hin]; [done |].
    exfalso. assert (py_in x l = true) as Ht; [| by rewrite Ht in Hx].
    apply py_in_true. by exists y. }
  apply (StronglySorted_unique_strong Qlt).
  - intros x1 x2 _ _ H12 H21. exfalso. apply (Qlt_irrefl x1).
    by eapply Qlt_trans.
  - by eapply py_remove_strict.
  - done.
  - apply (Permutation_cons_inv (a := x)). by rewrite <- Hp.
Qed.

Lemma same_markers_sym (a b : App) : same_markers a b -> same_markers b a.
Proof. intros (H1 & H2 & H3). by repeat split. Qed.

Lemma same_markers_trans (a b c : App) :
  same_markers a b -> same_markers b c -> same_markers a c.
Proof.
  intros (H1 & H2 & H3) (H4 & H5 & H6). unfold same_markers.
  by rewrite H1, H2, H3.
Qed.

Lemma undo_same_markers (a b : App) :
  same_markers a b ->
  same_markers (Markers.undo_last_marker a) (Markers.undo_last_marker b).
Proof.
  intros (Hc & Hr & Hh). unfold Markers.undo_last_marker.
  rewrite Hc, Hr, Hh.
  destruct (last (marker_history b)) as [e |]; [| by repeat split].
  destruct (type e); destruct (py_remove _ _); by repeat split.
Qed.

Lemma undo_iter_same_markers (n : nat) (a b : App) :
  same_markers a b ->
  same_markers (Nat.iter n Markers.undo_last_marker a)
    (Nat.iter n Markers.undo_last_marker b).
Proof.
  intros H. induction n as [| n IH]; [done |]. simpl.
  by apply undo_same_markers.
Qed.

Lemma last_snoc_entry (h : list history_entry) (e : history_entry) :
  last (h ++ [e]) = Some e /\ removelast (h ++ [e]) = h.
Proof. split; [apply last_snoc | apply removelast_last]. Qed.

(** A click either records nothing and leaves the marker lists alone, or
    records one entry that the next undo takes back. *)
Lemma click_then_undo (b : App) (ex ey : Q) :
  StronglySorted Qlt (column_markers b) ->
  StronglySorted Qlt (row_markers b) ->
  (length (marker_history (Markers._on_canvas_click b ex ey))
   = length (marker_history b)
   /\ same_markers (Markers._on_canvas_click b ex ey) b)
  \/ (length (marker_history (Markers._on_canvas_click b ex ey))
      = S (length (marker_history b))
      /\ same_markers
           (Markers.undo_last_marker (Markers._on_canvas_click b ex ey)) b).
Proof.
  intros Hc Hr. unfold Markers._on_canvas_click.
  destruct (selection_mode b) as [mode |]; [| by left].
  destruct (no_document b); [by left |].
  case_bool_decide; [by left |].
  destruct mode.
  - destruct (py_in _ (column_markers b)) eqn:E; [by left |]. right.
    split; [simpl; rewrite length_app; simpl; lia |].
    unfold Markers.undo_last_marker. simpl.
    destruct (last_snoc_entry (marker_history b)
                {| type := column;
                   value := inject_Z (py_int (ex / zoom_factor b)) |})
      as [-> ->].
    simpl. rewrite (remove_after_insert _ _ Hc E). by repeat split.
  - destruct (py_in _ (row_markers b)) eqn:E; [by left |]. right.
    split; [simpl; rewrite length_app; simpl; lia |].
    unfold Markers.undo_last_marker. simpl.
    destruct (last_snoc_entry (marker_history b)
                {| type := row;
                   value := inject_Z (py_int (ey / zoom_factor b)) |})
      as [-> ->].
    simpl. rewrite (remove_after_insert _ _ Hr E). by repeat split.
  - by left.
Qed.

(** A piece of history that the marker lists still agree with is taken
    back entry by entry. *)
Lemma undo_tracked (hs : list history_entry) (a b : App) :
  StronglySorted Qlt (column_markers a) ->
  StronglySorted Qlt (row_markers a) ->
  marker_history b = marker_history a ++ hs ->
  StronglySorted Qlt (column_markers b) ->
  StronglySorted Qlt (row_markers b) ->
  Permutation (column_markers b) (column_markers a ++ column_values hs) ->
  Permutation (row_markers b) (row_markers a ++ row_values hs) ->
  same_markers (Nat.iter (length hs) Markers.undo_last_marker b) a.
Proof.
  intros Hac Har. revert b.
  induction hs as [| e hs IH] using rev_ind; intros b Hh Hbc Hbr Hpc Hpr.
  - simpl in *. rewrite app_nil_r in *.
    assert (forall l l', StronglySorted Qlt l -> StronglySorted Qlt l' ->
                         Permutation l l' -> l = l') as Huniq.
    { intros l l' Hl Hl' Hp. apply (StronglySorted_unique_strong Qlt); try done.
      intros x1 x2 _ _ H12 H21. exfalso. apply (Qlt_irrefl x1).
      by eapply Qlt_trans. }
    repeat split; [by apply Huniq | by apply Huniq | done].
  - rewrite length_app. simpl. rewrite Nat.add_1_r, Nat.iter_succ_r.
    unfold column_values, row_values in Hpc, Hpr.
    rewrite omap_app in Hpc, Hpr. simpl in Hpc, Hpr.
    fold (column_values hs) in Hpc. fold (row_values hs) in Hpr.
    assert (forall (s base : list Q) (v : Q) (vals : list Q),
               StronglySorted Qlt s ->
               Permutation s (base ++ vals ++ [v]) ->
               exists r, py_remove v s = Some r
                         /\ StronglySorted Qlt r
                         /\ Permutation r (base ++ vals)) as Hremove.
    { intros s base v vals Hs Hp.
      assert (In v s) as Hin.
      { apply (Permutation_in _ (Permutation_sym Hp)).
        rewrite app_assoc. apply in_or_app. right. by left. }
      destruct (py_remove_some v s) as [r Hr].
      { apply py_in_true. by exists v. }
      exists r. split; [done |]. split; [by eapply py_remove_strict |].
      destruct (py_remove_perm _ _ _ Hr) as (y & Hy & Hyin & Hpy).
      assert (y = v) as -> by by eapply strict_members_eq.
      apply (Permutation_cons_inv (a := v)). rewrite <- Hpy, Hp.
      rewrite app_assoc. symmetry. apply Permutation_cons_append. }
    apply IH.
    + unfold Markers.undo_last_marker. rewrite Hh, app_assoc.
      destruct (last_snoc_entry (marker_history a ++ hs) e) as [-> ->].
      destruct (type e); by destruct (py_remove _ _).
    + unfold Markers.undo_last_marker. rewrite Hh, app_assoc.
      destruct (last_snoc_entry (marker_history a ++ hs) e) as [-> _].
      destruct (type e) eqn:Et.
      * destruct (Hremove _ _ (value e) _ Hbc Hpc) as (r & -> & Hr & _). done.
      * by destruct (py_remove _ _).
    + unfold Markers.undo_last_marker. rewrite Hh, app_assoc.
      destruct (last_snoc_entry (marker_history a ++ hs) e) as [-> _].
      destruct (type e) eqn:Et.
      * by destruct (py_remove _ _).
      * destruct (Hremove _ _ (value e) _ Hbr Hpr) as (r & -> & Hr & _). done.
    + unfold Markers.undo_last_marker. rewrite Hh, app_assoc.
      destruct (last_snoc_entry (marker_history a ++ hs) e) as [-> _].
      destruct (type e) eqn:Et.
      * destruct (Hremove _ _ (value e) _ Hbc Hpc) as (r & -> & _ & Hp). done.
      * simpl in Hpc. rewrite app_nil_r in Hpc. by destruct (py_remove _ _).
    + unfold Markers.undo_last_marker. rewrite Hh, app_assoc.
      destruct (last_snoc_entry (marker_history a ++ hs) e) as [-> _].
      destruct (type e) eqn:Et.
      * simpl in Hpr. rewrite app_nil_r in Hpr. by destruct (py_remove _ _).
      * destruct (Hremove _ _ (value e) _ Hbr Hpr) as (r & -> & _ & Hp). done.
Qed.

Lemma add_column_tracked (b x : App) (hs : list history_entry) (v : Q) :
  tracked b x hs -> exists hs', tracked b (AreaProcessor.add_column v x) hs'.
Proof.
  intros (Hh & Hc & Hr). unfold AreaProcessor.add_column.
  destruct (py_in v (column_markers x)); [by exists hs |].
  exists (hs ++ [{| type := column; value := v |}]).
  unfold tracked, column_values, row_values. simpl.
  rewrite !omap_app. simpl. rewrite Hh, Hc, Hr, !app_assoc, app_nil_r. done.
Qed.

Lemma add_row_tracked (b x : App) (hs : list history_entry) (v : Q) :
  tracked b x hs -> exists hs', tracked b (AreaProcessor.add_row v x) hs'.
Proof.
  intros (Hh & Hc & Hr). unfold AreaProcessor.add_row.
  destruct (py_in v (row_markers x)); [by exists hs |].
  exists (hs ++ [{| type := row; value := v |}]).
  unfold tracked, column_values, row_values. simpl.
  rewrite !omap_app. simpl. rewrite Hh, Hc, Hr, !app_assoc, app_nil_r. done.
Qed.

Lemma fold_columns_tracked (f : Z -> Q) (ps : list Z) (b x : App)
      (hs : list history_entry) :
  tracked b x hs ->
  exists hs',
    tracked b (fold_left (fun a p => AreaProcessor.add_column (f p) a) ps x) hs'.
Proof.
  revert x hs. induction ps as [| p ps IH]; intros x hs Ht; [by exists hs |].
  simpl. destruct (add_column_tracked b x hs (f p) Ht) as [hs' Ht'].
  by apply (IH _ hs').
Qed.

Lemma fold_rows_tracked (f : Z -> Q) (ps : list Z) (b x : App)
      (hs : list history_entry) :
  tracked b x hs ->
  exists hs',
    tracked b (fold_left (fun a p => AreaProcessor.add_row (f p) a) ps x) hs'.
Proof.
  revert x hs. induction ps as [| p ps IH]; intros x hs Ht; [by exists hs |].
  simpl. destruct (add_row_tracked b x hs (f p) Ht) as [hs' Ht'].
  by apply (IH _ hs').
Qed.

(** Applying detected lines without clearing the lists records exactly
    the markers it adds. *)
Lemma apply_recorded (self : option AreaProcessor.t) (b : App) :
  exists hs,
    marker_history (AreaProcessor.apply_detected_lines self false b)
    = marker_history b ++ hs
    /\ Permutation
         (column_markers (AreaProcessor.apply_detected_lines self false b))
         (column_markers b ++ column_values hs)
    /\ Permutation
         (row_markers (AreaProcessor.apply_detected_lines self false b))
         (row_markers b ++ row_values hs).
Proof.
  assert (exists hs, marker_history b = marker_history b ++ hs
                     /\ Permutation (column_markers b)
                          (column_markers b ++ column_values hs)
                     /\ Permutation (row_markers b)
                          (row_markers b ++ row_values hs)) as Hsame.
  { exists []. simpl. by rewrite !app_nil_r. }
  unfold AreaProcessor.apply_detected_lines.
  destruct self as [self |]; [| done].
  destruct (selection_start b); [| done].
  destruct (AreaProcessor.scale_factor self) as [scale |]; [| done].
  destruct (AreaProcessor.original_selection self) as [[[x1 y1] x2] y2].
  assert (tracked b b []) as H0.
  { unfold tracked. simpl. by rewrite !app_nil_r. }
  destruct (add_column_tracked _ _ _ (inject_Z x1) H0) as [h1 H1].
  destruct (add_column_tracked _ _ _ (inject_Z x2) H1) as [h2 H2].
  destruct (add_row_tracked _ _ _ (inject_Z y1) H2) as [h3 H3].
  destruct (add_row_tracked _ _ _ (inject_Z y2) H3) as [h4 H4].
  destruct (fold_columns_tracked
              (fun x_rel =>
                 inject_Z (AreaProcessor.to_pdf (AreaProcessor.x1_cropped self)
                             x_rel scale))
              (AreaProcessor.detected_vertical_lines self) _ _ _ H4)
    as [h5 H5].
  destruct (fold_rows_tracked
              (fun y_rel =>
                 inject_Z (AreaProcessor.to_pdf (AreaProcessor.y1_cropped self)
                             y_rel scale))
              (AreaProcessor.detected_horizontal_lines self) _ _ _ H5)
    as [h6 (Hh & Hc & Hr)].
  exists h6. simpl. split; [exact Hh |].
  unfold sorted. rewrite !merge_sort_Permutation. by rewrite Hc, Hr.
Qed.

Lemma apply_then_undo (self : option AreaProcessor.t) (b : App) :
  StronglySorted Qlt (column_markers b) ->
  StronglySorted Qlt (row_markers b) ->
  same_markers
    (Nat.iter
       (length (marker_history
                  (AreaProcessor.apply_detected_lines self false b))
        - length (marker_history b))
       Markers.undo_last_marker
       (AreaProcessor.apply_detected_lines self false b)) b.
Proof.
  intros Hc Hr. destruct (apply_recorded self b) as (hs & Hh & Hpc & Hpr).
  destruct (apply_strict self false b Hc Hr) as [Hsc Hsr].
  rewrite Hh, length_app.
  replace (length (marker_history b) + length hs - length (marker_history b))%nat
    with (length hs) by lia.
  by apply undo_tracked.
Qed.

Lemma added_from_strict (a b : App) (n : nat) :
  StronglySorted Qlt (column_markers a) ->
  StronglySorted Qlt (row_markers a) ->
  added_from a b n ->
  StronglySorted Qlt (column_markers b) /\ StronglySorted Qlt (row_markers b).
Proof.
  intros Hc Hr. induction 1 as [b (H1 & H2 & _) | b ex ey n _ [IHc IHr]
                                | b self n _ [IHc IHr]
                                | b b' n _ [IHc IHr] (H1 & H2 & _)].
  - by rewrite <- H1, <- H2.
  - by apply click_strict.
  - by apply apply_strict.
  - by rewrite <- H1, <- H2.
Qed.

Lemma added_detected_counted (a b : App) (self : option AreaProcessor.t)
      (n m : nat) :
  added_from a b n ->
  m = (n + (length (marker_history
                      (AreaProcessor.apply_detected_lines self false b))
            - length (marker_history b)))%nat ->
  added_from a (AreaProcessor.apply_detected_lines self false b) m.
Proof. intros H ->. by constructor. Qed.

Lemma added_click_counted (a b : App) (ex ey : Q) (n m : nat) :
  added_from a b n ->
  m = (n + (length (marker_history (Markers._on_canvas_click b ex ey))
            - length (marker_history b)))%nat ->
  added_from a (Markers._on_canvas_click b ex ey) m.
Proof. intros H ->. by constructor. Qed.

End UndoInverse.

(** X4.  Undo is the inverse of adding, last in first out: start from
    marker lists without duplicates, add markers by any number of canvas
    clicks and of applications of detected lines (without clearing), and
    undo as many times as these have recorded entries; the marker lists
    and the history are back to what they were. *)
Theorem undo_inverts_additions (a b : App) (n : nat) :
  StronglySorted Qlt (column_markers a) ->
  StronglySorted Qlt (row_markers a) ->
  added_from a b n ->
  same_markers (Nat.iter n Markers.undo_last_marker b) a.
Proof.
  intros Hc Hr Hadded.
  induction Hadded as [b H | b ex ey n Hcl IH | b self n Hcl IH
                       | b b' n Hcl IH H].
  - simpl. by apply same_markers_sym.
  - destruct (added_from_strict a b n Hc Hr Hcl) as [Hbc Hbr].
    destruct (click_then_undo b ex ey Hbc Hbr) as [[Hlen Hsame] | [Hlen Hsame]];
      rewrite Hlen.
    + rewrite Nat.sub_diag, Nat.add_0_r.
      eapply same_markers_trans; [| exact IH].
      by apply undo_iter_same_markers.
    + replace (n + (S (length (marker_history b)) - length (marker_history b)))%nat
        with (S n) by lia.
      rewrite Nat.iter_succ_r.
      eapply same_markers_trans; [| exact IH].
      by apply undo_iter_same_markers.
  - destruct (added_from_strict a b n Hc Hr Hcl) as [Hbc Hbr].
    rewrite Nat.iter_add.
    eapply same_markers_trans; [| exact IH].
    apply undo_iter_same_markers. by apply apply_then_undo.
  - eapply same_markers_trans; [| exact IH].
    apply undo_iter_same_markers. by apply same_markers_sym.
Qed.

(** Column markers at 5 and 10 are added by clicks, the lines detected
    in the selection are applied, which records six more markers, and
    everything is undone. *)
Lemma undo_inverts_additions_witness :
  same_markers
    (Nat.iter 8 Markers.undo_last_marker
       (AreaProcessor.apply_detected_lines (Some sample_processor) false
          (Markers._on_canvas_click
             (Markers._on_canvas_click selection_app 5 0) 10 0)))
    selection_app.
Proof.
  apply (undo_inverts_additions selection_app
           (AreaProcessor.apply_detected_lines (Some sample_processor) false
              (Markers._on_canvas_click
                 (Markers._on_canvas_click selection_app 5 0) 10 0)) 8).
  - constructor.
  - constructor.
  - apply (added_detected_counted _ _ _ 2); [| vm_compute; reflexivity].
    apply (added_click_counted _ _ 10 0 1); [| vm_compute; reflexivity].
    apply (added_click_counted _ _ 5 0 0); [| vm_compute; reflexivity].
    apply added_start. by repeat split.
Defined.

(** ** Saved page markers *)

(** X5.  Saving and loading page markers is a round trip: after
    [save_page_markers] the record of the current page holds the two
    working lists, the records of the other pages are as before, and in
    any later state with the same records and the same page
    [load_markers_for_current_page] brings the two lists back. *)
Theorem saved_markers_come_back (app later : App) :
  no_document app = false ->
  column_markers app <> [] -> row_markers app <> [] ->
  let saved := fst (PageMarkers.save_page_markers app) in
  page_markers saved !! current_page app
  = Some {| columns := column_markers app; rows := row_markers app |}
  /\ (forall p, p <> current_page app ->
                page_markers saved !! p = page_markers app !! p)
  /\ same_markers saved app
  /\ (page_markers later = page_markers saved ->
      current_page later = current_page app ->
      column_markers (PageMarkers.load_markers_for_current_page later)
      = column_markers app
      /\ row_markers (PageMarkers.load_markers_for_current_page later)
         = row_markers app).
Proof.
  intros Hdoc Hc Hr saved. subst saved. unfold PageMarkers.save_page_markers.
  rewrite Hdoc.
  rewrite (bool_decide_eq_false_2 _ Hc), (bool_decide_eq_false_2 _ Hr). simpl.
  split; [apply lookup_insert_eq |].
  split; [intros p Hp; by apply lookup_insert_ne |].
  split; [done |].
  intros Hpm Hcur. unfold PageMarkers.load_markers_for_current_page.
  rewrite Hpm, Hcur. by rewrite lookup_insert_eq.
Qed.

(** Column markers 3 and 7 and row markers 1 and 9 are saved for page 1;
    later, with the working lists emptied, they are loaded again. *)
Lemma saved_markers_come_back_witness :
  column_markers
    (PageMarkers.load_markers_for_current_page
       (set_markers [] [] []
          (fst (PageMarkers.save_page_markers
                  (set_markers [3%Q; 7%Q] [1%Q; 9%Q] [] column_tool_app)))))
  = [3%Q; 7%Q].
Proof.
  refine (proj1 (proj2 (proj2 (proj2
            (saved_markers_come_back
               (set_markers [3%Q; 7%Q] [1%Q; 9%Q] [] column_tool_app)
               (set_markers [] [] []
                  (fst (PageMarkers.save_page_markers
                          (set_markers [3%Q; 7%Q] [1%Q; 9%Q] []
                             column_tool_app))))
               _ _ _))) _ _)).
  - reflexivity.
  - discriminate.
  - discriminate.
  - reflexivity.
  - reflexivity.
Defined.

(** X6.  Markers that were not saved do not survive a page display: on
    a page without a saved record both working lists are emptied while
    the history is kept, so the next undo finds nothing to remove,
    reports it, and only shortens the history. *)
Theorem unsaved_markers_are_dropped (app shown : App) (e : history_entry) :
  page_markers app !! current_page app = None ->
  last (marker_history app) = Some e ->
  no_document app = false ->
  TableExtractor.update_page_display app = Some shown ->
  let loaded := PageMarkers.load_markers_for_current_page app in
  same_markers loaded shown
  /\ column_markers shown = [] /\ row_markers shown = []
  /\ marker_history shown = marker_history app
  /\ status_label (Markers.undo_last_marker shown) = status_could_not_remove
  /\ column_markers (Markers.undo_last_marker shown) = []
  /\ row_markers (Markers.undo_last_marker shown) = []
  /\ marker_history (Markers.undo_last_marker shown)
     = removelast (marker_history app).
Proof.
  intros Hpm Hlast Hdoc Hshown loaded. subst loaded.
  unfold PageMarkers.load_markers_for_current_page.
  unfold TableExtractor.update_page_display in Hshown.
  rewrite Hdoc, Hpm in *.
  destruct (load_page app (current_page app)); [| done].
  injection Hshown as <-.
  split; [by repeat split |]. split; [done |]. split; [done |]. split; [done |].
  unfold Markers.undo_last_marker. simpl. rewrite Hlast.
  by destruct (type e).
Qed.

(** A column marker was set at 5 on the first page of a document whose
    pages are not marked; the page is displayed again. *)
Lemma unsaved_markers_are_dropped_witness :
  column_markers
    (PageMarkers.load_markers_for_current_page
       (Markers._on_canvas_click column_tool_app 5 0))
  = [].
Proof.
  pose proof (unsaved_markers_are_dropped
                (Markers._on_canvas_click column_tool_app 5 0)
                (set_markers [] [] [{| type := column; value := 5 |}]
                   column_tool_app)
                {| type := column; value := 5 |}
                eq_refl eq_refl eq_refl eq_refl) as (Hsame & Hcols & _).
  destruct Hsame as (Hc & _). exact (eq_trans Hc Hcols).
Defined.

(** ** The table label *)

Section TableLabel.

Lemma fold_min_first (l : list Q) (a : Q) :
  Forall (Qlt a) l ->
  fold_left (fun m y => if bool_decide (y < m)%Q then y else m) l a = a.
Proof.
  induction 1 as [| y l Hy _ IH]; [done |]. simpl.
  rewrite bool_decide_eq_false_2; [done |].
  apply Qle_not_lt. by apply Qlt_le_weak.
Qed.

Lemma fold_max_last (l : list Q) (a : Q) :
  StronglySorted Qlt (a :: l) ->
  fold_left (fun m y => if bool_decide (m < y)%Q then y else m) l a
  = default a (last l).
Proof.
  revert a. induction l as [| y l IH]; intros a Hs; [done |]. simpl.
  apply StronglySorted_inv in Hs as [Hs Hall].
  apply Forall_cons in Hall as [Hy _].
  rewrite (bool_decide_eq_true_2 _ Hy). rewrite (IH y Hs).
  destruct l as [| z l]; [done |]. rewrite last_cons_cons.
  destruct (last (z :: l)) eqn:E; [done |]. by apply last_None in E.
Qed.

Lemma filter_all {A : Type} (P : A -> Prop) `{forall x, Decision (P x)}
      (l : list A) :
  Forall P l -> filter P l = l.
Proof.
  induction 1 as [| x l Hx _ IH]; [done |].
  by rewrite filter_cons_True, IH.
Qed.

(** In a strictly ascending list of at least two values, all values but
    the first and the last lie strictly between the minimum and the
    maximum. *)
Lemma strictly_between_count (l : list Q) :
  StronglySorted Qlt l -> (2 <= length l)%nat ->
  (length (filter (fun m => (default 0 (TableExtractor.py_min l) < m)%Q
                            /\ (m < default 0 (TableExtractor.py_max l))%Q) l)
   + 1 = length l - 1)%nat.
Proof.
  intros Hs Hlen. destruct l as [| a l]; [simpl in Hlen; lia |].
  destruct (exists_last (l := l)) as (mid & z & ->).
  { intros ->. simpl in Hlen. lia. }
  pose proof Hs as Hs'. apply StronglySorted_inv in Hs' as [Hrest Hall].
  simpl TableExtractor.py_min. simpl TableExtractor.py_max.
  rewrite (fold_min_first _ _ Hall), (fold_max_last _ _ Hs), last_snoc. simpl.
  rewrite filter_cons_False by (intros [H' _]; by apply Qlt_irrefl in H').
  rewrite filter_app, filter_cons_False
    by (intros [_ H']; by apply Qlt_irrefl in H').
  rewrite filter_nil, app_nil_r, filter_all.
  - rewrite length_app. simpl. lia.
  - apply Forall_app in Hall as [Hmid _].
    apply StronglySorted_app in Hrest as (Hlt & _ & _).
    rewrite Forall_forall in Hmid. apply Forall_forall. intros m Hm. split.
    + by apply Hmid.
    + apply Hlt; [done | by left].
Qed.

End TableLabel.

(** X7.  With a document open and duplicate-free markers, at least two
    per axis, the green table text drawn by [redraw_markers] shows the
    number of rows and columns of the grid that extraction builds from
    the same markers. *)
Theorem table_label_matches_grid (app : App) :
  no_document app = false ->
  StronglySorted Qlt (column_markers app) ->
  StronglySorted Qlt (row_markers app) ->
  (2 <= length (column_markers app))%nat ->
  (2 <= length (row_markers app))%nat ->
  PageMarkers.redraw_markers app
  = Some (TableExtractor.cell_count (sorted (row_markers app)),
          TableExtractor.cell_count (sorted (column_markers app))).
Proof.
  intros Hdoc Hc Hr Hlc Hlr.
  unfold PageMarkers.redraw_markers, PageMarkers.highlight_table_area.
  rewrite Hdoc.
  rewrite (proj2 (Nat.leb_le _ _) Hlc), (proj2 (Nat.leb_le _ _) Hlr). simpl.
  rewrite (sorted_id _ Hc), (sorted_id _ Hr).
  rewrite !cell_count_bounds by done.
  by rewrite (strictly_between_count _ Hc Hlc), (strictly_between_count _ Hr Hlr).
Qed.

(** Three column markers and two row markers: one row, two columns. *)
Lemma table_label_matches_grid_witness :
  PageMarkers.redraw_markers
    (set_markers [0%Q; 50%Q; 100%Q] [0%Q; 100%Q] [] column_tool_app)
  = Some (1%nat, 2%nat).
Proof.
  refine (eq_trans
            (table_label_matches_grid
               (set_markers [0%Q; 50%Q; 100%Q] [0%Q; 100%Q] [] column_tool_app)
               _ _ _ _ _) _).
  - reflexivity.
  - repeat constructor.
  - repeat constructor.
  - simpl. lia.
  - simpl. lia.
  - vm_compute. reflexivity.
Defined.

(** ** Zoom *)

Section Zoom.

Lemma zoom_to_frame (z : Q) (app : App) :
  same_markers (PdfHandler.zoom_to z app) app
  /\ page_markers (PdfHandler.zoom_to z app) = page_markers app
  /\ current_page (PdfHandler.zoom_to z app) = current_page app
  /\ table_data (PdfHandler.zoom_to z app) = table_data app
  /\ zoom_factor (PdfHandler.zoom_to z app) = z.
Proof.
  unfold PdfHandler.zoom_to, TableExtractor.update_page_display.
  destruct (no_document _); [by repeat split |].
  destruct (load_page _ _); [| by repeat split].
  destruct (page_markers _ !! _); by repeat split.
Qed.

End Zoom.

(** X8.  Markers are immune to zoom: [zoom_in], [zoom_out] and
    [reset_zoom] leave the working marker lists, the history, the saved
    page markers, the page and the extracted grid as they are, although
    the page is displayed again in between.  The zoom factor stays
    positive, and after [zoom_out] it is at least 0.1. *)
Theorem zoom_keeps_markers (app : App) :
  (forall zoom : App -> App,
      zoom = PdfHandler.zoom_in \/ zoom = PdfHandler.zoom_out
      \/ zoom = PdfHandler.reset_zoom ->
      same_markers (zoom app) app
      /\ page_markers (zoom app) = page_markers app
      /\ current_page (zoom app) = current_page app
      /\ table_data (zoom app) = table_data app
      /\ ((0 < zoom_factor app)%Q -> (0 < zoom_factor (zoom app))%Q))
  /\ (1 # 10 <= zoom_factor (PdfHandler.zoom_out app))%Q.
Proof.
  split.
  - intros zoom [-> | [-> | ->]]; unfold PdfHandler.zoom_in,
      PdfHandler.zoom_out, PdfHandler.reset_zoom;
      match goal with
      | |- context [PdfHandler.zoom_to ?z app] =>
          destruct (zoom_to_frame z app) as (H1 & H2 & H3 & H4 & H5)
      end; rewrite H5; repeat split; try done; try apply H1.
    + intros Hz. apply Qmult_lt_0_compat; [done | reflexivity].
    + intros Hz. case_bool_decide; [reflexivity |].
      apply Qlt_shift_div_l; [reflexivity |]. by rewrite Qmult_0_l.
  - unfold PdfHandler.zoom_out.
    match goal with
    | |- context [PdfHandler.zoom_to ?z app] =>
        destruct (zoom_to_frame z app) as (_ & _ & _ & _ & ->)
    end.
    case_bool_decide as H; [apply Qle_refl | by apply Qnot_lt_le].
Qed.

(** ** Area selection *)

Section AreaSelection.

Lemma drags_keep_start (drags : list (Q * Q)) (app : App) (start : Z * Z) :
  selection_mode app = Some mode_area ->
  selection_start app = Some start ->
  let dragged :=
    fold_left (fun a d => Selection._on_canvas_drag a (fst d) (snd d))
      drags app in
  selection_mode dragged = Some mode_area
  /\ selection_start dragged = Some start
  /\ zoom_factor dragged = zoom_factor app
  /\ same_markers dragged app.
Proof.
  revert app. induction drags as [| d drags IH]; intros app Hmode Hstart.
  - by repeat split.
  - simpl.
    assert (selection_mode (Selection._on_canvas_drag app d.1 d.2)
            = Some mode_area
            /\ selection_start (Selection._on_canvas_drag app d.1 d.2)
               = Some start
            /\ zoom_factor (Selection._on_canvas_drag app d.1 d.2)
               = zoom_factor app
            /\ same_markers (Selection._on_canvas_drag app d.1 d.2) app)
      as (H1 & H2 & H3 & H4).
    { unfold Selection._on_canvas_drag. rewrite Hmode, Hstart.
      case_bool_decide; by repeat split. }
    destruct (IH _ H1 H2) as (I1 & I2 & I3 & (I4 & I5 & I6)).
    destruct H4 as (H4 & H5 & H6).
    split; [done |]. split; [done |]. split; [congruence |].
    repeat split; congruence.
Qed.

End AreaSelection.

(** X9.  Choosing the area tool, pressing the button at one point,
    dragging over any points and releasing at another selects the
    bounding box of the first and the last point, whichever way the
    pointer went: the selection starts at the smaller and ends at the
    larger coordinate on each axis, and the status bar shows its width
    and height.  The marker lists are not touched. *)
Theorem release_selects_bounding_box (app : App) (px py qx qy : Q)
        (drags : list (Q * Q)) :
  no_document app = false ->
  ~ (zoom_factor app == 0)%Q ->
  let x0 := py_int (px / zoom_factor app) in
  let y0 := py_int (py / zoom_factor app) in
  let x1 := py_int (qx / zoom_factor app) in
  let y1 := py_int (qy / zoom_factor app) in
  let pressed :=
    Markers._on_canvas_click
      (fst (Selection.set_selection_mode mode_area app)) px py in
  let dragged :=
    fold_left (fun a d => Selection._on_canvas_drag a (fst d) (snd d))
      drags pressed in
  let released := Selection._on_canvas_release dragged qx qy in
  selection_start (fst released) = Some (Z.min x0 x1, Z.min y0 y1)
  /\ selection_end (fst released) = Some (Z.max x0 x1, Z.max y0 y1)
  /\ snd released = msg_area_selected (Z.abs (x1 - x0)) (Z.abs (y1 - y0))
  /\ same_markers (fst released) app.
Proof.
  intros Hdoc Hz x0 y0 x1 y1 pressed dragged released.
  assert (pressed
          = set_selection (Some (x0, y0)) (Some (x0, y0))
              (fst (Selection.set_selection_mode mode_area app))) as Hpressed.
  { subst pressed. unfold Markers._on_canvas_click. simpl.
    change (no_document _) with (no_document app). rewrite Hdoc.
    by rewrite (bool_decide_eq_false_2 _ Hz). }
  destruct (drags_keep_start drags pressed (x0, y0))
    as (Hmode & Hstart & Hzoom & (Hc & Hr & Hh)).
  { by rewrite Hpressed. }
  { by rewrite Hpressed. }
  fold dragged in Hmode, Hstart, Hzoom, Hc, Hr, Hh.
  assert (zoom_factor dragged = zoom_factor app) as Hzoom'.
  { by rewrite Hzoom, Hpressed. }
  subst released. unfold Selection._on_canvas_release.
  rewrite Hmode, Hstart, Hzoom'. rewrite (bool_decide_eq_false_2 _ Hz).
  fold x1 y1.
  assert (same_markers dragged app) as (Hc' & Hr' & Hh').
  { rewrite Hpressed in Hc, Hr, Hh. by repeat split. }
  do 2 case_bool_decide; simpl; repeat split; try done;
    f_equal; try f_equal; lia.
Qed.

(** A drag from (30, 40) up and to the left, over (50, 60), to
    (10, 20). *)
Lemma release_selects_bounding_box_witness :
  selection_start
    (fst (Selection._on_canvas_release
            (Selection._on_canvas_drag
               (Markers._on_canvas_click
                  (fst (Selection.set_selection_mode mode_area
                          column_tool_app))
                  30 40) 50 60) 10 20))
  = Some (10, 20).
Proof.
  refine (proj1 (release_selects_bounding_box column_tool_app
                   30 40 10 20 [(50%Q, 60%Q)] _ _)).
  - reflexivity.
  - vm_compute. discriminate.
Defined.

(** ** What a cell holds *)

Section CellContents.
Import TableExtractor TableCommands.
Variables (sep : string) (cm rm : list Q) (pg : page).

Lemma assign_fragment_landing (table : list (list string)) (s : span) :
  assign_fragment sep cm rm pg table s
  = match landing_cell cm rm pg s with
    | Some (row_idx, col_idx) =>
        alter (alter (add_text sep (text s)) col_idx) row_idx table
    | None => table
    end.
Proof.
  unfold assign_fragment, assign_span, landing_cell.
  destruct (center s) as [cx cy].
  destruct (negb _); [done |].
  destruct (find_index (sorted cm) cx 0); [| done].
  destruct (find_index (sorted rm) cy 0); [| done].
  by destruct (_ && _).
Qed.

Lemma cell_at_alter (f : string -> string) (table : list (list string))
      (i j r c : nat) :
  cell_at (alter (alter f j) i table) r c
  = if bool_decide ((i, j) = (r, c)) then option_map f (cell_at table r c)
    else cell_at table r c.
Proof.
  unfold cell_at. destruct (decide (i = r)) as [-> | Hi].
  - rewrite list_lookup_alter_eq. destruct (table !! r) as [cells |] eqn:E; simpl.
    + destruct (decide (j = c)) as [-> | Hj].
      * rewrite list_lookup_alter_eq, bool_decide_eq_true_2 by done.
        by destruct (cells !! c).
      * rewrite list_lookup_alter_ne by done.
        rewrite bool_decide_eq_false_2; [done | congruence].
    + by case_bool_decide.
  - rewrite list_lookup_alter_ne by done.
    rewrite bool_decide_eq_false_2; [done | congruence].
Qed.

Lemma fold_assign_cell (spans : list span) (table : list (list string))
      (r c : nat) :
  cell_at (fold_left (assign_fragment sep cm rm pg) spans table) r c
  = option_map
      (fold_left (fun cell s => add_text sep (text s) cell)
         (filter (fun s => landing_cell cm rm pg s = Some (r, c)) spans))
      (cell_at table r c).
Proof.
  revert table. induction spans as [| s spans IH]; intros table; simpl.
  - by destruct (cell_at table r c).
  - rewrite IH, assign_fragment_landing.
    destruct (landing_cell cm rm pg s) as [[i j] |] eqn:E.
    + rewrite cell_at_alter. case_bool_decide as Hij.
      * rewrite filter_cons_True by congruence.
        by destruct (cell_at table r c).
      * rewrite filter_cons_False by congruence. done.
    + by rewrite filter_cons_False by congruence.
Qed.

Lemma cell_at_empty_table (n m r c : nat) :
  cell_at (empty_table n m) r c
  = if Nat.ltb r n && Nat.ltb c m then Some EmptyString else None.
Proof.
  unfold cell_at, empty_table.
  destruct (Nat.ltb_spec r n) as [Hr | Hr].
  - rewrite lookup_replicate_2 by done.
    destruct (Nat.ltb_spec c m) as [Hc | Hc].
    + by rewrite lookup_replicate_2.
    + simpl. apply lookup_replicate_None. lia.
  - assert (replicate n (replicate m EmptyString) !! r = None) as ->; [| done].
    apply lookup_replicate_None. lia.
Qed.

End CellContents.

(** X10.  Every cell of an extracted grid holds exactly the texts of
    the spans that land in it, joined by the separator in the order of
    the page's text dictionary; a span that lands in another cell or in
    none leaves it alone, and a cell in which nothing lands is empty. *)
Theorem cell_holds_its_spans (sep : string) (cols_m rows_m : list Q)
        (pg : page) (blocks : list block) (r c : nat) :
  cell_at (TableExtractor.build_table sep cols_m rows_m pg blocks) r c
  = if Nat.ltb r (TableExtractor.cell_count (sorted rows_m))
       && Nat.ltb c (TableExtractor.cell_count (sorted cols_m))
    then
      Some (TableCommands.joined sep
              (filter (fun s => TableCommands.landing_cell cols_m rows_m pg s
                                = Some (r, c))
                 (spans_of blocks)))
    else None.
Proof.
  unfold TableExtractor.build_table. rewrite fold_assign_cell.
  rewrite cell_at_empty_table. by destruct (_ && _).
Qed.

(** ** The grid of one page *)

(** X11.  When [extract_table] succeeds (a document is open, both
    marker lists are non-empty, the page can be loaded and its text
    read), the stored grid has one row per gap between row markers and
    one column per gap between column markers, with or without the
    orientation correction; the status bar reports the same two numbers,
    and markers, history, saved page markers and page are untouched. *)
Theorem extract_table_outcome (mode : TableExtractor.extraction_mode_t)
        (answer_yes : bool) (app : App) (pg : page) (blocks : list block) :
  no_document app = false ->
  column_markers app <> [] -> row_markers app <> [] ->
  load_page app (current_page app) = Some pg ->
  get_text pg = Some blocks ->
  let n_rows := TableExtractor.cell_count (sorted (row_markers app)) in
  let n_cols := TableExtractor.cell_count (sorted (column_markers app)) in
  let app' := TableExtractor.extract_table mode answer_yes app in
  length (table_data app') = n_rows
  /\ Forall (fun r => length r = n_cols) (table_data app')
  /\ (status_label app' = status_extracted n_rows n_cols
      \/ status_label app' = status_extracted_corrected n_rows n_cols)
  /\ same_markers app' app
  /\ page_markers app' = page_markers app
  /\ current_page app' = current_page app.
Proof.
  intros Hdoc Hc Hr Hpg Htxt n_rows n_cols app'. subst app'.
  unfold TableExtractor.extract_table.
  rewrite Hdoc, (bool_decide_eq_false_2 _ Hc), (bool_decide_eq_false_2 _ Hr).
  simpl. rewrite Hpg, Htxt.
  destruct (build_table_dims TableExtractor.newline_sep (column_markers app)
              (row_markers app) pg blocks) as [Hlen Hall].
  destruct (_ && _); simpl.
  - rewrite length_map. split; [done |]. split.
    + apply Forall_map. eapply Forall_impl; [exact Hall |].
      intros r Hlr. simpl. by rewrite length_map.
    + split; [by right |]. by repeat split.
  - split; [done |]. split; [done |]. split; [by left |]. by repeat split.
Qed.

(** One page with two fragments under markers 0 and 100 on both axes: a
    grid of one row and one column. *)
Lemma extract_table_outcome_witness :
  length (table_data
            (TableExtractor.extract_table TableExtractor.space true
               two_fragment_app))
  = 1%nat.
Proof.
  refine (proj1 (extract_table_outcome TableExtractor.space true
                   two_fragment_app two_fragment_page
                   [{| block_type := 0;
                       lines := [[plain_span "a" 10 10 20 20;
                                  plain_span "b" 30 30 40 40]] |}]
                   _ _ _ _ _)).
  - reflexivity.
  - discriminate.
  - discriminate.
  - reflexivity.
  - reflexivity.
Defined.

(** ** Merging and transposing *)

Section MergeAndTranspose.
Import TableExtractor TableCommands.

Lemma max_len_ge {A : Type} (l : list (list A)) (r : list A) :
  In r l -> (length r <= max_len l)%nat.
Proof.
  unfold max_len. induction l as [| x l IH]; simpl; [done |].
  intros [-> | Hin]; [lia |]. specialize (IH Hin). lia.
Qed.


Lemma length_pad_row (n : nat) (r : list string) :
  (length r <= n)%nat -> length (pad_row n r) = n.
Proof.
  intros Hle. unfold pad_row. rewrite length_app, length_replicate. lia.
Qed.


Lemma lookup_pad_row (n : nat) (r : list string) (c : nat) (x : string) :
  r !! c = Some x -> pad_row n r !! c = Some x.
Proof. intros Hx. unfold pad_row. by apply lookup_app_l_Some. Qed.

Lemma padded_rows (table : list (list string)) :
  Forall (fun r => length r = max_len table)
    (map (pad_row (max_len table)) table).
Proof.
  apply Forall_map, Forall_forall. intros r Hr. simpl.
  apply length_pad_row, max_len_ge. by apply list_elem_of_In.
Qed.

Lemma pad_table_dims (max_rows : nat) (table : list (list string)) :
  (length table <= max_rows)%nat ->
  length (pad_table max_rows table) = max_rows
  /\ Forall (fun r => length r = max_len table) (pad_table max_rows table).
Proof.
  intros Hle. unfold pad_table. split.
  - rewrite length_app, length_map, length_replicate. lia.
  - apply Forall_app. split; [apply padded_rows |].
    apply Forall_forall. intros r Hr.
    apply elem_of_replicate in Hr as [-> _]. apply length_replicate.
Qed.

Lemma lookup_pad_table (max_rows : nat) (table : list (list string))
      (r c : nat) (x : string) :
  cell_at table r c = Some x -> cell_at (pad_table max_rows table) r c = Some x.
Proof.
  unfold cell_at, pad_table. destruct (table !! r) as [cells |] eqn:E; [| done].
  intros Hx. erewrite lookup_app_l_Some.
  2: { rewrite lookup_map, E. reflexivity. }
  by apply lookup_pad_row.
Qed.


Lemma length_concat_map {A B : Type} (g : A -> list B) (w : A -> nat)
      (l : list A) :
  Forall (fun a => length (g a) = w a) l ->
  length (concat (map g l)) = list_sum (map w l).
Proof.
  induction 1 as [| a l Ha _ IH]; [done |].
  simpl. rewrite length_app. lia.
Qed.

Lemma lookup_concat_map {A B : Type} (g : A -> list B) (w : A -> nat)
      (l : list A) (i c : nat) (a : A) :
  Forall (fun a => length (g a) = w a) l ->
  l !! i = Some a ->
  (c < w a)%nat ->
  concat (map g l) !! (list_sum (map w (take i l)) + c)%nat = g a !! c.
Proof.
  intros Hall. revert i. induction Hall as [| b l Hb _ IH]; intros i Hi Hc.
  - done.
  - destruct i as [| i]; simpl in *.
    + injection Hi as ->. apply lookup_app_l. lia.
    + rewrite lookup_app_r by lia.
      replace (w b + list_sum (map w (take i l)) + c - length (g b))%nat
        with (list_sum (map w (take i l)) + c)%nat by lia.
      by apply IH.
Qed.

Lemma row_of_spec (max_rows row_idx : nat) (table : list (list string)) :
  (length table <= max_rows)%nat -> (row_idx < max_rows)%nat ->
  pad_table max_rows table !! row_idx = Some (row_of max_rows row_idx table)
  /\ length (row_of max_rows row_idx table) = max_len table.
Proof.
  intros Hle Hlt. destruct (pad_table_dims max_rows table Hle) as [Hlen Hall].
  unfold row_of.
  destruct (pad_table max_rows table !! row_idx) as [cells |] eqn:E.
  - rewrite (nth_lookup_Some _ _ _ _ E). split; [done |].
    rewrite Forall_forall in Hall. apply Hall. by eapply list_elem_of_lookup_2.
  - apply lookup_ge_None in E. lia.
Qed.

Lemma omap_padded (m row_idx : nat) (tables : list (list (list string))) :
  Forall (fun table => (length table <= m)%nat) tables ->
  (row_idx < m)%nat ->
  omap (fun table => table !! row_idx) (map (pad_table m) tables)
  = map (row_of m row_idx) tables.
Proof.
  intros Hall Hlt. induction Hall as [| t l Ht _ IH]; [done |].
  cbn. destruct (row_of_spec m row_idx t Ht Hlt) as [-> _]. cbn.
  f_equal. exact IH.
Qed.

Lemma merged_row (tables : list (list (list string))) (row_idx : nat) :
  (row_idx < max_len tables)%nat ->
  merge_tables_horizontally tables !! row_idx
  = Some (concat (map (row_of (max_len tables) row_idx) tables)).
Proof.
  intros Hlt. unfold merge_tables_horizontally.
  destruct tables as [| t0 ts]; [cbv in Hlt; lia |].
  set (tables := t0 :: ts) in *.
  rewrite lookup_map, lookup_seq_lt by done. cbn [option_map]. f_equal.
  simpl Nat.add. rewrite omap_padded; [done | | done].
  apply Forall_forall. intros t Ht. apply max_len_ge. by apply list_elem_of_In.
Qed.





End MergeAndTranspose.

(** X12.  The horizontal merge is as tall as the tallest grid and as
    wide as the widths of all grids together, and every cell of every
    grid is found again in its row, shifted right by the widths of the
    grids before it. *)
Theorem merge_tables_horizontally_layout (tables : list (list (list string))) :
  let merged := TableExtractor.merge_tables_horizontally tables in
  length merged = TableExtractor.max_len tables
  /\ Forall (fun row =>
               length row = list_sum (map TableExtractor.max_len tables))
       merged
  /\ (forall (i r c : nat) (table : list (list string)) (x : string),
         tables !! i = Some table ->
         cell_at table r c = Some x ->
         cell_at merged r
           (list_sum (map TableExtractor.max_len (take i tables)) + c)
         = Some x).
Proof.
  intros merged. subst merged.
  assert (length (TableExtractor.merge_tables_horizontally tables)
          = TableExtractor.max_len tables) as Hlen.
  { unfold TableExtractor.merge_tables_horizontally.
    destruct tables; [done |]. by rewrite length_map, length_seq. }
  assert (forall r, (r < TableExtractor.max_len tables)%nat ->
            Forall (fun table =>
                      length (TableCommands.row_of (TableExtractor.max_len tables) r table)
                      = TableExtractor.max_len table) tables) as Hrow.
  { intros r Hr. apply Forall_forall. intros t Ht.
    apply row_of_spec; [| done]. apply max_len_ge. by apply list_elem_of_In. }
  split; [done |]. split.
  - apply Forall_forall. intros row Hin.
    apply list_elem_of_lookup in Hin as [r Hr].
    assert (r < TableExtractor.max_len tables)%nat as Hlt.
    { rewrite <- Hlen. by eapply lookup_lt_Some. }
    rewrite (merged_row _ _ Hlt) in Hr. injection Hr as <-.
    apply length_concat_map. by apply Hrow.
  - intros i r c table x Hi Hx.
    assert (r < length table)%nat as Hr.
    { unfold cell_at in Hx. destruct (table !! r) eqn:E; [| done].
      by eapply lookup_lt_Some. }
    assert (length table <= TableExtractor.max_len tables)%nat as Hle.
    { apply max_len_ge. apply list_elem_of_In. by eapply list_elem_of_lookup_2. }
    assert (r < TableExtractor.max_len tables)%nat as Hlt by lia.
    unfold cell_at at 1. rewrite (merged_row _ _ Hlt).
    pose proof (lookup_pad_table (TableExtractor.max_len tables) _ _ _ _ Hx)
      as Hpad.
    destruct (row_of_spec (TableExtractor.max_len tables) r table Hle Hlt)
      as [Hrow_at Hrow_len].
    unfold cell_at in Hpad. rewrite Hrow_at in Hpad.
    rewrite (lookup_concat_map _ TableExtractor.max_len tables i c table
               (Hrow r Hlt) Hi); [done |].
    rewrite <- Hrow_len. by eapply lookup_lt_Some.
Qed.



(** ** Correcting twice *)

Section NoNewline.
Import PyStr.

Lemma has_newline_app (a b : string) :
  has_newline (a +:+ b) = has_newline a || has_newline b.
Proof.
  induction a as [| c a IH]; [done |]. simpl.
  change (String.append a b) with (a +:+ b). rewrite IH.
  by destruct (Ascii.eqb c nl).
Qed.

Lemma has_newline_reverse_onto (s acc : string) :
  has_newline (reverse_onto s acc) = has_newline s || has_newline acc.
Proof.
  revert acc. induction s as [| c s IH]; intros acc; [done |]. simpl.
  rewrite IH. simpl.
  destruct (Ascii.eqb c nl), (has_newline s), (has_newline acc); done.
Qed.

Lemma has_newline_reverse (s : string) :
  has_newline (reverse s) = has_newline s.
Proof.
  unfold reverse. rewrite has_newline_reverse_onto. simpl.
  by destruct (has_newline s).
Qed.

Lemma has_newline_lstrip (s : string) :
  has_newline s = false -> has_newline (lstrip s) = false.
Proof.
  induction s as [| c s IH]; [done |]. simpl.
  destruct (Ascii.eqb c nl) eqn:E; [done |]. simpl. intros Hs.
  destruct (isspace c); [by apply IH |]. simpl. by rewrite E.
Qed.

Lemma has_newline_strip (s : string) :
  has_newline s = false -> has_newline (strip s) = false.
Proof.
  intros Hs. unfold strip. rewrite has_newline_reverse.
  apply has_newline_lstrip. rewrite has_newline_reverse.
  by apply has_newline_lstrip.
Qed.

Lemma split_lines_no_newline (s : string) :
  Forall (fun l => has_newline l = false) (split_lines s).
Proof.
  induction s as [| c s IH]; simpl; [by repeat constructor |].
  destruct (Ascii.eqb c nl) eqn:E; [by constructor |].
  destruct (split_lines s) as [| first others].
  { repeat constructor. simpl. by rewrite E. }
  apply Forall_cons in IH as [Hf Ho]. constructor; [| done].
  simpl. by rewrite E.
Qed.

Lemma has_newline_join (parts : list string) :
  Forall (fun l => has_newline l = false) parts ->
  has_newline (join parts) = false.
Proof.
  unfold join. induction 1 as [| p parts Hp Hall IH]; [done |].
  simpl. destruct parts as [| q parts]; [done |].
  change (has_newline (p +:+ (EmptyString +:+ String.concat EmptyString (q :: parts)))
          = false).
  rewrite !has_newline_app, Hp. simpl. exact IH.
Qed.

Lemma has_newline_remove_backslash_n (n : nat) (s : string) :
  (String.length s <= n)%nat ->
  has_newline s = false -> has_newline (remove_backslash_n s) = false.
Proof.
  revert s. induction n as [| n IH]; intros s Hlen.
  - destruct s; [done | simpl in Hlen; lia].
  - destruct s as [| c s]; [done |]. simpl in Hlen.
    destruct s as [| d s]; [done |].
    intros Hs.
    assert (has_newline (String d s) = false) as Hs'.
    { simpl in Hs |- *. by destruct (Ascii.eqb c nl). }
    assert (has_newline s = false) as Hs''.
    { simpl in Hs' |- *. by destruct (Ascii.eqb d nl). }
    change (remove_backslash_n (String c (String d s)))
      with (if Ascii.eqb c backslash && Ascii.eqb d (ascii_of_nat 110)
            then remove_backslash_n s
            else String c (remove_backslash_n (String d s))).
    destruct (_ && _).
    + apply IH; [simpl in Hlen; lia | done].
    + change (Ascii.eqb c nl || has_newline (remove_backslash_n (String d s))
              = false).
      rewrite IH; [| lia | done]. simpl in Hs. by destruct (Ascii.eqb c nl).
Qed.

(** The text that the correction writes holds no line break. *)
Lemma corrected_text_clean (cell : string) :
  has_newline
    (remove_backslash_n
       (join (map reverse
                (rev (filter (fun l => truthy l = true)
                        (map strip (split_lines cell)))))))
  = false.
Proof.
  eapply has_newline_remove_backslash_n; [reflexivity |].
  apply has_newline_join, Forall_map.
  apply Forall_forall. intros l Hl. simpl. rewrite has_newline_reverse.
  apply list_elem_of_In, in_rev, list_elem_of_In in Hl.
  apply list_elem_of_filter in Hl as [_ Hl].
  apply list_elem_of_In, in_map_iff in Hl as (l0 & <- & Hl0).
  apply has_newline_strip.
  pose proof (split_lines_no_newline cell) as Hall.
  rewrite Forall_forall in Hall. apply Hall. by apply list_elem_of_In.
Qed.

Lemma correct_cell_result (cell : string) :
  TableExtractor.correct_cell cell = cell
  \/ has_newline (TableExtractor.correct_cell cell) = false.
Proof.
  unfold TableExtractor.correct_cell.
  destruct (_ || _); [by left |].
  destruct (has_newline cell) eqn:E; [| by left].
  destruct (Nat.ltb _ 2); [by left |]. right.
  apply corrected_text_clean.
Qed.

Lemma correct_cell_idempotent (cell : string) :
  TableExtractor.correct_cell (TableExtractor.correct_cell cell)
  = TableExtractor.correct_cell cell.
Proof.
  destruct (correct_cell_result cell) as [Hsame | Hno]; [by rewrite !Hsame |].
  unfold TableExtractor.correct_cell at 1.
  destruct (_ || _); [done |]. by rewrite Hno.
Qed.

Lemma correct_table_idempotent (table : list (list string)) :
  map (map TableExtractor.correct_cell)
    (map (map TableExtractor.correct_cell) table)
  = map (map TableExtractor.correct_cell) table.
Proof.
  rewrite map_map. apply map_ext. intros row. rewrite map_map.
  apply map_ext. intros x. apply correct_cell_idempotent.
Qed.

End NoNewline.

(** X14.  The forced orientation correction is idempotent: a corrected
    cell holds no line break, so pressing the button a second time
    changes nothing, and the grid keeps its shape. *)
Theorem forced_correction_is_idempotent (app : App) :
  let once := fst (TableCommands.force_text_orientation_correction app) in
  fst (TableCommands.force_text_orientation_correction once) = once
  /\ length (table_data once) = length (table_data app)
  /\ (forall r c, is_Some (cell_at (table_data once) r c)
                  <-> is_Some (cell_at (table_data app) r c)).
Proof.
  intros once. subst once.
  unfold TableCommands.force_text_orientation_correction.
  destruct (table_data app) as [| r0 t0] eqn:E.
  - simpl. rewrite E. split; [done |]. split; [by rewrite ?E |].
    intros r c. by rewrite ?E.
  - unfold TableExtractor._correct_text_orientation. rewrite E.
    cbn [fst table_data set_table_data].
    change (map (map TableExtractor.correct_cell) (r0 :: t0))
      with (map TableExtractor.correct_cell r0
            :: map (map TableExtractor.correct_cell) t0) at 1.
    cbn iota. cbn [fst table_data set_table_data].
    split; [by rewrite correct_table_idempotent |].
    split; [by rewrite length_map |].
    intros r c. rewrite cell_at_map. by destruct (cell_at (r0 :: t0) r c).
Qed.

(** ** After a multi-page run *)

Section AfterTheRun.
Import TableExtractor.

Lemma update_page_display_frame (app app' : App) :
  update_page_display app = Some app' ->
  pdf_document app' = pdf_document app
  /\ page_markers app' = page_markers app
  /\ marker_history app' = marker_history app
  /\ current_page app' = current_page app.
Proof.
  unfold update_page_display. destruct (no_document app).
  { by intros [= <-]. }
  destruct (load_page app (current_page app)); [| done].
  destruct (page_markers app !! current_page app); by intros [= <-].
Qed.

Lemma extract_pages_frame (mode : extraction_mode_t) (pages : list nat)
      (app app' : App) (acc tables : list (list (list string))) :
  extract_pages mode pages app acc = Some (app', tables) ->
  pdf_document app' = pdf_document app
  /\ page_markers app' = page_markers app
  /\ marker_history app' = marker_history app.
Proof.
  revert app acc. induction pages as [| p pages IH]; intros app acc; simpl.
  - by intros [= <- <-].
  - destruct (page_markers app !! p) as [d |]; [| done].
    destruct (update_page_display _) as [app2 |] eqn:E; [| done].
    intros Hrest. apply IH in Hrest as (H1 & H2 & H3).
    apply update_page_display_frame in E as (E1 & E2 & E3 & _).
    simpl in E1, E2, E3. rewrite H1, H2, H3. by repeat split.
Qed.

Lemma restore_reloads (original app : App) (pg : page) :
  no_document original = false ->
  load_page original (current_page original) = Some pg ->
  pdf_document app = pdf_document original ->
  page_markers app = page_markers original ->
  let final := restore original app in
  current_page final = current_page original
  /\ page_markers final = page_markers original
  /\ marker_history final = marker_history app
  /\ column_markers final
     = match page_markers original !! current_page original with
       | Some d => columns d
       | None => []
       end
  /\ row_markers final
     = match page_markers original !! current_page original with
       | Some d => rows d
       | None => []
       end.
Proof.
  intros Hdoc Hpg Hsame_doc Hsame_pm final. subst final.
  unfold restore, update_page_display.
  unfold no_document, load_page in *. simpl. rewrite Hsame_doc, Hsame_pm.
  destruct (pdf_document original) as [pages |]; [| done].
  rewrite Hdoc, Hpg.
  by destruct (page_markers original !! current_page original).
Qed.

End AfterTheRun.

(** X15.  A multi-page run that gets past its dialogs puts the page
    back, but not the working markers: whatever the outcome, the run
    ends by displaying the page again, which loads the markers saved
    for it, or none if the page is not marked.  Working markers that
    were not saved are gone after the run; the saved page markers and
    the history are as before. *)
Theorem multi_page_run_reloads_markers
        (mode : TableExtractor.extraction_mode_t)
        (merge_mode : TableExtractor.merge_mode_t) (do_transpose : bool)
        (app : App) :
  no_document app = false ->
  page_markers app <> ∅ ->
  is_Some (load_page app (current_page app)) ->
  let after :=
    fst (TableExtractor.extract_from_marked_pages mode
           (Some (merge_mode, do_transpose)) app) in
  current_page after = current_page app
  /\ page_markers after = page_markers app
  /\ marker_history after = marker_history app
  /\ column_markers after
     = match page_markers app !! current_page app with
       | Some d => columns d
       | None => []
       end
  /\ row_markers after
     = match page_markers app !! current_page app with
       | Some d => rows d
       | None => []
       end.
Proof.
  intros Hdoc Hpm [pg Hpg] after. subst after.
  unfold TableExtractor.extract_from_marked_pages.
  rewrite Hdoc, (bool_decide_eq_false_2 _ Hpm).
  destruct (TableExtractor.extract_pages mode (TableExtractor.marked_pages app)
              app []) as [[app' all_tables] |] eqn:E.
  - apply extract_pages_frame in E as (H1 & H2 & H3).
    destruct all_tables as [| g gs].
    + destruct (restore_reloads app app' pg Hdoc Hpg H1 H2)
        as (R1 & R2 & R3 & R4 & R5).
      simpl. rewrite R3, H3. by repeat split.
    + destruct (match merge_mode with
                | TableExtractor.vertical => _
                | TableExtractor.horizontal => _
                end) as [| r0 t0].
      * destruct do_transpose.
        -- destruct (restore_reloads app app' pg Hdoc Hpg H1 H2)
             as (R1 & R2 & R3 & R4 & R5).
           simpl. rewrite R3, H3. by repeat split.
        -- match goal with
           | |- context [TableExtractor.restore app ?x] =>
               destruct (restore_reloads app x pg Hdoc Hpg H1 H2)
                 as (R1 & R2 & R3 & R4 & R5)
           end.
           simpl fst. rewrite R3. simpl. rewrite H3. by repeat split.
      * match goal with
        | |- context [TableExtractor.restore app ?x] =>
            destruct (restore_reloads app x pg Hdoc Hpg H1 H2)
              as (R1 & R2 & R3 & R4 & R5)
        end.
        simpl fst. rewrite R3. simpl. rewrite H3. by repeat split.
  - destruct (restore_reloads app app pg Hdoc Hpg eq_refl eq_refl)
      as (R1 & R2 & R3 & R4 & R5).
    simpl. by repeat split.
Qed.

(** Working markers 5 and 50, not saved, on a page whose saved markers
    are 0 and 100: after the run the working markers are 0 and 100. *)
Lemma multi_page_run_reloads_markers_witness :
  column_markers
    (fst (TableExtractor.extract_from_marked_pages TableExtractor.space
            (Some (TableExtractor.vertical, false))
            (set_markers [5%Q; 50%Q] [5%Q; 50%Q] [] two_marked_pages_app)))
  = [0%Q; 100%Q].
Proof.
  refine (proj1 (proj2 (proj2 (proj2
            (multi_page_run_reloads_markers TableExtractor.space
               TableExtractor.vertical false
               (set_markers [5%Q; 50%Q] [5%Q; 50%Q] [] two_marked_pages_app)
               _ _ _))))).
  - reflexivity.
  - intros H. apply (f_equal (fun m => m !! 0%nat)) in H. discriminate H.
  - by eexists.
Defined.

(** ** Reversed and flipped text *)

Section Reversal.
Import PyStr.

Lemma append_empty_r (s : string) : s +:+ EmptyString = s.
Proof.
  induction s as [| c s IH]; [done |].
  change (String c (s +:+ EmptyString) = String c s). by rewrite IH.
Qed.

Lemma append_assoc_string (a b c : string) :
  (a +:+ b) +:+ c = a +:+ (b +:+ c).
Proof.
  induction a as [| x a IH]; [done |].
  change (String x ((a +:+ b) +:+ c) = String x (a +:+ (b +:+ c))).
  by rewrite IH.
Qed.

Lemma reverse_onto_app (s acc : string) :
  reverse_onto s acc = reverse s +:+ acc.
Proof.
  unfold reverse. revert acc. induction s as [| c s IH]; intros acc; [done |].
  simpl. rewrite (IH (String c acc)), (IH (String c EmptyString)).
  by rewrite append_assoc_string.
Qed.

Lemma reverse_cons (c : ascii) (s : string) :
  reverse (String c s) = reverse s +:+ String c EmptyString.
Proof. unfold reverse at 1. simpl. apply reverse_onto_app. Qed.

Lemma reverse_app (a b : string) :
  reverse (a +:+ b) = reverse b +:+ reverse a.
Proof.
  induction a as [| c a IH].
  - simpl. by rewrite append_empty_r.
  - change (reverse (String c (a +:+ b))
            = reverse b +:+ reverse (String c a)).
    by rewrite !reverse_cons, IH, append_assoc_string.
Qed.

Lemma reverse_involutive (s : string) : reverse (reverse s) = s.
Proof.
  induction s as [| c s IH]; [done |].
  rewrite reverse_cons, reverse_app, IH. done.
Qed.

Lemma length_append (a b : string) :
  String.length (a +:+ b) = (String.length a + String.length b)%nat.
Proof.
  induction a as [| c a IH]; [done |].
  change (S (String.length (a +:+ b)) = S (String.length a + String.length b)).
  by rewrite IH.
Qed.

Lemma length_reverse (s : string) :
  String.length (reverse s) = String.length s.
Proof.
  induction s as [| c s IH]; [done |].
  rewrite reverse_cons, length_append, IH. simpl. lia.
Qed.

Lemma concat_cons (sep x y : string) (l : list string) :
  String.concat sep (x :: y :: l) = x +:+ sep +:+ String.concat sep (y :: l).
Proof. done. Qed.

Lemma concat_snoc (sep : string) (l : list string) (q : string) :
  l <> [] ->
  String.concat sep (l ++ [q]) = String.concat sep l +:+ sep +:+ q.
Proof.
  induction l as [| x l IH]; [done |]. intros _.
  destruct l as [| y l]; [done |].
  change ((x :: y :: l) ++ [q]) with (x :: y :: (l ++ [q])).
  rewrite !concat_cons.
  change (y :: l ++ [q]) with ((y :: l) ++ [q]). rewrite IH by done.
  by rewrite !append_assoc_string.
Qed.

Lemma join_with_snoc (sep : string) (parts : list string) (p q : string) :
  join_with sep ((parts ++ [p]) ++ [q])
  = join_with sep (parts ++ [p]) +:+ sep +:+ q.
Proof. unfold join_with. apply concat_snoc. by destruct parts. Qed.

Lemma join_with_last (sep : string) (parts : list string) (p : string)
      (c : ascii) :
  join_with sep (parts ++ [p +:+ String c EmptyString])
  = join_with sep (parts ++ [p]) +:+ String c EmptyString.
Proof.
  unfold join_with. destruct parts as [| x parts] using rev_ind; [done |].
  rewrite (concat_snoc sep (parts ++ [x]) p) by by destruct parts.
  rewrite (concat_snoc sep (parts ++ [x]) (p +:+ String c EmptyString))
    by by destruct parts.
  by rewrite !append_assoc_string.
Qed.

Lemma split_lines_nonempty (s : string) : split_lines s <> [].
Proof.
  induction s as [| c s IH]; simpl; [done |].
  destruct (Ascii.eqb c nl); [done |]. by destruct (split_lines s).
Qed.

(** Reversing the lines and each line is reversing the text. *)
Lemma flipped_is_reversed (s : string) :
  join_with (String nl EmptyString) (map reverse (rev (split_lines s)))
  = reverse s.
Proof.
  induction s as [| c s IH]; [done |]. simpl split_lines.
  destruct (Ascii.eqb c nl) eqn:E.
  - apply Ascii.eqb_eq in E. subst c. simpl rev. rewrite map_app. simpl map.
    rewrite reverse_cons, <- IH.
    destruct (split_lines s) as [| first others] eqn:Es.
    { by apply split_lines_nonempty in Es. }
    simpl rev. rewrite map_app. simpl map.
    rewrite join_with_snoc. change (reverse EmptyString) with EmptyString.
    by rewrite append_empty_r.
  - destruct (split_lines s) as [| first others] eqn:Es.
    { by apply split_lines_nonempty in Es. }
    simpl rev in *. rewrite map_app in *. simpl map in *.
    rewrite !reverse_cons, join_with_last, IH. done.
Qed.

End Reversal.

(** X18.  The correction for upside-down text and the correction for
    right-to-left text are the same function: reversing the lines of a
    cell and the characters of each line reverses the cell.  Applied
    twice, either one gives the table back. *)
Theorem flipped_correction_is_rtl_correction (self : Orientation.t)
        (app : App) :
  Orientation._correct_flipped_text self app
  = Orientation._correct_rtl_text self app
  /\ table_data
       (snd (Orientation._correct_rtl_text
               (fst (Orientation._correct_rtl_text self app))
               (snd (Orientation._correct_rtl_text self app))))
     = table_data app.
Proof.
  assert (forall cell, Orientation.correct_flipped_cell cell
                       = Orientation.correct_rtl_cell cell) as Hcell.
  { intros cell. unfold Orientation.correct_flipped_cell,
      Orientation.correct_rtl_cell.
    destruct (_ || _); [done |]. apply flipped_is_reversed. }
  assert (forall cell, Orientation.correct_rtl_cell
                         (Orientation.correct_rtl_cell cell) = cell) as Htwice.
  { intros cell. unfold Orientation.correct_rtl_cell at 2.
    destruct (negb (PyStr.truthy cell) || Nat.ltb (String.length cell) 2) eqn:E.
    - unfold Orientation.correct_rtl_cell. by rewrite E.
    - unfold Orientation.correct_rtl_cell. rewrite length_reverse.
      assert (PyStr.truthy (PyStr.reverse cell) = PyStr.truthy cell) as ->.
      { pose proof (length_reverse cell) as Hl.
        destruct cell, (PyStr.reverse _); simpl in *; done. }
      rewrite E. apply reverse_involutive. }
  split.
  - unfold Orientation._correct_flipped_text, Orientation._correct_rtl_text,
      Orientation.correct_with.
    assert (map (map Orientation.correct_flipped_cell) (table_data app)
            = map (map Orientation.correct_rtl_cell) (table_data app)) as ->;
      [| done].
    apply map_ext. intros row. by apply map_ext.
  - unfold Orientation._correct_rtl_text, Orientation.correct_with. simpl.
    rewrite map_map. rewrite <- (map_id (table_data app)) at 2.
    apply map_ext. intros row. rewrite map_map.
    rewrite <- (map_id row) at 2. by apply map_ext.
Qed.



(** ** CSV export *)

Section CsvCells.
Import Exporters.

Lemma append_quote_inj (a b : string) :
  a +:+ String quote EmptyString = b +:+ String quote EmptyString -> a = b.
Proof.
  revert b. induction a as [| c a IH]; intros [| d b]; simpl; intros H.
  - done.
  - injection H as _ H. by destruct b.
  - injection H as _ H. by destruct a.
  - injection H as -> H. f_equal. by apply IH.
Qed.

Lemma double_quotes_inj (a b : string) :
  double_quotes a = double_quotes b -> a = b.
Proof.
  revert b. induction a as [| c a IH]; intros [| d b]; simpl.
  - done.
  - by destruct (Ascii.eqb d quote).
  - by destruct (Ascii.eqb c quote).
  - destruct (Ascii.eqb c quote) eqn:Ec, (Ascii.eqb d quote) eqn:Ed; intros H.
    + apply Ascii.eqb_eq in Ec, Ed. subst. injection H as H. f_equal. by apply IH.
    + injection H as H1 H2. subst d. by rewrite Ascii.eqb_refl in Ed.
    + injection H as H1 H2. subst c. by rewrite Ascii.eqb_refl in Ec.
    + injection H as -> H. f_equal. by apply IH.
Qed.

Lemma double_quotes_empty (a : string) :
  double_quotes a = EmptyString -> a = EmptyString.
Proof. destruct a as [| c a]; [done |]. simpl. by destruct (Ascii.eqb c quote). Qed.

Lemma quoted_contains (a b : string) :
  contains quote b = false ->
  String quote a <> b.
Proof. intros Hb <-. cbn in Hb. rewrite ?Ascii.eqb_refl in Hb. done. Qed.

Lemma format_cell_cases (cell : string) :
  (contains comma cell || contains quote cell = true
   /\ format_cell cell
      = String quote (double_quotes cell +:+ String quote EmptyString))
  \/ (cell = EmptyString
      /\ format_cell cell = String quote (String quote EmptyString))
  \/ (contains quote cell = false /\ cell <> EmptyString
      /\ format_cell cell = cell).
Proof.
  unfold format_cell. destruct (contains comma cell || contains quote cell) eqn:E.
  - by left.
  - right. apply orb_false_elim in E as [_ E]. case_bool_decide; [by left | by right].
Qed.

End CsvCells.

(** X16.  [export_to_csv] never writes two different cells the same
    way: the text of a cell determines the cell.  A written cell is
    never empty, and it holds a comma only between quotes. *)
Theorem format_cell_injective (a b : string) :
  (Exporters.format_cell a = Exporters.format_cell b -> a = b)
  /\ Exporters.format_cell a <> EmptyString
  /\ (Exporters.contains Exporters.comma (Exporters.format_cell a) = true ->
      exists inner,
        Exporters.format_cell a
        = String Exporters.quote (inner +:+ String Exporters.quote EmptyString)).
Proof.
  split; [| split].
  - destruct (format_cell_cases a) as [[Ca Ha] | [[Ca Ha] | (Ca & Na & Ha)]],
      (format_cell_cases b) as [[Cb Hb] | [[Cb Hb] | (Cb & Nb & Hb)]];
      rewrite Ha, Hb; intros H.
    + injection H as H. by apply double_quotes_inj, append_quote_inj.
    + injection H as H.
      apply (append_quote_inj _ EmptyString), double_quotes_empty in H.
      by subst.
    + by apply quoted_contains in H.
    + injection H as H. symmetry in H.
      apply (append_quote_inj _ EmptyString), double_quotes_empty in H.
      by subst.
    + by subst.
    + by apply quoted_contains in H.
    + symmetry in H. by apply quoted_contains in H.
    + symmetry in H. by apply quoted_contains in H.
    + done.
  - destruct (format_cell_cases a) as [[Ca Ha] | [[Ca Ha] | (Ca & Na & Ha)]];
      by rewrite Ha.
  - unfold Exporters.format_cell.
    destruct (Exporters.contains Exporters.comma a) eqn:E; simpl.
    + intros _. by eexists.
    + destruct (Exporters.contains Exporters.quote a); [intros _; by eexists |].
      case_bool_decide; [intros _; by exists EmptyString |]. by rewrite E.
Qed.

Section CsvLines.
Import Exporters.

Lemma contains_app (x : ascii) (a b : string) :
  contains x (a +:+ b) = contains x a || contains x b.
Proof.
  induction a as [| y a IH]; [done |]. simpl.
  change (String.append a b) with (a +:+ b). rewrite IH.
  by destruct (Ascii.eqb y x).
Qed.

Lemma format_plain (cell : string) :
  contains comma cell = false -> contains quote cell = false ->
  cell <> EmptyString -> format_cell cell = cell.
Proof.
  intros Hc Hq Hne. unfold format_cell. rewrite Hc, Hq. simpl.
  by rewrite bool_decide_eq_false_2.
Qed.

End CsvLines.

(** X17.  [export_to_csv] does not quote line breaks: a cell that holds
    two lines, as the newline extraction mode produces them, is written
    exactly like two rows of one cell each, so the file does not
    determine the grid. *)
Theorem csv_line_break_is_not_quoted (a b path : string) :
  Exporters.contains Exporters.comma a = false ->
  Exporters.contains Exporters.quote a = false ->
  Exporters.contains Exporters.comma b = false ->
  Exporters.contains Exporters.quote b = false ->
  a <> EmptyString -> b <> EmptyString -> path <> EmptyString ->
  Exporters.export_to_csv [[a +:+ String PyStr.nl (b)]] (Some path)
  = Exporters.export_to_csv [[a]; [b]] (Some path)
  /\ Exporters.export_to_csv [[a]; [b]] (Some path)
     = Some (a +:+ String PyStr.nl (b +:+ String PyStr.nl EmptyString)).
Proof.
  intros Hca Hqa Hcb Hqb Ha Hb Hpath.
  destruct path as [| p path]; [done |].
  unfold Exporters.export_to_csv, Exporters.format_row, PyStr.join,
    PyStr.join_with.
  cbn [map String.concat].
  rewrite (format_plain a Hca Hqa Ha), (format_plain b Hcb Hqb Hb).
  rewrite format_plain.
  - split; f_equal.
    + cbn [String.append]. rewrite !append_assoc_string. done.
    + cbn [String.append]. rewrite !append_assoc_string. done.
  - rewrite contains_app, Hca. cbn. by rewrite Hcb.
  - rewrite contains_app, Hqa. cbn. by rewrite Hqb.
  - by destruct a.
Qed.

(** The cell with the lines "x" and "y", and the rows "x" and "y". *)
Lemma csv_line_break_is_not_quoted_witness :
  Exporters.export_to_csv [["x" +:+ String PyStr.nl "y"]]%string
    (Some "t.csv"%string)
  = Exporters.export_to_csv [["x"]; ["y"]]%string (Some "t.csv"%string).
Proof.
  refine (proj1 (csv_line_break_is_not_quoted "x" "y" "t.csv" _ _ _ _ _ _ _));
    (reflexivity || discriminate).
Defined.

(** ** The detector after the correction *)

Section DetectorAfterCorrection.
Import PyStr.

Lemma lstrip_blank (l : string) : all_chars isspace l = true -> lstrip l = EmptyString.
Proof.
  induction l as [| c l IH]; [done |]. simpl.
  destruct (isspace c); [exact IH | done].
Qed.

Lemma all_chars_reverse_onto (p : ascii -> bool) (s acc : string) :
  all_chars p (reverse_onto s acc) = all_chars p s && all_chars p acc.
Proof.
  revert acc. induction s as [| c s IH]; intros acc; [done |]. simpl.
  rewrite IH. simpl. by destruct (p c), (all_chars p s), (all_chars p acc).
Qed.

Lemma strip_blank (l : string) : all_chars isspace l = true -> strip l = EmptyString.
Proof. intros H. unfold strip. by rewrite (lstrip_blank l H). Qed.

Lemma short_line_nonblank (l : string) :
  TableExtractor.short_line l = true -> TableCommands.nonblank l = true.
Proof.
  unfold TableExtractor.short_line, TableCommands.nonblank. intros H.
  destruct (all_chars isspace l) eqn:E; [| done].
  rewrite (strip_blank l E) in H. by simpl in H.
Qed.

(** A character that is not a space, somewhere in the text. *)
Lemma nonblank_line_char (s : string) :
  Exists (fun l => TableCommands.nonblank l = true) (split_lines s) ->
  exists y d z, s = y +:+ String d z /\ isspace d = false.
Proof.
  induction s as [| a s IH]; simpl.
  - intros H. apply Exists_cons in H as [H | H]; [done |]. by apply Exists_nil in H.
  - destruct (isspace a) eqn:Ea.
    + intros H.
      assert (Exists (fun l => TableCommands.nonblank l = true) (split_lines s)) as H'.
      { destruct (Ascii.eqb a nl).
        - apply Exists_cons in H as [H | H]; [done | exact H].
        - destruct (split_lines s) as [| first others].
          + apply Exists_cons in H as [H | H];
              [| by apply Exists_nil in H].
            unfold TableCommands.nonblank in H. simpl in H. by rewrite Ea in H.
          + apply Exists_cons in H as [H | H].
            * apply Exists_cons. left. unfold TableCommands.nonblank in *. simpl in H.
              by rewrite Ea in H.
            * apply Exists_cons. by right. }
      destruct (IH H') as (y & d & z & -> & Hd).
      by exists (String a y), d, z.
    + intros _. by exists EmptyString, a, s.
Qed.

Lemma later_line_char (s : string) :
  Exists (fun l => TableCommands.nonblank l = true) (tail (split_lines s)) ->
  exists y d z, s = y +:+ String d z /\ isspace d = false
                /\ y <> EmptyString.
Proof.
  induction s as [| a s IH]; simpl.
  - intros H. by apply Exists_nil in H.
  - destruct (Ascii.eqb a nl) eqn:Ea.
    + simpl. intros H. destruct (nonblank_line_char s H) as (y & d & z & -> & Hd).
      by exists (String a y), d, z.
    + destruct (split_lines s) as [| first others] eqn:Es; simpl.
      * intros H. by apply Exists_nil in H.
      * intros H. destruct (IH H) as (y & d & z & -> & Hd & _).
        by exists (String a y), d, z.
Qed.

Lemma isspace_nl : isspace nl = true.
Proof. done. Qed.

(** Two lines that are not blank: two characters that are not spaces,
    with something in between. *)
Lemma two_nonblank_lines (s : string) :
  (2 <= length (filter (fun l => TableCommands.nonblank l = true) (split_lines s)))%nat ->
  exists x c y d z,
    s = x +:+ String c (y +:+ String d z)
    /\ isspace c = false /\ isspace d = false /\ y <> EmptyString.
Proof.
  induction s as [| a s IH]; cbn [split_lines].
  - rewrite filter_cons_False by done. simpl. lia.
  - destruct (Ascii.eqb a nl) eqn:Ea.
    + rewrite filter_cons_False by done. intros H.
      destruct (IH H) as (x & c & y & d & z & -> & Hc & Hd & Hy).
      by exists (String a x), c, y, d, z.
    + destruct (split_lines s) as [| first others] eqn:Es.
      { rewrite filter_cons, filter_nil. destruct (decide _); simpl; lia. }
      destruct (isspace a) eqn:Esp.
      * intros H.
        assert (2 <= length (filter (fun l => TableCommands.nonblank l = true)
                               (first :: others)))%nat as H'.
        { rewrite filter_cons in H |- *.
          assert (TableCommands.nonblank (String a first) = TableCommands.nonblank first) as Heq.
          { unfold TableCommands.nonblank. simpl. by rewrite Esp. }
          rewrite Heq in H. destruct (decide (TableCommands.nonblank first = true));
            simpl in *; lia. }
        destruct (IH H') as (x & c & y & d & z & -> & Hc & Hd & Hy).
        by exists (String a x), c, y, d, z.
      * intros H. rewrite filter_cons in H.
        assert (Exists (fun l => TableCommands.nonblank l = true) (tail (split_lines s)))
          as Hlater.
        { rewrite Es. simpl.
          destruct (filter (fun l => TableCommands.nonblank l = true) others) as [| l ls] eqn:Ef.
          - destruct (decide _); simpl in H; lia.
          - apply Exists_exists. exists l.
            assert (l ∈ filter (fun l => TableCommands.nonblank l = true) others) as Hl
                by (rewrite Ef; by left).
            apply list_elem_of_filter in Hl as [Hl1 Hl2].
            split; [exact Hl2 | exact Hl1]. }
        destruct (later_line_char s Hlater) as (y & d & z & -> & Hd & Hy).
        by exists EmptyString, a, y, d, z.
Qed.

(** [lstrip] stops at the first character that is not a space. *)
Lemma lstrip_stops (x : string) (c : ascii) (r : string) :
  isspace c = false ->
  exists x', lstrip (x +:+ String c r) = x' +:+ String c r.
Proof.
  intros Hc. induction x as [| a x IH].
  - exists EmptyString. simpl. by rewrite Hc.
  - change (String a x +:+ String c r) with (String a (x +:+ String c r)).
    simpl. destruct (isspace a); [exact IH |].
    by exists (String a x).
Qed.

Lemma strip_spans (x : string) (c : ascii) (y : string) (d : ascii)
      (z : string) :
  isspace c = false -> isspace d = false ->
  (2 + String.length y
   <= String.length (strip (x +:+ String c (y +:+ String d z))))%nat.
Proof.
  intros Hc Hd. unfold strip. rewrite length_reverse.
  destruct (lstrip_stops x c (y +:+ String d z) Hc) as [x' ->].
  replace (x' +:+ String c (y +:+ String d z))
    with ((x' +:+ String c y) +:+ String d z).
  2: { rewrite append_assoc_string. done. }
  rewrite reverse_app, reverse_cons.
  rewrite append_assoc_string.
  change (String d EmptyString +:+ reverse (x' +:+ String c y))
    with (String d (reverse (x' +:+ String c y))).
  destruct (lstrip_stops (reverse z) d (reverse (x' +:+ String c y)) Hd)
    as [z' ->].
  rewrite length_append. simpl. rewrite length_reverse, length_append. simpl.
  lia.
Qed.

Lemma length_filter_map {A B : Type} (P : B -> Prop) (Q : A -> Prop)
      `{forall b, Decision (P b)} `{forall a, Decision (Q a)}
      (f : A -> B) (l : list A) :
  (forall a, Q a -> P (f a)) ->
  (length (filter Q l) <= length (filter P (map f l)))%nat.
Proof.
  intros Himp. induction l as [| a l IH]; [done |]. simpl.
  rewrite !filter_cons. destruct (decide (Q a)) as [Hq | Hq].
  - rewrite decide_True by by apply Himp. simpl. lia.
  - destruct (decide (P (f a))); simpl; lia.
Qed.

Lemma length_filter_mono {A : Type} (P Q : A -> Prop)
      `{forall a, Decision (P a)} `{forall a, Decision (Q a)} (l : list A) :
  (forall a, Q a -> P a) ->
  (length (filter Q l) <= length (filter P l))%nat.
Proof.
  intros Himp. induction l as [| a l IH]; [done |].
  rewrite !filter_cons. destruct (decide (Q a)) as [Hq | Hq].
  - rewrite decide_True by by apply Himp. simpl. lia.
  - destruct (decide (P a)); simpl; lia.
Qed.

(** A cell that the detector counts is a cell that the correction
    rewrites. *)
Lemma stacked_is_corrected (cell : string) :
  has_newline cell = true ->
  (3 <= length (split_lines cell))%nat ->
  (length (split_lines cell)
   < 2 * length (filter (fun l => TableExtractor.short_line l = true)
                   (split_lines cell)))%nat ->
  has_newline (TableExtractor.correct_cell cell) = false.
Proof.
  intros Hnl H3 Hshort.
  set (short_lines := filter (fun l => TableExtractor.short_line l = true)
                        (split_lines cell)) in *.
  assert (2 <= length short_lines)%nat as H2 by lia.
  assert (2 <= length (filter (fun l => TableCommands.nonblank l = true) (split_lines cell)))%nat
    as Hnonblank.
  { etransitivity; [exact H2 |]. apply length_filter_mono.
    intros l. apply short_line_nonblank. }
  destruct (two_nonblank_lines cell Hnonblank)
    as (x & c & y & d & z & Hcell & Hc & Hd & Hy).
  assert (3 <= String.length (strip cell))%nat as Hstrip.
  { rewrite Hcell. pose proof (strip_spans x c y d z Hc Hd) as Hs.
    destruct y; [done |]. simpl in Hs. lia. }
  assert (2 <= length (filter (fun l => truthy l = true)
                         (map strip (split_lines cell))))%nat as Hlines.
  { etransitivity; [exact H2 |].
    apply (length_filter_map (fun l => truthy l = true)
             (fun l => TableExtractor.short_line l = true) strip).
    intros l Hl. unfold TableExtractor.short_line in Hl.
    apply andb_prop in Hl as [_ Hl]. by destruct (strip l). }
  unfold TableExtractor.correct_cell.
  assert (truthy cell = true) as -> by by destruct cell.
  rewrite (proj2 (Nat.ltb_ge _ _) Hstrip). simpl. rewrite Hnl.
  rewrite (proj2 (Nat.ltb_ge _ _) Hlines).
  apply corrected_text_clean.
Qed.

End DetectorAfterCorrection.

Section Silenced.
Import PyStr.

Lemma corrected_cell_not_stacked (cell : string) :
  has_newline (TableExtractor.correct_cell cell)
  && (Nat.leb 3 (length (split_lines (TableExtractor.correct_cell cell)))
      && Nat.ltb (length (split_lines (TableExtractor.correct_cell cell)))
           (2 * length (filter (fun l => TableExtractor.short_line l = true)
                          (split_lines (TableExtractor.correct_cell cell)))))
  = false.
Proof.
  destruct (correct_cell_result cell) as [Hsame | Hno]; [| by rewrite Hno].
  rewrite !Hsame.
  destruct (has_newline cell) eqn:Hnl; [| done].
  destruct (Nat.leb 3 (length (split_lines cell))) eqn:H3; [| done].
  destruct (Nat.ltb (length (split_lines cell)) _) eqn:Hs; [| done].
  exfalso. apply Nat.leb_le in H3. apply Nat.ltb_lt in Hs.
  pose proof (stacked_is_corrected cell Hnl H3 Hs) as Hclean.
  rewrite Hsame in Hclean. by rewrite Hnl in Hclean.
Qed.

Lemma corrected_table_not_detected (table : list (list string)) :
  TableExtractor._detect_orientation_issues
    (map (map TableExtractor.correct_cell) table) = false.
Proof.
  unfold TableExtractor._detect_orientation_issues.
  set (all_text := filter (fun cell => truthy cell = true)
                     (concat (map (map TableExtractor.correct_cell) table))).
  assert (Forall (fun c => exists cell, c = TableExtractor.correct_cell cell)
            all_text) as Hall.
  { apply Forall_forall. intros c Hc. subst all_text.
    apply list_elem_of_filter in Hc as [_ Hc].
    apply list_elem_of_In, in_concat in Hc as (row & Hrow & Hc).
    apply in_map_iff in Hrow as (row0 & <- & _).
    apply in_map_iff in Hc as (cell & <- & _). by exists cell. }
  destruct all_text as [| c0 cs] eqn:E; [done |].
  rewrite <- E in *. clear E.
  match goal with
  | |- context [length (filter ?P all_text)] =>
      assert (filter P all_text = []) as ->; [| done]
  end.
  induction Hall as [| c l (cell & ->) _ IH]; [done |].
  rewrite filter_cons_False; [exact IH |].
  by rewrite corrected_cell_not_stacked.
Qed.

End Silenced.

(** X26.  The correction silences the detector: on a grid that
    [_correct_text_orientation] has rewritten,
    [_detect_orientation_issues] finds nothing, because every cell that
    the detector counts is a cell that the correction turns into one
    line.  So [extract_table] with the correction accepted either fails
    and leaves the application as it was, or stores a grid that the
    detector passes. *)
Theorem correction_silences_detector
        (mode : TableExtractor.extraction_mode_t) (app : App) :
  TableExtractor._detect_orientation_issues
    (table_data (TableExtractor._correct_text_orientation app)) = false
  /\ (TableExtractor.extract_table mode true app = app
      \/ TableExtractor._detect_orientation_issues
           (table_data (TableExtractor.extract_table mode true app)) = false).
Proof.
  split; [apply corrected_table_not_detected |].
  unfold TableExtractor.extract_table.
  destruct (_ || _); [by left |].
  destruct (load_page app (current_page app)) as [pg |]; [| by left].
  destruct (get_text pg) as [blocks |]; [| by left].
  right.
  destruct (TableExtractor._detect_orientation_issues
              (TableExtractor.build_table TableExtractor.newline_sep
                 (column_markers app) (row_markers app) pg blocks)) eqn:E;
    simpl.
  - apply corrected_table_not_detected.
  - exact E.
Qed.

(** ** Manual input *)

Section ManualCells.
Import ManualInput.

Lemma rectangular_lookup {A : Type} (R C : nat) (m : list (list A))
      (i j : Z) :
  rectangular R C m -> 0 <= i < Z.of_nat R -> 0 <= j < Z.of_nat C ->
  inside (i, j) m = true
  /\ exists r x, m !! Z.to_nat i = Some r /\ length r = C
                 /\ r !! Z.to_nat j = Some x.
Proof.
  intros [Hlen Hall] Hi Hj.
  assert (Z.to_nat i < length m)%nat as Hi' by lia.
  destruct (lookup_lt_is_Some_2 m _ Hi') as [r Hr].
  assert (length r = C) as Hrl.
  { rewrite Forall_forall in Hall. apply Hall. by eapply list_elem_of_lookup_2. }
  assert (Z.to_nat j < length r)%nat as Hj' by lia.
  destruct (lookup_lt_is_Some_2 r _ Hj') as [x Hx].
  split; [| by exists r, x].
  unfold inside. destruct m as [| r0 m0]; [simpl in Hlen; lia |].
  assert (length r0 = C) as Hr0 by by apply Forall_cons in Hall as [? _].
  rewrite Hr0, Hlen.
  repeat (apply andb_true_intro; split); lia.
Qed.

Lemma rectangular_insert (R C : nat) (m : list (list string))
      (i j : nat) (r : list string) (x : string) :
  rectangular R C m -> m !! i = Some r ->
  rectangular R C (<[i := <[j := x]> r]> m).
Proof.
  intros [Hlen Hall] Hr. split; [by rewrite length_insert |].
  apply Forall_insert; [done |]. rewrite length_insert.
  rewrite Forall_forall in Hall. apply Hall. by eapply list_elem_of_lookup_2.
Qed.

(** The text of the entry written into the current cell of [m]. *)
Lemma save_while_editing (R C : nat) (self : t) :
  editing R C self ->
  exists l m r txt,
    manual_table_data self = Some l /\ objects self !! l = Some m
    /\ rectangular R C m
    /\ m !! Z.to_nat (fst (current_cell self)) = Some r
    /\ cell_text_entry self = Some txt
    /\ _save_current_cell_content self
       = Some (set_objects
                 (<[l := <[Z.to_nat (fst (current_cell self)) :=
                             <[Z.to_nat (snd (current_cell self)) := txt]> r]>
                          m]> (objects self)) self).
Proof.
  intros (Hact & [txt Htxt] & HR & HC & (m & Hm & Hrect) & _ & Hrow & Hcol).
  unfold table_of in Hm. destruct (manual_table_data self) as [l |] eqn:El;
    [| done].
  destruct (current_cell self) as [i j] eqn:Ecell. simpl in Hrow, Hcol.
  destruct (rectangular_lookup R C m i j Hrect Hrow Hcol)
    as (Hin & r & x & Hr & Hrl & Hx).
  exists l, m, r, txt. repeat split; try done; try apply Hrect.
  unfold _save_current_cell_content.
  rewrite Hact, Htxt, El, Hm, Ecell, Hin, Hr. simpl.
  rewrite (proj2 (Nat.ltb_lt _ _)); [done | lia].
Qed.

Lemma editing_after_save (R C : nat) (self self1 : t) :
  editing R C self -> _save_current_cell_content self = Some self1 ->
  editing R C self1
  /\ current_cell self1 = current_cell self
  /\ cell_text_entry self1 = cell_text_entry self
  /\ manual_table_data self1 = manual_table_data self
  /\ all_pages_manual_data self1 = all_pages_manual_data self
  /\ cell_coordinates self1 = cell_coordinates self
  /\ dom (objects self1) = dom (objects self).
Proof.
  intros Hed Hsave.
  destruct (save_while_editing R C self Hed)
    as (l & m & r & txt & Hl & Hm & Hrect & Hr & Htxt & Heq).
  rewrite Heq in Hsave. injection Hsave as <-.
  destruct Hed as (Hact & Hentry & HR & HC & _ & Hcc & Hrow & Hcol).
  split; [| repeat split; try done].
  - split; [done |]. split; [done |]. split; [done |]. split; [done |].
    split; [| split; [exact Hcc | split; simpl; lia]].
    eexists. split.
    + unfold table_of. simpl. rewrite Hl. apply lookup_insert_eq.
    + by apply rectangular_insert.
  - simpl. apply dom_insert_lookup_L. by eexists.
Qed.

(** Showing a cell while editing: its content is loaded into the
    entry. *)
Lemma highlight_while_editing (R C : nat) (self : t) :
  editing R C self ->
  exists m r x,
    table_of self = Some m
    /\ m !! Z.to_nat (fst (current_cell self)) = Some r
    /\ r !! Z.to_nat (snd (current_cell self)) = Some x
    /\ _highlight_current_cell self = Some (set_entry (Some x) self).
Proof.
  intros (Hact & [txt Htxt] & HR & HC & (m & Hm & Hrect) & (cc & Hcc & Hrcc)
          & Hrow & Hcol).
  destruct (current_cell self) as [i j] eqn:Ecell. simpl in Hrow, Hcol.
  destruct (rectangular_lookup R C m i j Hrect Hrow Hcol)
    as (Hin & r & x & Hr & Hrl & Hx).
  destruct (rectangular_lookup R C cc i j Hrcc Hrow Hcol)
    as (Hinc & rc & xc & Hrc & Hrcl & Hxc).
  exists m, r, x. repeat split; try done.
  unfold _highlight_current_cell. rewrite Hact, Hcc. simpl.
  destruct cc as [| c0 cs].
  { destruct Hrcc as [Hl _]. simpl in Hl. lia. }
  rewrite Ecell, Hinc, Hrc, Hxc, Htxt, Hm, Hin, Hr, Hx. done.
Qed.

Lemma editing_set_cell (R C : nat) (self : t) (i j : Z) :
  editing R C self -> 0 <= i < Z.of_nat R -> 0 <= j < Z.of_nat C ->
  editing R C (set_current_cell (i, j) self).
Proof.
  intros (Hact & Hentry & HR & HC & Hm & Hcc & _ & _) Hi Hj.
  unfold editing. simpl. tauto.
Qed.

Lemma editing_set_entry (R C : nat) (self : t) (x : string) :
  editing R C self -> editing R C (set_entry (Some x) self).
Proof.
  intros (Hact & Hentry & HR & HC & Hm & Hcc & Hi & Hj).
  unfold editing. simpl. split; [done |]. split; [by eexists |]. tauto.
Qed.

Lemma editing_moved (R C : nat) (self : t) (i j : Z) :
  editing R C self -> 0 <= i < Z.of_nat R -> 0 <= j < Z.of_nat C ->
  exists m r x,
    table_of self = Some m
    /\ m !! Z.to_nat i = Some r /\ r !! Z.to_nat j = Some x
    /\ _highlight_current_cell (set_current_cell (i, j) self)
       = Some (set_entry (Some x) (set_current_cell (i, j) self))
    /\ editing R C (set_entry (Some x) (set_current_cell (i, j) self)).
Proof.
  intros Hed Hi Hj.
  destruct (highlight_while_editing R C _ (editing_set_cell R C self i j Hed Hi Hj))
    as (m & r & x & Hm & Hr & Hx & Heq).
  exists m, r, x. split; [done |]. split; [done |]. split; [done |].
  split; [done |]. by apply editing_set_entry, editing_set_cell.
Qed.

Lemma table_dims_editing (R C : nat) (self : t) :
  editing R C self -> table_dims self = (Z.of_nat R, Z.of_nat C).
Proof.
  intros (_ & _ & HR & HC & (m & Hm & [Hlen Hall]) & _).
  unfold table_dims. rewrite Hm.
  destruct m as [| r0 m0]; [simpl in Hlen; lia |].
  apply Forall_cons in Hall as [Hr0 _]. by rewrite Hlen, Hr0.
Qed.

Lemma next_while_editing (R C : nat) (self self1 : t) :
  editing R C self -> _save_current_cell_content self = Some self1 ->
  let '(i, j) := current_cell self in
  let cell' :=
    if j + 1 >=? Z.of_nat C
    then (if i + 1 >=? Z.of_nat R then 0 else i + 1, 0)
    else (i, j + 1) in
  exists m r x,
    table_of self1 = Some m
    /\ m !! Z.to_nat (fst cell') = Some r /\ r !! Z.to_nat (snd cell') = Some x
    /\ _go_to_next_cell self
       = Some (set_entry (Some x) (set_current_cell cell' self1))
    /\ editing R C (set_entry (Some x) (set_current_cell cell' self1)).
Proof.
  intros Hed Hsave.
  destruct (editing_after_save R C self _ Hed Hsave)
    as (Hed1 & Hcell1 & _).
  unfold _go_to_next_cell. rewrite (proj1 Hed), Hsave. cbn [negb].
  rewrite (table_dims_editing R C _ Hed1), Hcell1.
  destruct Hed as (_ & _ & HR & HC & _ & _ & Hrow & Hcol).
  destruct (current_cell self) as [i j]. simpl in Hrow, Hcol.
  destruct (Z.geb_spec (j + 1) (Z.of_nat C)) as [Hwrap | Hstay].
  - destruct (Z.geb_spec (i + 1) (Z.of_nat R)) as [Hlast | Hmore].
    + destruct (editing_moved R C self1 0 0 Hed1) as (m & r & x & H);
        [lia | lia |]. exists m, r, x; exact H.
    + destruct (editing_moved R C self1 (i + 1) 0 Hed1) as (m & r & x & H);
        [lia | lia |]. exists m, r, x; exact H.
  - destruct (Z.geb_spec i (Z.of_nat R)) as [Hout | _]; [lia |].
    destruct (editing_moved R C self1 i (j + 1) Hed1) as (m & r & x & H);
      [lia | lia |]. exists m, r, x; exact H.
Qed.

Lemma previous_while_editing (R C : nat) (self self1 : t) :
  editing R C self -> _save_current_cell_content self = Some self1 ->
  let '(i, j) := current_cell self in
  let cell' :=
    if j - 1 <? 0
    then (if i - 1 <? 0 then Z.of_nat R - 1 else i - 1, Z.of_nat C - 1)
    else (i, j - 1) in
  exists m r x,
    table_of self1 = Some m
    /\ m !! Z.to_nat (fst cell') = Some r /\ r !! Z.to_nat (snd cell') = Some x
    /\ _go_to_previous_cell self
       = Some (set_entry (Some x) (set_current_cell cell' self1))
    /\ editing R C (set_entry (Some x) (set_current_cell cell' self1)).
Proof.
  intros Hed Hsave.
  destruct (editing_after_save R C self _ Hed Hsave)
    as (Hed1 & Hcell1 & _).
  unfold _go_to_previous_cell. rewrite (proj1 Hed), Hsave. cbn [negb].
  rewrite (table_dims_editing R C _ Hed1), Hcell1.
  destruct Hed as (_ & _ & HR & HC & _ & _ & Hrow & Hcol).
  destruct (current_cell self) as [i j]. simpl in Hrow, Hcol.
  destruct (Z.ltb_spec (j - 1) 0) as [Hwrap | Hstay].
  - destruct (Z.ltb_spec (i - 1) 0) as [Hfirst | Hmore].
    + destruct (editing_moved R C self1 (Z.of_nat R - 1) (Z.of_nat C - 1) Hed1)
        as (m & r & x & H); [lia | lia |]. exists m, r, x; exact H.
    + destruct (editing_moved R C self1 (i - 1) (Z.of_nat C - 1) Hed1)
        as (m & r & x & H); [lia | lia |]. exists m, r, x; exact H.
  - destruct (Z.ltb_spec i 0) as [Hout | _]; [lia |].
    destruct (editing_moved R C self1 i (j - 1) Hed1) as (m & r & x & H);
      [lia | lia |]. exists m, r, x; exact H.
Qed.

Lemma go_to_cell_while_editing (R C : nat) (self self1 : t)
      (to_row to_col : Z) :
  editing R C self -> _save_current_cell_content self = Some self1 ->
  let cell' := (Z.max 0 (Z.min to_row (Z.of_nat R - 1)),
                Z.max 0 (Z.min to_col (Z.of_nat C - 1))) in
  exists x,
    _go_to_cell to_row to_col self
    = Some (set_entry (Some x) (set_current_cell cell' self1))
    /\ editing R C (set_entry (Some x) (set_current_cell cell' self1)).
Proof.
  intros Hed Hsave cell'. subst cell'.
  destruct (editing_after_save R C self _ Hed Hsave)
    as (Hed1 & Hcell1 & _).
  unfold _go_to_cell. rewrite (proj1 Hed), Hsave. cbn [negb].
  pose proof Hed1 as (_ & _ & HR & HC & (m & Hm & [Hlen Hall]) & _).
  rewrite Hm. destruct m as [| r0 m0]; [simpl in Hlen; lia |].
  apply Forall_cons in Hall as [Hr0 _]. rewrite Hlen, Hr0.
  destruct (editing_moved R C self1 (Z.max 0 (Z.min to_row (Z.of_nat R - 1)))
              (Z.max 0 (Z.min to_col (Z.of_nat C - 1))) Hed1)
    as (m & r & x & _ & _ & _ & H); [lia | lia |]. exists x; exact H.
Qed.

Lemma table_of_store_copy (self : t) (p : nat) (m copy : list (list string)) :
  table_of self = Some m ->
  table_of (store_copy p copy self) = Some m
  /\ stored_table (store_copy p copy self) p = Some copy
  /\ manual_mode_active (store_copy p copy self) = manual_mode_active self
  /\ cell_text_entry (store_copy p copy self) = cell_text_entry self
  /\ cell_coordinates (store_copy p copy self) = cell_coordinates self
  /\ current_cell (store_copy p copy self) = current_cell self.
Proof.
  unfold store_copy, allocate, table_of, stored_table. simpl. intros Hm.
  split; [| rewrite !lookup_insert_eq; repeat split; reflexivity].
  destruct (manual_table_data self) as [l |]; [| done].
  rewrite lookup_insert_ne; [done |]. intros <-.
  pose proof (is_fresh (dom (objects self))) as Hfresh.
  apply not_elem_of_dom_1 in Hfresh. by rewrite Hfresh in Hm.
Qed.

Lemma editing_store_copy (R C : nat) (self : t) (p : nat)
      (copy : list (list string)) :
  editing R C self -> editing R C (store_copy p copy self).
Proof.
  intros (Hact & Hentry & HR & HC & (m & Hm & Hrect) & Hcc & Hi & Hj).
  destruct (table_of_store_copy self p m copy Hm)
    as (Ht & _ & Ha & He & Hc & Hcell).
  unfold editing. rewrite Ht, Ha, He, Hc, Hcell.
  split; [done |]. split; [done |]. split; [done |]. split; [done |].
  split; [by exists m |]. tauto.
Qed.

End ManualCells.

Section ManualSample.
Import ManualInput.

Lemma sample_manager_editing : editing 1 2 sample_manager.
Proof.
  unfold editing. simpl.
  split; [done |]. split; [by eexists |]. split; [lia |]. split; [lia |].
  split.
  { exists [["a"%string; EmptyString]]. split; [done |]. split; [done |].
    by repeat constructor. }
  split; [| lia].
  eexists. split; [done |]. split; [done |]. by repeat constructor.
Qed.

End ManualSample.

(** X20.  While a table is being edited, moving around never raises
    and never leaves the table: after [_go_to_next_cell],
    [_go_to_previous_cell], [_go_to_cell] with any target, storing the
    page or typing, the table has the same number of rows and columns
    and the current cell is one of its cells; [_go_to_cell] clamps a
    target outside the table to the nearest cell. *)
Theorem navigation_stays_inside (n_rows n_cols : nat) (self : ManualInput.t) :
  ManualInput.editing n_rows n_cols self ->
  (exists self', ManualInput._go_to_next_cell self = Some self'
                 /\ ManualInput.editing n_rows n_cols self')
  /\ (exists self', ManualInput._go_to_previous_cell self = Some self'
                    /\ ManualInput.editing n_rows n_cols self')
  /\ (forall to_row to_col,
         exists self', ManualInput._go_to_cell to_row to_col self = Some self'
                       /\ ManualInput.editing n_rows n_cols self'
                       /\ ManualInput.current_cell self'
                          = (Z.max 0 (Z.min to_row (Z.of_nat n_rows - 1)),
                             Z.max 0 (Z.min to_col (Z.of_nat n_cols - 1))))
  /\ (forall app,
         exists self',
           ManualInput._store_current_page_values self app = Some self'
           /\ ManualInput.editing n_rows n_cols self'
           /\ ManualInput.stored_table self' (current_page app)
              = ManualInput.table_of self')
  /\ (forall txt, ManualInput.editing n_rows n_cols
                    (ManualInput.type_text txt self)).
Proof.
  intros Hed.
  destruct (save_while_editing _ _ _ Hed)
    as (l & m & r & txt & Hl & Hm & Hrect & Hr & Htxt & Hsave).
  destruct (editing_after_save _ _ _ _ Hed Hsave) as (Hed1 & _).
  split; [| split; [| split; [| split]]].
  - pose proof (next_while_editing _ _ _ _ Hed Hsave) as H.
    destruct (ManualInput.current_cell self) as [i j].
    destruct H as (m' & r' & x & _ & _ & _ & Hnext & Hed').
    eexists. split; [exact Hnext | exact Hed'].
  - pose proof (previous_while_editing _ _ _ _ Hed Hsave) as H.
    destruct (ManualInput.current_cell self) as [i j].
    destruct H as (m' & r' & x & _ & _ & _ & Hprev & Hed').
    eexists. split; [exact Hprev | exact Hed'].
  - intros to_row to_col.
    destruct (go_to_cell_while_editing _ _ _ _ to_row to_col Hed Hsave)
      as (x & Hgo & Hed').
    eexists. split; [exact Hgo |]. split; [exact Hed' | done].
  - intros app. unfold ManualInput._store_current_page_values.
    rewrite (proj1 Hed), Hsave. cbn [negb].
    destruct Hed1 as (Hact1 & Hent1 & HR & HC & (m1 & Hm1 & Hrect1) & Hrest).
    rewrite Hm1. eexists. split; [done |].
    destruct (table_of_store_copy _ (current_page app) m1 m1 Hm1)
      as (Ht & Hs & _).
    split; [| by rewrite Ht, Hs].
    apply editing_store_copy. unfold ManualInput.editing.
    split; [done |]. split; [done |]. split; [done |]. split; [done |].
    split; [by exists m1 | done].
  - intros txt'. unfold ManualInput.type_text. rewrite Htxt.
    by apply editing_set_entry.
Qed.

(** One row, two columns, the first cell current: the next cell is the
    second one. *)
Lemma navigation_stays_inside_witness :
  exists self', ManualInput._go_to_next_cell sample_manager = Some self'
                /\ ManualInput.editing 1 2 self'.
Proof.
  exact (proj1 (navigation_stays_inside 1 2 sample_manager
                  sample_manager_editing)).
Defined.

(** X21.  [_go_to_previous_cell] undoes [_go_to_next_cell]: going to
    the next cell and back, also across the end of a row or of the
    table, leaves the manager exactly as saving the current cell does;
    the text typed into the cell is in the table and in the entry. *)
Theorem previous_undoes_next (n_rows n_cols : nat) (self : ManualInput.t) :
  ManualInput.editing n_rows n_cols self ->
  exists there saved,
    ManualInput._go_to_next_cell self = Some there
    /\ ManualInput._save_current_cell_content self = Some saved
    /\ ManualInput._go_to_previous_cell there = Some saved
    /\ cell_at (default [] (ManualInput.table_of saved))
         (Z.to_nat (fst (ManualInput.current_cell self)))
         (Z.to_nat (snd (ManualInput.current_cell self)))
       = ManualInput.cell_text_entry self.
Proof.
  intros Hed.
  destruct (save_while_editing _ _ _ Hed)
    as (l & m & r & txt & Hl & Hm & Hrect & Hr & Htxt & Hsave).
  destruct (editing_after_save _ _ _ _ Hed Hsave)
    as (Hed1 & Hcell1 & Hent1 & Hmtd1 & _).
  pose proof (next_while_editing _ _ _ _ Hed Hsave) as Hnext.
  pose proof Hed as (_ & _ & HR & HC & _ & _ & Hrow & Hcol).
  destruct (ManualInput.current_cell self) as [i j] eqn:Ecell.
  cbn [fst snd] in *.
  destruct Hnext as (m1 & r1 & x & Hm1 & Hr1 & Hx & Hnext & Hed2).
  set (cell' := if j + 1 >=? Z.of_nat n_cols
                then (if i + 1 >=? Z.of_nat n_rows then 0 else i + 1, 0)
                else (i, j + 1)) in *.
  set (there := ManualInput.set_entry (Some x)
                  (ManualInput.set_current_cell cell'
                     (ManualInput.set_objects
                        (<[l := <[Z.to_nat i := <[Z.to_nat j := txt]> r]> m]>
                           (ManualInput.objects self)) self))) in *.
  assert (m1 = <[Z.to_nat i := <[Z.to_nat j := txt]> r]> m) as Em1.
  { unfold ManualInput.table_of in Hm1. simpl in Hm1. rewrite Hl in Hm1.
    rewrite lookup_insert_eq in Hm1. by injection Hm1. }
  assert (Z.to_nat i < length m)%nat as Hi_lt by by eapply lookup_lt_Some.
  assert (length r = n_cols) as Hrl.
  { destruct Hrect as [_ Hall]. rewrite Forall_forall in Hall. apply Hall.
    by eapply list_elem_of_lookup_2. }
  assert (cell_at m1 (Z.to_nat i) (Z.to_nat j) = Some txt) as Hcell.
  { subst m1. unfold cell_at. rewrite list_lookup_insert_eq by done.
    apply list_lookup_insert_eq. lia. }
  exists there. eexists. split; [exact Hnext |]. split; [exact Hsave |].
  split.
  - (* the way back *)
    assert (ManualInput._save_current_cell_content there = Some there) as Hsave'.
    { destruct (save_while_editing _ _ _ Hed2)
        as (l' & m' & r' & txt' & Hl' & Hm' & _ & Hr' & Htxt' & Heq).
      rewrite Heq. f_equal.
      subst there. simpl in *. rewrite Hl in Hl'. injection Hl' as <-.
      rewrite lookup_insert_eq in Hm'. injection Hm' as <-.
      injection Htxt' as <-. rewrite <- Em1 in *.
      rewrite Hr1 in Hr'. injection Hr' as <-.
      rewrite (list_insert_id r1), (list_insert_id m1) by done.
      rewrite insert_insert_eq. done. }
    pose proof (previous_while_editing _ _ _ _ Hed2 Hsave') as Hprev.
    assert (ManualInput.current_cell there = cell') as Ecell' by done.
    rewrite Ecell' in Hprev.
    assert ((let '(i', j') := cell' in
             if j' - 1 <? 0
             then (if i' - 1 <? 0 then Z.of_nat n_rows - 1 else i' - 1,
                   Z.of_nat n_cols - 1)
             else (i', j' - 1)) = (i, j)) as Hback.
    { subst cell'.
      destruct (Z.geb_spec (j + 1) (Z.of_nat n_cols)).
      - destruct (Z.geb_spec (i + 1) (Z.of_nat n_rows)).
        + simpl. f_equal; lia.
        + simpl. destruct (Z.ltb_spec (i + 1 - 1) 0); [lia |]. f_equal; lia.
      - destruct (Z.ltb_spec (j + 1 - 1) 0); [lia |]. f_equal; lia. }
    destruct cell' as [i' j'] eqn:Ec. rewrite Hback in Hprev.
    destruct Hprev as (m2 & r2 & x2 & Hm2 & Hr2 & Hx2 & Hprev & _).
    rewrite Hprev. f_equal.
    assert (x2 = txt) as ->.
    { unfold ManualInput.table_of in Hm2. subst there. simpl in Hm2.
      rewrite Hl, lookup_insert_eq in Hm2. injection Hm2 as <-.
      simpl in Hr2, Hx2. unfold cell_at in Hcell. rewrite Em1 in Hcell.
      rewrite Hr2 in Hcell. rewrite Hx2 in Hcell. by injection Hcell. }
    subst there. unfold ManualInput.set_entry, ManualInput.set_current_cell,
      ManualInput.set_objects. simpl. rewrite <- Htxt, <- Ecell.
    done.
  - unfold ManualInput.table_of. simpl. rewrite Hl, lookup_insert_eq. simpl.
    rewrite <- Em1. rewrite Htxt. exact Hcell.
Qed.

(** From the first cell of the sample to the second and back. *)
Lemma previous_undoes_next_witness :
  exists there saved,
    ManualInput._go_to_next_cell sample_manager = Some there
    /\ ManualInput._save_current_cell_content sample_manager = Some saved
    /\ ManualInput._go_to_previous_cell there = Some saved
    /\ cell_at (default [] (ManualInput.table_of saved)) 0 0
       = Some "ab"%string.
Proof.
  exact (previous_undoes_next 1 2 sample_manager sample_manager_editing).
Defined.

Section ManualModes.
Import ManualInput.

Lemma length_sorted (l : list Q) : length (sorted l) = length l.
Proof. unfold sorted. by rewrite merge_sort_Permutation. Qed.

Lemma cell_boxes_rectangular (cm rm : list Q) :
  rectangular (length rm - 1) (length cm - 1) (cell_boxes cm rm).
Proof.
  unfold cell_boxes. split; [by rewrite length_map, length_seq |].
  apply Forall_map, Forall_forall. intros r _. simpl.
  by rewrite length_map, length_seq.
Qed.

Lemma empty_table_rectangular (R C : nat) :
  rectangular R C (TableExtractor.empty_table R C).
Proof.
  unfold TableExtractor.empty_table. split; [apply length_replicate |].
  apply Forall_forall. intros r Hr. apply elem_of_replicate in Hr as [-> _].
  apply length_replicate.
Qed.

(** [_highlight_current_cell] at the end of
    [_initialize_manual_input]: the first cell is loaded into the
    entry. *)
Lemma initialize_result (R C : nat) (base : t) (l : nat)
      (m : list (list string)) (cc : list (list (Q * Q * Q * Q))) :
  (1 <= R)%nat -> (1 <= C)%nat ->
  manual_mode_active base = true ->
  objects base !! l = Some m ->
  length m = R -> (forall r0, m !! 0%nat = Some r0 -> length r0 = C) ->
  rectangular R C cc ->
  let self2 :=
    set_current_cell (0, 0) (set_table (Some l) (Some cc) base) in
  let self3 :=
    match cell_text_entry self2 with
    | None => set_entry (Some EmptyString) self2
    | Some _ => self2
    end in
  exists self',
    _highlight_current_cell self3 = Some self'
    /\ current_cell self' = (0, 0)
    /\ table_of self' = Some m
    /\ all_pages_manual_data self' = all_pages_manual_data base
    /\ objects self' = objects base
    /\ (rectangular R C m -> editing R C self').
Proof.
  intros HR HC Hact Hm Hlen Hfirst [Hcl Hcall] self2 self3.
  destruct m as [| r0 m0]; [simpl in Hlen; lia |].
  specialize (Hfirst r0 eq_refl).
  destruct r0 as [| x0 xs]; [simpl in Hfirst; lia |].
  destruct cc as [| c0 cs]; [simpl in Hcl; lia |].
  apply Forall_cons in Hcall as [Hc0 Hcs].
  destruct c0 as [| b0 bs]; [simpl in Hc0; lia |].
  exists (set_entry (Some x0) self3).
  assert (_highlight_current_cell self3 = Some (set_entry (Some x0) self3))
    as Hh.
  { subst self3 self2. unfold _highlight_current_cell, table_of. simpl.
    destruct (cell_text_entry base) as [e |] eqn:Ee; simpl.
    - by rewrite Hact, Ee, Hm.
    - by rewrite Hact, Hm. }
  split; [exact Hh |].
  subst self3 self2. unfold editing, table_of. simpl.
  destruct (cell_text_entry base) as [e |] eqn:Ee; simpl; rewrite Hm.
  all: split; [done |]; split; [done |]; split; [done |]; split; [done |].
  all: intros Hrect.
  all: split; [done |]; split; [by eexists |]; split; [done |].
  all: split; [done |]; split; [by eexists |].
  all: split; [| lia].
  all: eexists; split; [done |]; split; [done |]; by constructor.
Qed.

End ManualModes.

(** X22.  Switching manual mode on, with a document open and at least
    two markers on each axis, starts editing a table with one row and
    one column per gap between markers, at its first cell.  The table
    stored for the page is taken up again when it has that size; with
    no stored table editing starts from an empty one.  The tables
    stored for the pages stay as they are. *)
Theorem entering_manual_mode (self : ManualInput.t) (app : App) :
  ManualInput.manual_mode_active self = false ->
  no_document app = false ->
  (2 <= length (column_markers app))%nat ->
  (2 <= length (row_markers app))%nat ->
  let n_rows := (length (row_markers app) - 1)%nat in
  let n_cols := (length (column_markers app) - 1)%nat in
  exists self',
    ManualInput.toggle_manual_mode self app = Some self'
    /\ ManualInput.current_cell self' = (0, 0)
    /\ (forall m, ManualInput.stored_table self (current_page app) = Some m ->
                  ManualInput.rectangular n_rows n_cols m ->
                  ManualInput.editing n_rows n_cols self'
                  /\ ManualInput.table_of self' = Some m)
    /\ (ManualInput.stored_table self (current_page app) = None ->
        ManualInput.editing n_rows n_cols self'
        /\ ManualInput.table_of self'
           = Some (TableExtractor.empty_table n_rows n_cols))
    /\ (forall p m, ManualInput.stored_table self p = Some m ->
                    ManualInput.stored_table self' p = Some m).
Proof.
  intros Hact Hdoc Hc Hr n_rows n_cols.
  unfold ManualInput.toggle_manual_mode. rewrite Hdoc.
  rewrite !bool_decide_eq_false_2
    by (intros Hnil; rewrite Hnil in *; simpl in *; lia).
  cbn [orb ManualInput.manual_mode_active ManualInput.set_active].
  rewrite Hact. cbn [negb].
  unfold ManualInput._initialize_manual_input.
  rewrite !length_sorted.
  rewrite (proj2 (Nat.ltb_ge _ _) Hc), (proj2 (Nat.ltb_ge _ _) Hr).
  cbn [orb]. fold n_rows n_cols.
  set (base := ManualInput.set_active true self).
  assert (ManualInput.rectangular n_rows n_cols
            (ManualInput.cell_boxes (sorted (column_markers app))
               (sorted (row_markers app)))) as Hrcc.
  { pose proof (cell_boxes_rectangular (sorted (column_markers app))
                  (sorted (row_markers app))) as H.
    by rewrite !length_sorted in H. }
  assert (1 <= n_rows)%nat as HR by (subst n_rows; lia).
  assert (1 <= n_cols)%nat as HC by (subst n_cols; lia).
  (* a new, empty table *)
  assert (exists self',
             ManualInput._highlight_current_cell
               (let '(l, self1) :=
                  ManualInput.allocate
                    (TableExtractor.empty_table n_rows n_cols) base in
                let self2 :=
                  ManualInput.set_current_cell (0, 0)
                    (ManualInput.set_table (Some l)
                       (Some (ManualInput.cell_boxes
                                (sorted (column_markers app))
                                (sorted (row_markers app)))) self1) in
                match ManualInput.cell_text_entry self2 with
                | None => ManualInput.set_entry (Some EmptyString) self2
                | Some _ => self2
                end) = Some self'
             /\ ManualInput.editing n_rows n_cols self'
             /\ ManualInput.current_cell self' = (0, 0)
             /\ ManualInput.table_of self'
                = Some (TableExtractor.empty_table n_rows n_cols)
             /\ (forall p m, ManualInput.stored_table self p = Some m ->
                             ManualInput.stored_table self' p = Some m))
    as Hnew.
  { unfold ManualInput.allocate.
    set (l := fresh (dom (ManualInput.objects base))).
    set (self1 := ManualInput.set_objects _ base).
    destruct (initialize_result n_rows n_cols self1 l
                (TableExtractor.empty_table n_rows n_cols)
                (ManualInput.cell_boxes (sorted (column_markers app))
                   (sorted (row_markers app))) HR HC eq_refl)
      as (self' & Hh & Hcell & Ht & Hd & Ho & Hed);
      [apply lookup_insert_eq | apply empty_table_rectangular | | exact Hrcc |].
    { intros r0 Hr0. destruct (empty_table_rectangular n_rows n_cols)
        as [_ Hall]. rewrite Forall_forall in Hall. apply Hall.
      by eapply list_elem_of_lookup_2. }
    exists self'. split; [exact Hh |].
    split; [apply Hed, empty_table_rectangular |]. split; [done |].
    split; [done |]. intros p m. unfold ManualInput.stored_table.
    rewrite Hd, Ho. simpl.
    destruct (ManualInput.all_pages_manual_data self !! p) as [lp |]; [| done].
    intros Hlp. rewrite lookup_insert_ne; [done |]. intros <-.
    pose proof (is_fresh (dom (ManualInput.objects base))) as Hfresh.
    apply not_elem_of_dom_1 in Hfresh. fold l in Hfresh. simpl in Hfresh.
    by rewrite Hfresh in Hlp. }
  destruct Hnew as (fresh_start & Hfs & Hfs_ed & Hfs_cell & Hfs_t & Hfs_p).
  unfold ManualInput.stored_table at 1 2 3.
  change (ManualInput.all_pages_manual_data base)
    with (ManualInput.all_pages_manual_data self).
  change (ManualInput.objects base) with (ManualInput.objects self).
  destruct (ManualInput.all_pages_manual_data self !! current_page app)
    as [l0 |] eqn:El0.
  2: { exists fresh_start. split; [exact Hfs |]. split; [done |].
       split; [done |]. split; [done |]. exact Hfs_p. }
  destruct (ManualInput.objects self !! l0) as [m0 |] eqn:Em0.
  2: { simpl. exists fresh_start. split; [exact Hfs |]. split; [done |].
       split; [done |]. split; [done |]. exact Hfs_p. }
  destruct m0 as [| r0 m0].
  { simpl. exists fresh_start. split; [exact Hfs |]. split; [done |].
    split; [| split; [done | exact Hfs_p]].
    intros m [= <-] [Hlen _]. simpl in Hlen. lia. }
  destruct (Nat.eqb (length (r0 :: m0)) n_rows
            && Nat.eqb (length r0) n_cols) eqn:Ereuse.
  - apply andb_prop in Ereuse as [Er Ec].
    apply Nat.eqb_eq in Er, Ec.
    destruct (initialize_result n_rows n_cols base l0 (r0 :: m0)
                (ManualInput.cell_boxes (sorted (column_markers app))
                   (sorted (row_markers app))) HR HC eq_refl Em0 Er)
      as (self' & Hh & Hcell & Ht & Hd & Ho & Hed);
      [by intros r [= <-] | exact Hrcc |].
    exists self'. split; [exact Hh |]. split; [done |].
    split; [intros m [= <-] Hrect; split; [by apply Hed | done] |].
    split; [done |].
    intros p m. unfold ManualInput.stored_table. by rewrite Hd, Ho.
  - exists fresh_start. split; [exact Hfs |]. split; [done |].
    split; [| split; [done | exact Hfs_p]].
    intros m [= <-] [Hlen Hall]. apply Forall_cons in Hall as [Hr0 _].
    rewrite Hlen, Hr0, !Nat.eqb_refl in Ereuse. done.
Qed.

(** Three column markers and two row markers on an open document, no
    table stored: one row, two empty cells. *)
Lemma entering_manual_mode_witness :
  exists self',
    ManualInput.toggle_manual_mode ManualInput.initial
      (set_markers [0%Q; 50%Q; 100%Q] [0%Q; 100%Q] [] two_fragment_app)
    = Some self'
    /\ ManualInput.table_of self' = Some [[EmptyString; EmptyString]].
Proof.
  destruct (entering_manual_mode ManualInput.initial
              (set_markers [0%Q; 50%Q; 100%Q] [0%Q; 100%Q] []
                 two_fragment_app))
    as (self' & Htoggle & _ & _ & Hempty & _).
  - reflexivity.
  - reflexivity.
  - simpl. lia.
  - simpl. lia.
  - exists self'. split; [exact Htoggle |]. by apply Hempty.
Defined.

(** X23.  Leaving manual mode with the toggle does not save the text
    that is still in the entry: [toggle_manual_mode] clears the mode
    flag before it calls [_save_current_cell_content], which then
    returns at once, so the table stored for the page is the table
    without the pending text.  [exit_manual_mode_and_store_data], used
    when the page or the tab changes, saves the entry first and stores
    the table with it. *)
Theorem toggle_off_drops_pending_text (n_rows n_cols : nat)
        (self : ManualInput.t) (app : App) :
  ManualInput.editing n_rows n_cols self ->
  no_document app = false ->
  column_markers app <> [] -> row_markers app <> [] ->
  exists off out saved,
    ManualInput.toggle_manual_mode self app = Some off
    /\ ManualInput.exit_manual_mode_and_store_data self app
       = Some (out, msg_manual_deactivated_stored)
    /\ ManualInput._save_current_cell_content self = Some saved
    /\ ManualInput.stored_table off (current_page app)
       = ManualInput.table_of self
    /\ ManualInput.stored_table out (current_page app)
       = ManualInput.table_of saved
    /\ cell_at (default [] (ManualInput.stored_table out (current_page app)))
         (Z.to_nat (fst (ManualInput.current_cell self)))
         (Z.to_nat (snd (ManualInput.current_cell self)))
       = ManualInput.cell_text_entry self
    /\ ManualInput.manual_mode_active off = false
    /\ ManualInput.manual_mode_active out = false
    /\ ManualInput.cell_text_entry off = None
    /\ ManualInput.cell_text_entry out = None.
Proof.
  intros Hed Hdoc Hc Hr.
  destruct (save_while_editing _ _ _ Hed)
    as (l & m & r & txt & Hl & Hm & Hrect & Hrow & Htxt & Hsave).
  destruct (editing_after_save _ _ _ _ Hed Hsave)
    as (Hed1 & Hcell1 & Hent1 & Hmtd1 & _).
  pose proof Hed as (Hact & _ & HR & HC & _).
  pose proof Hed1 as (_ & _ & _ & _ & (m1 & Hm1 & [Hlen1 Hall1]) & _).
  assert (ManualInput.table_of self = Some m) as Ht.
  { unfold ManualInput.table_of. by rewrite Hl. }
  destruct m as [| r0 m0]; [destruct Hrect as [Hlen _]; simpl in Hlen; lia |].
  destruct m1 as [| r1 m1']; [simpl in Hlen1; lia |].
  set (off_state := ManualInput.set_active false self).
  assert (ManualInput.table_of off_state = Some (r0 :: m0)) as Hoff by exact Ht.
  destruct (table_of_store_copy off_state (current_page app) (r0 :: m0)
              (r0 :: m0) Hoff) as (_ & Hstored_off & Ha_off & _).
  destruct (table_of_store_copy _ (current_page app) (r1 :: m1') (r1 :: m1') Hm1)
    as (_ & Hstored_out & _).
  eexists. eexists. eexists.
  split.
  { unfold ManualInput.toggle_manual_mode.
    rewrite Hdoc, (bool_decide_eq_false_2 _ Hc), (bool_decide_eq_false_2 _ Hr).
    cbn [orb ManualInput.manual_mode_active ManualInput.set_active].
    rewrite Hact. cbn [negb]. fold off_state. rewrite Hoff.
    unfold ManualInput._save_current_cell_content at 1. cbn [negb
      ManualInput.manual_mode_active off_state ManualInput.set_active].
    rewrite Hoff. reflexivity. }
  split.
  { unfold ManualInput.exit_manual_mode_and_store_data.
    rewrite Hact, Hsave. cbn [negb]. rewrite Hm1. reflexivity. }
  split; [exact Hsave |].
  split; [by rewrite Ht |].
  split; [by rewrite Hm1 |].
  split.
  { cbn [ManualInput.stored_table ManualInput._cleanup_manual_input].
    change (ManualInput.stored_table
              (ManualInput._cleanup_manual_input
                 (ManualInput.set_active false
                    (ManualInput.store_copy (current_page app) (r1 :: m1')
                       (ManualInput.set_objects
                          (<[l := <[Z.to_nat (ManualInput.current_cell self).1 :=
                                      <[Z.to_nat (ManualInput.current_cell self).2
                                        := txt]> r]> (r0 :: m0)]>
                             (ManualInput.objects self)) self))))
              (current_page app))
      with (ManualInput.stored_table
              (ManualInput.store_copy (current_page app) (r1 :: m1')
                 (ManualInput.set_objects
                    (<[l := <[Z.to_nat (ManualInput.current_cell self).1 :=
                                <[Z.to_nat (ManualInput.current_cell self).2
                                  := txt]> r]> (r0 :: m0)]>
                       (ManualInput.objects self)) self))
              (current_page app)).
    rewrite Hstored_out. simpl.
    unfold ManualInput.table_of in Hm1. simpl in Hm1.
    rewrite Hl, lookup_insert_eq in Hm1. injection Hm1 as Hm1.
    rewrite <- Hm1, Htxt. unfold cell_at.
    assert (Z.to_nat (ManualInput.current_cell self).1 < length (r0 :: m0))%nat
      as Hlt by by eapply lookup_lt_Some.
    rewrite list_lookup_insert_eq by done.
    apply list_lookup_insert_eq.
    destruct Hed as (_ & _ & _ & _ & _ & _ & _ & Hcol).
    destruct Hrect as [_ Hall]. rewrite Forall_forall in Hall.
    rewrite (Hall r) by by eapply list_elem_of_lookup_2. lia. }
  by repeat split.
Qed.

(** The sample: "a" in the table, "ab" in the entry. *)
Lemma toggle_off_drops_pending_text_witness :
  exists off out,
    ManualInput.toggle_manual_mode sample_manager
      (set_markers [0%Q; 50%Q; 100%Q] [0%Q; 100%Q] [] two_fragment_app)
    = Some off
    /\ ManualInput.exit_manual_mode_and_store_data sample_manager
         (set_markers [0%Q; 50%Q; 100%Q] [0%Q; 100%Q] [] two_fragment_app)
       = Some (out, msg_manual_deactivated_stored)
    /\ ManualInput.stored_table off 0 = Some [["a"%string; EmptyString]]
    /\ cell_at (default [] (ManualInput.stored_table out 0)) 0 0
       = Some "ab"%string.
Proof.
  destruct (toggle_off_drops_pending_text 1 2 sample_manager
              (set_markers [0%Q; 50%Q; 100%Q] [0%Q; 100%Q] []
                 two_fragment_app) sample_manager_editing)
    as (off & out & saved & Hoff & Hout & _ & Hstored & _ & Hcell & _).
  - reflexivity.
  - discriminate.
  - discriminate.
  - exists off, out. split; [exact Hoff |]. split; [exact Hout |].
    split; [exact Hstored | exact Hcell].
Defined.

Section ManualRun.
Import ManualInput.

Lemma mapM_lookup {A B : Type} (f : A -> option B) (l : list A)
      (k : list B) (i : nat) (a : A) :
  mapM f l = Some k -> l !! i = Some a ->
  exists b, f a = Some b /\ k !! i = Some b.
Proof.
  intros Hk Ha. apply mapM_Some in Hk.
  destruct (Forall2_lookup_l _ _ _ _ _ Hk Ha) as (b & Hb & Hf).
  by exists b.
Qed.

Lemma mapM_total {A B : Type} (f : A -> option B) (l : list A) :
  Forall (fun a => is_Some (f a)) l -> is_Some (mapM f l).
Proof. intros Hall. by apply mapM_is_Some. Qed.

End ManualRun.

(** X24.  The manual multi-page run hands the merge step exactly one
    grid per marked page, in ascending page order: the table stored for
    the page, or an empty grid of the size given by the page's own
    markers when nothing is stored for it.  The table being edited is
    stored for the current page first, with the text of the entry saved
    into it.  While a table is being edited and no transposition is
    asked for, the run always comes to its end. *)
Theorem manual_run_takes_every_marked_page
        (merge_mode : TableExtractor.merge_mode_t) (do_transpose : bool)
        (n_rows n_cols : nat) (self : ManualInput.t) (app : App) :
  ManualInput.editing n_rows n_cols self ->
  no_document app = false ->
  page_markers app <> ∅ ->
  (forall p l, ManualInput.all_pages_manual_data self !! p = Some l ->
               is_Some (ManualInput.objects self !! l)) ->
  (forall self' app' all_tables merged_table,
      ManualInput.extract_all_marked_pages (Some (merge_mode, do_transpose))
        self app
      = Some (self', app', TableExtractor.run_extracted all_tables merged_table)
      ->
      length all_tables = size (page_markers app)
      /\ (forall i p d,
             TableExtractor.marked_pages app !! i = Some p ->
             page_markers app !! p = Some d ->
             all_tables !! i
             = Some (default
                       (TableExtractor.empty_table
                          (TableExtractor.cell_count (sorted (rows d)))
                          (TableExtractor.cell_count (sorted (columns d))))
                       (ManualInput.stored_table self' p)))
      /\ ManualInput.stored_table self' (current_page app)
         = match ManualInput._save_current_cell_content self with
           | Some saved => ManualInput.table_of saved
           | None => None
           end
      /\ table_data app' = merged_table
      /\ ManualInput.manual_mode_active self' = false)
  /\ (do_transpose = false ->
      exists self' app' all_tables merged_table,
        ManualInput.extract_all_marked_pages (Some (merge_mode, do_transpose))
          self app
        = Some (self', app',
                TableExtractor.run_extracted all_tables merged_table)).
Proof.
  intros Hed Hdoc Hpm Hvalid.
  destruct (save_while_editing _ _ _ Hed)
    as (l & m & r & txt & Hl & Hm & Hrect & Hrow & Htxt & Hsave).
  destruct (editing_after_save _ _ _ _ Hed Hsave)
    as (Hed1 & Hcell1 & Hent1 & Hmtd1 & Hdict1 & _ & Hdom1).
  pose proof Hed1 as (_ & _ & HR & _ & (m1 & Hm1 & [Hlen1 Hall1]) & _).
  destruct m1 as [| r1 m1']; [simpl in Hlen1; lia |].
  set (saved := ManualInput.set_objects _ self) in *.
  set (self2 := ManualInput.set_page_data
                  (<[current_page app := l]>
                     (ManualInput.all_pages_manual_data saved)) saved).
  assert (ManualInput.stored_table self2 (current_page app)
          = Some (r1 :: m1')) as Hcur.
  { unfold ManualInput.stored_table. subst self2. simpl.
    rewrite lookup_insert_eq. unfold ManualInput.table_of in Hm1.
    simpl in Hm1. by rewrite Hl in Hm1. }
  assert (forall p, page_markers app !! p <> None ->
                    is_Some (ManualInput.page_table self2 app p)) as Htotal.
  { intros p Hp. unfold ManualInput.page_table. subst self2. simpl.
    destruct (decide (p = current_page app)) as [-> | Hne].
    - rewrite lookup_insert_eq. unfold ManualInput.table_of in Hm1.
      simpl in Hm1. rewrite Hl in Hm1. by eexists.
    - rewrite lookup_insert_ne by done.
      destruct (ManualInput.all_pages_manual_data self !! p) as [lp |] eqn:Elp.
      + destruct (Hvalid p lp Elp) as [mp Hmp].
        destruct (decide (lp = l)) as [-> | Hl'].
        * rewrite lookup_insert_eq. by eexists.
        * rewrite lookup_insert_ne by done. by eexists.
      + destruct (page_markers app !! p); [by eexists | done]. }
  assert (is_Some (mapM (ManualInput.page_table self2 app)
                     (TableExtractor.marked_pages app))) as [tables Htables].
  { apply mapM_total, Forall_forall. intros p Hp. apply Htotal.
    destruct (marked_pages_spec app) as (_ & _ & Hin & _).
    apply list_elem_of_In, Hin in Hp as [d Hd]. by rewrite Hd. }
  assert (length tables = size (page_markers app)) as Hsize.
  { apply length_mapM in Htables. rewrite <- Htables.
    by destruct (marked_pages_spec app) as (_ & _ & _ & ->). }
  assert (tables <> []) as Hne.
  { intros ->. simpl in Hsize. symmetry in Hsize.
    by apply map_size_empty_iff in Hsize. }
  assert (ManualInput.extract_all_marked_pages (Some (merge_mode, do_transpose))
            self app
          = match tables with
            | [] => Some (self2, app, TableExtractor.run_no_tables)
            | g :: gs =>
                let merged_table :=
                  match merge_mode with
                  | TableExtractor.vertical =>
                      TableExtractor.merge_tables_vertically (g :: gs)
                  | TableExtractor.horizontal =>
                      TableExtractor.merge_tables_horizontally (g :: gs)
                  end in
                match merged_table with
                | [] =>
                    if do_transpose
                    then Some (self2, app, TableExtractor.run_failed)
                    else Some (ManualInput._cleanup_manual_input
                                 (ManualInput.set_active false self2),
                               set_table_data [] app,
                               TableExtractor.run_extracted (g :: gs) [])
                | _ :: _ =>
                    Some (ManualInput._cleanup_manual_input
                            (ManualInput.set_active false self2),
                          set_table_data
                            (if do_transpose
                             then TableExtractor.transpose merged_table
                             else merged_table) app,
                          TableExtractor.run_extracted (g :: gs)
                            (if do_transpose
                             then TableExtractor.transpose merged_table
                             else merged_table))
                end
            end) as Hrun.
  { unfold ManualInput.extract_all_marked_pages.
    rewrite Hdoc, (bool_decide_eq_false_2 _ Hpm), Hsave.
    fold saved. rewrite Hmtd1, Hl, Hm1. fold self2. rewrite Htables.
    destruct tables as [| g gs]; [done |]. reflexivity. }
  split.
  - intros self' app' all_tables merged_table Hresult.
    rewrite Hrun in Hresult. destruct tables as [| g gs]; [done |].
    assert (self' = ManualInput._cleanup_manual_input
                      (ManualInput.set_active false self2)
            /\ all_tables = g :: gs /\ table_data app' = merged_table)
      as (-> & -> & Htd).
    { cbv zeta in Hresult.
      destruct (match merge_mode with
                | TableExtractor.vertical => _
                | TableExtractor.horizontal => _
                end) as [| row0 rest];
        [destruct do_transpose; [done |] |];
        injection Hresult as <- <- <- <-; by repeat split. }
    split; [done |]. split.
    + intros i p d Hi Hd.
      destruct (mapM_lookup _ _ _ _ _ Htables Hi) as (g' & Hg' & Hlook).
      rewrite Hlook. f_equal.
      unfold ManualInput.page_table in Hg'.
      change (ManualInput.stored_table
                (ManualInput._cleanup_manual_input
                   (ManualInput.set_active false self2)) p)
        with (ManualInput.stored_table self2 p).
      unfold ManualInput.stored_table.
      destruct (ManualInput.all_pages_manual_data self2 !! p) as [lp |].
      * by rewrite Hg'.
      * rewrite Hd in Hg'. by injection Hg' as <-.
    + split; [| done].
      change (ManualInput.stored_table
                (ManualInput._cleanup_manual_input
                   (ManualInput.set_active false self2)) (current_page app))
        with (ManualInput.stored_table self2 (current_page app)).
      rewrite Hcur, Hsave. simpl. by rewrite Hm1.
  - intros ->. rewrite Hrun. destruct tables as [| g gs]; [done |].
    cbv zeta.
    destruct (match merge_mode with
              | TableExtractor.vertical => _
              | TableExtractor.horizontal => _
              end); by repeat eexists.
Qed.

(** The sample manager on the first of two marked pages: the run hands
    over two grids. *)
Lemma manual_run_takes_every_marked_page_witness :
  exists self' app' all_tables merged_table,
    ManualInput.extract_all_marked_pages
      (Some (TableExtractor.vertical, false)) sample_manager
      two_marked_pages_app
    = Some (self', app',
            TableExtractor.run_extracted all_tables merged_table).
Proof.
  refine (proj2 (manual_run_takes_every_marked_page TableExtractor.vertical
                   false 1 2 sample_manager two_marked_pages_app
                   sample_manager_editing _ _ _) eq_refl).
  - reflexivity.
  - intros H. apply (f_equal (fun m => m !! 0%nat)) in H. discriminate H.
  - intros p l H. discriminate H.
Defined.

(** ** Detected lines and the selection *)

Section InsideSelection.
Import AreaProcessor.

(** [int] rounds toward zero, so it never crosses an integer. *)
Lemma py_int_ge (z : Z) (q : Q) : (inject_Z z <= q)%Q -> z <= py_int q.
Proof.
  destruct q as [n d]. unfold py_int, Qle. simpl. intros H.
  rewrite Z.mul_1_r in H.
  destruct (Z.le_gt_cases 0 n) as [Hn | Hn].
  - rewrite Z.quot_div_nonneg by lia. apply Z.div_le_lower_bound; lia.
  - replace n with (- (- n)) by lia. rewrite Z.quot_opp_l by lia.
    rewrite Z.quot_div_nonneg by lia.
    assert ((- n) / Z.pos d <= - z); [| lia].
    apply Z.div_le_upper_bound; lia.
Qed.

Lemma py_int_le (z : Z) (q : Q) : (q <= inject_Z z)%Q -> py_int q <= z.
Proof.
  destruct q as [n d]. unfold py_int, Qle. simpl. intros H.
  rewrite Z.mul_1_r in H.
  destruct (Z.le_gt_cases 0 n) as [Hn | Hn].
  - rewrite Z.quot_div_nonneg by lia. apply Z.div_le_upper_bound; lia.
  - replace n with (- (- n)) by lia. rewrite Z.quot_opp_l by lia.
    rewrite Z.quot_div_nonneg by lia.
    assert (- z <= (- n) / Z.pos d); [| lia].
    apply Z.div_le_lower_bound; lia.
Qed.

(** A pixel of the processed image is mapped into the cropped region. *)
Lemma mapped_inside (lo hi : Q) (p w : Z) :
  0 < w -> 0 <= p <= w -> (lo <= hi)%Q ->
  (lo <= lo + inject_Z p * ((hi - lo) / inject_Z w))%Q
  /\ (lo + inject_Z p * ((hi - lo) / inject_Z w) <= hi)%Q.
Proof.
  intros Hw Hp Hlh.
  assert (0 < inject_Z w)%Q as Hw' by (unfold Qlt; simpl; lia).
  assert (0 <= inject_Z p)%Q as Hp0 by (unfold Qle; simpl; lia).
  assert (inject_Z p <= inject_Z w)%Q as Hpw by (unfold Qle; simpl; lia).
  assert (~ (inject_Z w == 0)%Q) as Hw0.
  { intros H0. rewrite H0 in Hw'. by apply Qlt_irrefl in Hw'. }
  assert (0 <= hi - lo)%Q as Hd by lra.
  assert (0 <= (hi - lo) / inject_Z w)%Q as Hq.
  { apply Qle_shift_div_l; [done |]. by rewrite Qmult_0_l. }
  assert (inject_Z w * ((hi - lo) / inject_Z w) == hi - lo)%Q as Hfull
      by by field.
  assert (inject_Z p * ((hi - lo) / inject_Z w)
          <= inject_Z w * ((hi - lo) / inject_Z w))%Q as Hup
      by by apply Qmult_le_compat_r.
  assert (0 <= inject_Z p * ((hi - lo) / inject_Z w))%Q as Hlow
      by by apply Qmult_le_0_compat.
  rewrite Hfull in Hup. split; lra.
Qed.

End InsideSelection.

(** X25.  Applied to cleared marker lists, the detected vertical lines
    never leave the selection: when the cropped region lies inside the
    selection and every detected position is a pixel column of the
    processed image, each column marker set by [apply_detected_lines]
    lies between the left and the right edge of the selection, and the
    two edges are markers themselves, so the table spans exactly the
    width of the selection. *)
Theorem detected_columns_stay_inside (self : AreaProcessor.t) (app : App)
        (w x1 y1 x2 y2 : Z) :
  AreaProcessor.processed_image self = Some w -> 0 < w ->
  AreaProcessor.original_selection self = (x1, y1, x2, y2) ->
  (inject_Z x1 <= AreaProcessor.x1_cropped self)%Q ->
  (AreaProcessor.x1_cropped self <= AreaProcessor.x2_cropped self)%Q ->
  (AreaProcessor.x2_cropped self <= inject_Z x2)%Q ->
  Forall (fun p => 0 <= p <= w) (AreaProcessor.detected_vertical_lines self) ->
  is_Some (selection_start app) ->
  let app' := AreaProcessor.apply_detected_lines (Some self) true app in
  Forall (fun m => (inject_Z x1 <= m)%Q /\ (m <= inject_Z x2)%Q)
    (column_markers app')
  /\ py_in (inject_Z x1) (column_markers app') = true
  /\ py_in (inject_Z x2) (column_markers app') = true.
Proof.
  intros Himg Hw Hsel Hx1 Hmid Hx2 Hlines [start Hstart] app'. subst app'.
  unfold AreaProcessor.apply_detected_lines.
  rewrite Hstart. unfold AreaProcessor.scale_factor. rewrite Himg.
  rewrite bool_decide_eq_false_2 by lia. rewrite Hsel.
  set (scale := ((AreaProcessor.x2_cropped self - AreaProcessor.x1_cropped self)
                 / inject_Z w)%Q).
  set (fx := fun x_rel =>
               inject_Z (AreaProcessor.to_pdf (AreaProcessor.x1_cropped self)
                           x_rel scale)).
  set (fy := fun y_rel =>
               inject_Z (AreaProcessor.to_pdf (AreaProcessor.y1_cropped self)
                           y_rel scale)).
  set (app2 := AreaProcessor.add_row (inject_Z y2)
                 (AreaProcessor.add_row (inject_Z y1)
                    (AreaProcessor.add_column (inject_Z x2)
                       (AreaProcessor.add_column (inject_Z x1)
                          (set_markers [] [] [] app))))).
  cbn [column_markers set_status set_markers].
  rewrite (fold_rows_columns fy).
  assert (inject_Z x1 <= inject_Z x2)%Q as Hx12 by lra.
  assert (forall u, In u (column_markers app2) ->
                    u = inject_Z x1 \/ u = inject_Z x2) as Hbase.
  { intros u Hu. subst app2. rewrite !add_row_columns in Hu.
    apply add_column_from in Hu as [Hu | ->]; [| by right].
    apply add_column_from in Hu as [Hu | ->]; [| by left].
    simpl in Hu. done. }
  assert (py_in (inject_Z x1) (column_markers app2) = true
          /\ py_in (inject_Z x2) (column_markers app2) = true) as [Hin1 Hin2].
  { subst app2. rewrite !add_row_columns. split.
    - apply add_column_keeps, add_column_has.
    - apply add_column_has. }
  split; [| split].
  - apply Forall_forall. intros u Hu.
    apply list_elem_of_In, in_sorted in Hu.
    apply (fold_columns_from fx) in Hu as [Hu | (p & Hp & ->)].
    + destruct (Hbase u Hu) as [-> | ->]; split; lra.
    + rewrite Forall_forall in Hlines.
      assert (0 <= p <= w) as Hpw by (apply Hlines; by apply list_elem_of_In).
      destruct (mapped_inside (AreaProcessor.x1_cropped self)
                  (AreaProcessor.x2_cropped self) p w Hw Hpw Hmid)
        as [Hlo Hhi].
      subst fx. unfold AreaProcessor.to_pdf. fold scale in Hlo, Hhi.
      split.
      * rewrite <- Zle_Qle. apply py_int_ge. lra.
      * rewrite <- Zle_Qle. apply py_int_le. lra.
  - eapply py_in_perm; [| by apply (fold_columns_keeps fx)].
    unfold sorted. by rewrite merge_sort_Permutation.
  - eapply py_in_perm; [| by apply (fold_columns_keeps fx)].
    unfold sorted. by rewrite merge_sort_Permutation.
Qed.

(** The selection from 10 to 110 with the cropped region from 13 to 107
    and detected pixel columns 1 and 400 of 752. *)
Lemma detected_columns_stay_inside_witness :
  Forall (fun m => (inject_Z 10 <= m)%Q /\ (m <= inject_Z 110)%Q)
    (column_markers
       (AreaProcessor.apply_detected_lines (Some sample_processor) true
          selection_app)).
Proof.
  refine (proj1 (detected_columns_stay_inside sample_processor selection_app
                   752 10 20 110 220 _ _ _ _ _ _ _ _)).
  - reflexivity.
  - lia.
  - reflexivity.
  - vm_compute. discriminate.
  - vm_compute. discriminate.
  - vm_compute. discriminate.
  - repeat constructor; lia.
  - by eexists.
Defined.

